(** * go-email: message validation, MIME construction and the client facade

    A shallow embedding of the Go package [email] (files email.go, gmail.go
    and outlook.go) together with the parts of the Go standard library the
    package calls ([strings], [path/filepath], [encoding/base64], [fmt],
    [errors], [context], [time]).

    Conventions of the embedding:
    - a Go [string] is a [string] (a sequence of 8-bit characters), a
      [[]byte] is a [list byte];
    - machine integers are [Z]; the only bit arithmetic is the 24-bit
      accumulator of the base64 encoder, written with [Z.lor], [Z.shiftl],
      [Z.shiftr] and [Z.land] as in the library source;
    - an [error] is [option Err], [None] being Go's [nil];
    - a Go [map[string]string] is a [gmap string string]; a [range] loop
      over it visits the entries in an order chosen by the runtime;
    - code that reads the clock, ranges over a map or calls a remote
      service is a state transformer on [World];
    - what lies outside the package is a parameter: the Unicode case tables
      behind [strings.ToLower], the two provider constructors built on the
      vendor SDKs, and the remote call of the Gmail service. Path separators
      are those of Unix-like targets. *)

From Stdlib Require Import ZArith Ascii String List DecimalString.
From Stdlib Require Import DecimalZ.
From Stdlib.Strings Require Import Byte.
From stdpp Require Import gmap strings list fin_maps.
From Equations Require Import Equations.

Local Open Scope Z_scope.

(** ** Errors *)

(** [fmt.Errorf] without a [%w] verb builds an [*errors.errorString]-like
    value; with [%w] it builds a [*fmt.wrapError] that remembers the wrapped
    error. *)
Inductive Err : Type :=
| errorString (s : string)
| wrapError (msg : string) (err : Err).

Definition error : Type := option Err.

Definition Error (e : Err) : string :=
  match e with
  | errorString s => s
  | wrapError msg _ => msg
  end.

Definition Unwrap (e : Err) : error :=
  match e with
  | errorString _ => None
  | wrapError _ inner => Some inner
  end.

(** [fmt.Errorf(text)] *)
Definition Errorf (text : string) : Err := errorString text.

(** [fmt.Errorf(prefix + "%s", arg)] *)
Definition Errorf_s (prefix arg : string) : Err := errorString (prefix +:+ arg).

(** [fmt.Errorf(prefix + "%w", err)] *)
Definition Errorf_w (prefix : string) (err : Err) : Err :=
  wrapError (prefix +:+ Error err) err.

(** ** Package strings *)

Definition CRLF : string := String "013" (String "010" "").

(** [strings.Join(elems, sep)] *)
Definition Join (elems : list string) (sep : string) : string :=
  String.concat sep elems.

(** A [strings.Builder] is the text written so far. *)
Definition Builder : Type := string.

Definition WriteString (b : Builder) (s : string) : Builder := b +:+ s.

Definition isUpperByte (c : ascii) : bool :=
  (65 <=? nat_of_ascii c)%nat && (nat_of_ascii c <=? 90)%nat.

(** [c += 'a' - 'A'] for an upper-case ASCII letter. *)
Definition lowerByte (c : ascii) : ascii :=
  if isUpperByte c then ascii_of_nat (nat_of_ascii c + 32) else c.

(** [c < utf8.RuneSelf] *)
Definition isASCIIByte (c : ascii) : bool := (nat_of_ascii c <? 128)%nat.

Fixpoint isASCII (s : string) : bool :=
  match s with
  | EmptyString => true
  | String c rest => isASCIIByte c && isASCII rest
  end.

Fixpoint lowerASCII (s : string) : string :=
  match s with
  | EmptyString => EmptyString
  | String c rest => String (lowerByte c) (lowerASCII rest)
  end.

(** The Unicode case tables are not part of the program: the slow path of
    [strings.ToLower], [strings.Map(unicode.ToLower, s)], is a parameter. *)
Class UnicodeTables : Type := { MapToLower : string -> string }.

(** [strings.ToLower]: strings made of ASCII bytes only are lowered byte by
    byte, all others go through the Unicode tables. *)
Definition ToLower `{UnicodeTables} (s : string) : string :=
  if isASCII s then lowerASCII s else MapToLower s.

(** ** Package path/filepath *)

(** [os.IsPathSeparator] on Unix-like targets. *)
Definition IsPathSeparator (c : ascii) : bool := bool_decide (c = "/"%char).

(** The loop of [filepath.Ext], [n] being [i + 1]:
    [for i := len(path) - 1; i >= 0 && !os.IsPathSeparator(path[i]); i--]. *)
Fixpoint ExtFrom (path : string) (n : nat) : string :=
  match n with
  | O => ""
  | S i =>
      match String.get i path with
      | Some c =>
          if IsPathSeparator c then ""
          else if bool_decide (c = "."%char)
               then String.substring i (String.length path - i) path
               else ExtFrom path i
      | None => ""
      end
  end.

Definition Ext (path : string) : string := ExtFrom path (String.length path).

(** ** Package fmt: the verb [%d] on an integer *)

Definition Sprintf_d (n : Z) : string := NilZero.string_of_int (Z.to_int n).

(** ** Package encoding/base64 *)

Record Encoding : Type := {
  encode : string;            (* the 64-character alphabet *)
  padChar : option ascii      (* [None] is [NoPadding] *)
}.

Definition encodeStd : string :=
  "ABCDEFGHIJKLMNOPQRSTUVWXYZabcdefghijklmnopqrstuvwxyz0123456789+/".

Definition encodeURL : string :=
  "ABCDEFGHIJKLMNOPQRSTUVWXYZabcdefghijklmnopqrstuvwxyz0123456789-_".

Definition StdPadding : ascii := "="%char.

Definition StdEncoding : Encoding :=
  {| encode := encodeStd; padChar := Some StdPadding |}.

Definition URLEncoding : Encoding :=
  {| encode := encodeURL; padChar := Some StdPadding |}.

Definition byteZ (b : byte) : Z := Z.of_N (Byte.to_N b).

(** The conversion [byte(v)] of an unsigned integer: the low eight bits. *)
Definition toByte (v : Z) : byte :=
  match Byte.of_N (Z.to_N (Z.land v 255)) with
  | Some b => b
  | None => x00
  end.

(** [enc.encode[i]]; every index the encoder uses is masked with [0x3F]. *)
Definition encodeAt (enc : Encoding) (i : Z) : ascii :=
  match String.get (Z.to_nat i) (encode enc) with
  | Some c => c
  | None => "000"%char
  end.

Definition padding (enc : Encoding) (n : nat) : string :=
  match padChar enc with
  | Some c => string_of_list_ascii (repeat c n)
  | None => ""
  end.

(** [Encoding.Encode]: whole groups of three bytes first, then the one or
    two bytes that remain. *)
Fixpoint EncodeToString (enc : Encoding) (src : list byte) : string :=
  match src with
  | [] => ""
  | [b0] =>
      let val := Z.shiftl (byteZ b0) 16 in
      String (encodeAt enc (Z.land (Z.shiftr val 18) 63))
        (String (encodeAt enc (Z.land (Z.shiftr val 12) 63))
           (padding enc 2))
  | [b0; b1] =>
      let val := Z.lor (Z.shiftl (byteZ b0) 16) (Z.shiftl (byteZ b1) 8) in
      String (encodeAt enc (Z.land (Z.shiftr val 18) 63))
        (String (encodeAt enc (Z.land (Z.shiftr val 12) 63))
           (String (encodeAt enc (Z.land (Z.shiftr val 6) 63))
              (padding enc 1)))
  | b0 :: b1 :: b2 :: rest =>
      let val := Z.lor (Z.lor (Z.shiftl (byteZ b0) 16) (Z.shiftl (byteZ b1) 8))
                       (byteZ b2) in
      String (encodeAt enc (Z.land (Z.shiftr val 18) 63))
        (String (encodeAt enc (Z.land (Z.shiftr val 12) 63))
           (String (encodeAt enc (Z.land (Z.shiftr val 6) 63))
              (String (encodeAt enc (Z.land val 63))
                 (EncodeToString enc rest))))
  end.

(** [strings.IndexByte] *)
Fixpoint IndexByte (s : string) (c : ascii) : option nat :=
  match s with
  | EmptyString => None
  | String d rest =>
      if bool_decide (d = c) then Some O else S <$> IndexByte rest c
  end.

(** [enc.decodeMap[c]]: the position of [c] in the alphabet, if any. *)
Definition decodeMap (enc : Encoding) (c : ascii) : option Z :=
  Z.of_nat <$> IndexByte (encode enc) c.

Definition isPad (enc : Encoding) (c : ascii) : bool :=
  bool_decide (padChar enc = Some c).

(** Decoding of a text without line breaks, four characters at a time
    (RFC 4648, padding required in the last quantum, as
    [Encoding.DecodeString] does for a padded encoding). *)
Fixpoint DecodeString (enc : Encoding) (s : string) : option (list byte) :=
  match s with
  | EmptyString => Some []
  | String c0 (String c1 (String c2 (String c3 rest))) =>
      if bool_decide (rest = EmptyString) && isPad enc c3 then
        if isPad enc c2 then
          v0 ← decodeMap enc c0; v1 ← decodeMap enc c1;
          let val := Z.lor (Z.shiftl v0 18) (Z.shiftl v1 12) in
          Some [toByte (Z.shiftr val 16)]
        else
          v0 ← decodeMap enc c0; v1 ← decodeMap enc c1;
          v2 ← decodeMap enc c2;
          let val := Z.lor (Z.lor (Z.shiftl v0 18) (Z.shiftl v1 12))
                           (Z.shiftl v2 6) in
          Some [toByte (Z.shiftr val 16); toByte (Z.shiftr val 8)]
      else
        v0 ← decodeMap enc c0; v1 ← decodeMap enc c1;
        v2 ← decodeMap enc c2; v3 ← decodeMap enc c3;
        let val := Z.lor (Z.lor (Z.lor (Z.shiftl v0 18) (Z.shiftl v1 12))
                                (Z.shiftl v2 6)) v3 in
        tl ← DecodeString enc rest;
        Some (toByte (Z.shiftr val 16) :: toByte (Z.shiftr val 8)
                :: toByte val :: tl)
  | _ => None
  end.

(** ** The message model (email.go) *)

Record Attachment : Type := {
  Filename : string;
  Content : list byte;
  MimeType : string
}.

Record Message : Type := {
  From : string;
  To : list string;
  Cc : list string;
  Bcc : list string;
  Subject : string;
  Body : string;
  HTML : bool;
  Attachments : list Attachment
}.

Record OutlookConfig : Type := {
  TenantID : string;
  ClientID : string;
  ClientSecret : string
}.

Record GmailConfig : Type := {
  CredentialsJSON : list byte;
  TokenJSON : list byte
}.

(** The field [Provider] of the Go struct is [ProviderName] here, the name
    [Provider] being kept for the interface. The pointers [Outlook] and
    [Gmail] are options, [None] being [nil]. The field [Custom] is never
    read by the package and is left out. *)
Record Config : Type := {
  ProviderName : string;
  Outlook : option OutlookConfig;
  Gmail : option GmailConfig
}.

(** [Message.Validate] *)
Definition Validate (m : Message) : error :=
  if String.eqb (From m) "" then Some (Errorf "from address is required")
  else if Nat.eqb (length (To m)) 0
  then Some (Errorf "at least one recipient is required")
  else if String.eqb (Subject m) "" then Some (Errorf "subject is required")
  else if String.eqb (Body m) "" then Some (Errorf "body is required")
  else None.

(** ** Content types (outlook.go) *)

(** The [switch] of [getContentType]: each entry lists the values of one
    [case] and what it returns. *)
Definition contentTypeCases : list (list string * string) :=
  [ ([".pdf"], "application/pdf");
    ([".doc"], "application/msword");
    ([".docx"],
     "application/vnd.openxmlformats-officedocument.wordprocessingml.document");
    ([".xls"], "application/vnd.ms-excel");
    ([".xlsx"],
     "application/vnd.openxmlformats-officedocument.spreadsheetml.sheet");
    ([".png"], "image/png");
    ([".jpg"; ".jpeg"], "image/jpeg");
    ([".gif"], "image/gif");
    ([".txt"], "text/plain");
    ([".html"; ".htm"], "text/html");
    ([".zip"], "application/zip");
    ([".csv"], "text/csv");
    ([".xml"], "application/xml");
    ([".json"], "application/json") ].

(** A Go [switch] on a string: the first case holding the value wins. *)
Fixpoint switch (tag : string) (cases : list (list string * string))
  (default : string) : string :=
  match cases with
  | [] => default
  | (vals, result) :: more =>
      if existsb (String.eqb tag) vals then result
      else switch tag more default
  end.

Definition getContentType `{UnicodeTables} (filename : string) : string :=
  let ext := ToLower (Ext filename) in
  switch ext contentTypeCases "application/octet-stream".

(** ** The runtime and the outside world *)

(** [context.Context], as far as the package uses it: an optional deadline in
    Unix nanoseconds. *)
Record Context : Type := { Deadline : option Z }.

Definition Background : Context := {| Deadline := None |}.

(** [time.Second], a [time.Duration] counts nanoseconds. *)
Definition Second : Z := 1000000000.

(** [context.WithDeadline]: a parent that already ends earlier is kept. *)
Definition WithDeadline (parent : Context) (d : Z) : Context :=
  match Deadline parent with
  | Some cur => if cur <? d then parent else {| Deadline := Some d |}
  | None => {| Deadline := Some d |}
  end.

(** What the program asks of its environment, in the order it asks. *)
Inductive Call : Type :=
| CallNewOutlookProvider (cfg : OutlookConfig)
| CallNewGmailProvider (cfg : GmailConfig)
| CallProviderSend (ctx : Context) (msg : Message)
| CallCancel (ctx : Context).

(** The world a call runs in: the reading of the clock, the choices the
    runtime will make for the coming [range] loops over maps, the calls made
    so far, and the state of everything remote (mail services, token
    endpoints). *)
Record World {Remote : Type} : Type := {
  clock : Z;
  rangeSeeds : list (list nat);
  calls : list Call;
  remote : Remote
}.
Arguments World : clear implicits.

Definition M (Remote : Type) (A : Type) : Type :=
  World Remote -> A * World Remote.

#[global] Instance M_ret {Remote} : MRet (M Remote) := fun A a w => (a, w).

#[global] Instance M_bind {Remote} : MBind (M Remote) :=
  fun A B f m w => let (a, w') := m w in f a w'.

(** Ghost instrumentation: remember that a call was made. *)
Definition record {Remote} (c : Call) : M Remote unit :=
  fun w => (tt, {| clock := clock w; rangeSeeds := rangeSeeds w;
                   calls := calls w ++ [c]; remote := remote w |}).

(** [time.Now().UnixNano()] *)
Definition UnixNano {Remote} : M Remote Z := fun w => (clock w, w).

(** A permutation of [l] coded by [seed]: each element is inserted at the
    position its seed entry names. Every order can be reached. *)
Fixpoint shuffle {A} (seed : list nat) (l : list A) : list A :=
  match l with
  | [] => []
  | x :: l' =>
      let r := shuffle (tail seed) l' in
      let i := (hd O seed mod S (length r))%nat in
      take i r ++ x :: drop i r
  end.

(** [for k, v := range m]: the entries of [m], in the order the runtime
    picks for this loop. *)
Definition rangeMap {Remote} (m : gmap string string)
  : M Remote (list (string * string)) :=
  fun w => (shuffle (hd [] (rangeSeeds w)) (map_to_list m),
            {| clock := clock w; rangeSeeds := tail (rangeSeeds w);
               calls := calls w; remote := remote w |}).

(** [context.WithTimeout(parent, timeout)]; the cancel function it returns
    is [cancel] applied to the new context. *)
Definition WithTimeout {Remote} (parent : Context) (timeout : Z)
  : M Remote Context :=
  now ← UnixNano; mret (WithDeadline parent (now + timeout)).

Definition cancel {Remote} (ctx : Context) : M Remote unit :=
  record (CallCancel ctx).

(** ** Providers and the client (email.go) *)

(** The interface [Provider]. *)
Record Provider {Remote : Type} : Type := {
  Send : Context -> Message -> M Remote error
}.
Arguments Provider : clear implicits.

Record Client {Remote : Type} : Type := { provider : Provider Remote }.
Arguments Client : clear implicits.

(** The two constructors are glue around the vendor SDKs (Azure identity,
    Microsoft Graph, Google OAuth2 and Gmail); they are parameters, each
    giving a provider or an error. *)
Class Constructors (Remote : Type) : Type := {
  newOutlookProvider : OutlookConfig -> M Remote (Provider Remote + Err);
  newGmailProvider : GmailConfig -> M Remote (Provider Remote + Err)
}.

(** The end of [NewClient], after the [switch]. *)
Definition NewClient_finish {Remote} (r : Provider Remote + Err)
  : Client Remote + Err :=
  match r with
  | inr err => inr (Errorf_w "failed to create provider: " err)
  | inl p => inl {| provider := p |}
  end.

Definition NewClient {Remote} `{Constructors Remote} (config : Config)
  : M Remote (Client Remote + Err) :=
  if String.eqb (ProviderName config) "outlook365" then
    match Outlook config with
    | None => mret (inr (Errorf "outlook configuration is required"))
    | Some cfg =>
        _ ← record (CallNewOutlookProvider cfg);
        r ← newOutlookProvider cfg;
        mret (NewClient_finish r)
    end
  else if String.eqb (ProviderName config) "gmail" then
    match Gmail config with
    | None => mret (inr (Errorf "gmail configuration is required"))
    | Some cfg =>
        _ ← record (CallNewGmailProvider cfg);
        r ← newGmailProvider cfg;
        mret (NewClient_finish r)
    end
  else mret (inr (Errorf_s "unsupported provider: " (ProviderName config))).

(** [Client.SendWithContext] *)
Definition SendWithContext {Remote} (c : Client Remote) (ctx : Context)
  (msg : Message) : M Remote error :=
  match Validate msg with
  | Some err => mret (Some (Errorf_w "invalid message: " err))
  | None =>
      _ ← record (CallProviderSend ctx msg);
      Send (provider c) ctx msg
  end.

(** [Client.Send]; the deferred [cancel()] runs after the result is known. *)
Definition Client_Send {Remote} (c : Client Remote) (msg : Message)
  : M Remote error :=
  ctx ← WithTimeout Background (30 * Second);
  r ← SendWithContext c ctx msg;
  _ ← cancel ctx;
  mret r.

(** ** The Gmail provider (gmail.go) *)

(** [gmail.Message], of which only [Raw] is set. *)
Record gmail_Message : Type := { Raw : string }.

(** [*gmail.Service], of which the package uses one call chain:
    [Users.Messages.Send(userId, message).Context(ctx).Do()]. *)
Record gmail_Service {Remote : Type} : Type := {
  Users_Messages_Send_Do :
    string -> gmail_Message -> Context -> M Remote error
}.
Arguments gmail_Service : clear implicits.

Record gmailProvider {Remote : Type} : Type := {
  service : gmail_Service Remote;
  config : GmailConfig
}.
Arguments gmailProvider : clear implicits.

(** The double-quote character of the format strings. *)
Definition quote : string := String "034" "".

(** [fmt.Sprintf("%s: %s\r\n", k, v)] *)
Definition headerLine (k v : string) : string := k +:+ ": " +:+ v +:+ CRLF.

(** The body of [for k, v := range headers { message.WriteString(...) }],
    run over the entries in the order [visit]. *)
Definition writeHeaders (message : Builder) (visit : list (string * string))
  : Builder :=
  foldl (fun b kv => WriteString b (headerLine kv.1 kv.2)) message visit.

(** The loop of [addAttachment] that writes the encoded content in lines of
    76 characters:
    [for i := 0; i < len(encoded); i += 76 { ... }]. *)
Equations? writeEncoded (encoded : string) (i : nat) (message : Builder)
  : Builder by wf (String.length encoded - i)%nat lt :=
writeEncoded encoded i message with decide (i < String.length encoded)%nat := {
  | left _ =>
      let end_ := if decide (String.length encoded < i + 76)%nat
                  then String.length encoded else (i + 76)%nat in
      let message :=
        WriteString message (String.substring i (end_ - i) encoded) in
      let message := WriteString message CRLF in
      writeEncoded encoded (i + 76) message;
  | right _ => message }.
Proof. lia. Qed.

(** [gmailProvider.addAttachment]; the builder is passed and returned. *)
Definition addAttachment {Remote} `{UnicodeTables} (g : gmailProvider Remote)
  (message : Builder) (att : Attachment) (boundary : string) : Builder :=
  let mimeType := MimeType att in
  let mimeType :=
    if String.eqb mimeType "" then getContentType (Filename att)
    else mimeType in
  let message := WriteString message ("--" +:+ boundary +:+ CRLF) in
  let message :=
    WriteString message
      ("Content-Type: " +:+ mimeType +:+ "; name=" +:+ quote +:+
       Filename att +:+ quote +:+ CRLF) in
  let message :=
    WriteString message ("Content-Transfer-Encoding: base64" +:+ CRLF) in
  let message :=
    WriteString message
      ("Content-Disposition: attachment; filename=" +:+ quote +:+
       Filename att +:+ quote +:+ CRLF) in
  let message := WriteString message CRLF in
  let encoded := EncodeToString StdEncoding (Content att) in
  let message := writeEncoded encoded 0 message in
  WriteString message CRLF.

(** The headers set before the [if] of [createMessage]. *)
Definition commonHeaders (msg : Message) : gmap string string :=
  let headers : gmap string string := ∅ in
  let headers := <["From" := From msg]> headers in
  let headers := <["To" := Join (To msg) ", "]> headers in
  let headers :=
    if (0 <? length (Cc msg))%nat
    then <["Cc" := Join (Cc msg) ", "]> headers else headers in
  let headers :=
    if (0 <? length (Bcc msg))%nat
    then <["Bcc" := Join (Bcc msg) ", "]> headers else headers in
  let headers := <["Subject" := Subject msg]> headers in
  <["MIME-Version" := "1.0"]> headers.

Definition bodyContentType (msg : Message) : string :=
  if HTML msg then "text/html; charset=utf-8"
  else "text/plain; charset=utf-8".

(** The branch of [createMessage] for a message with attachments, from the
    boundary on. *)
Definition multipartText {Remote} `{UnicodeTables} (g : gmailProvider Remote)
  (msg : Message) (message : Builder) : M Remote Builder :=
  now ← UnixNano;
  let boundary := "boundary-" +:+ Sprintf_d now in
  let headers :=
    <["Content-Type" := "multipart/mixed; boundary=" +:+ boundary]>
      (commonHeaders msg) in
  visit ← rangeMap headers;
  let message := writeHeaders message visit in
  let message := WriteString message CRLF in
  let message := WriteString message ("--" +:+ boundary +:+ CRLF) in
  let message :=
    WriteString message ("Content-Type: " +:+ bodyContentType msg +:+ CRLF) in
  let message := WriteString message CRLF in
  let message := WriteString message (Body msg) in
  let message := WriteString message (CRLF +:+ CRLF) in
  let message :=
    foldl (fun b att => addAttachment g b att boundary) message
      (Attachments msg) in
  mret (WriteString message ("--" +:+ boundary +:+ "--" +:+ CRLF)).

(** The branch of [createMessage] for a message without attachments. *)
Definition simpleText {Remote} (msg : Message) (message : Builder)
  : M Remote Builder :=
  let headers :=
    <["Content-Type" := bodyContentType msg]> (commonHeaders msg) in
  visit ← rangeMap headers;
  let message := writeHeaders message visit in
  let message := WriteString message CRLF in
  mret (WriteString message (Body msg)).

(** [message.String()] at the end of [createMessage]: the RFC 2822 text,
    before it is framed for the Gmail API. *)
Definition messageString {Remote} `{UnicodeTables} (g : gmailProvider Remote)
  (msg : Message) : M Remote string :=
  let message : Builder := "" in
  if (0 <? length (Attachments msg))%nat then multipartText g msg message
  else simpleText msg message.

(** [gmailProvider.createMessage] *)
Definition createMessage {Remote} `{UnicodeTables} (g : gmailProvider Remote)
  (msg : Message) : M Remote (gmail_Message * error) :=
  text ← messageString g msg;
  let raw := EncodeToString URLEncoding (list_byte_of_string text) in
  mret ({| Raw := raw |}, None).

(** [gmailProvider.Send] *)
Definition gmailProvider_Send {Remote} `{UnicodeTables}
  (g : gmailProvider Remote) (ctx : Context) (msg : Message)
  : M Remote error :=
  '(gmailMsg, err) ← createMessage g msg;
  match err with
  | Some e => mret (Some (Errorf_w "unable to create message: " e))
  | None =>
      err ← Users_Messages_Send_Do (service g) "me" gmailMsg ctx;
      match err with
      | Some e => mret (Some (Errorf_w "unable to send message: " e))
      | None => mret None
      end
  end.

(** A [*gmailProvider] used as a [Provider]. *)
Definition gmailProvider_Provider {Remote} `{UnicodeTables}
  (g : gmailProvider Remote) : Provider Remote :=
  {| Send := gmailProvider_Send g |}.

(** ** The shape of the output, in the words of the specification *)

(** Texts written one after the other. *)
Definition strcat (parts : list string) : string :=
  foldr String.append "" parts.

(** A header block: one line [key: value] per entry, each ended by CRLF. *)
Definition headerBlock (hs : list (string * string)) : string :=
  strcat ((fun kv => headerLine kv.1 kv.2) <$> hs).

(** Lines of text, each ended by CRLF. *)
Definition joinLines (lines : list string) : string :=
  strcat ((fun l => l +:+ CRLF) <$> lines).

(** The body part of a multipart message: an opening boundary line, the
    content type of the body, a blank line, the body, a blank line. *)
Definition bodyPart (boundary : string) (msg : Message) : string :=
  "--" +:+ boundary +:+ CRLF +:+
  "Content-Type: " +:+ bodyContentType msg +:+ CRLF +:+
  CRLF +:+ Body msg +:+ CRLF +:+ CRLF.

(** An attachment part: an opening boundary line, the three headers, a blank
    line, the content lines, a trailing blank line. *)
Definition attachmentPart (boundary mimeType filename : string)
  (lines : list string) : string :=
  "--" +:+ boundary +:+ CRLF +:+
  "Content-Type: " +:+ mimeType +:+ "; name=" +:+ quote +:+ filename +:+
    quote +:+ CRLF +:+
  "Content-Transfer-Encoding: base64" +:+ CRLF +:+
  "Content-Disposition: attachment; filename=" +:+ quote +:+ filename +:+
    quote +:+ CRLF +:+
  CRLF +:+ joinLines lines +:+ CRLF.

(** The closing boundary line. *)
Definition closingBoundary (boundary : string) : string :=
  "--" +:+ boundary +:+ "--" +:+ CRLF.

(** The content type an attachment is sent with. *)
Definition resolvedMimeType `{UnicodeTables} (att : Attachment) : string :=
  if String.eqb (MimeType att) "" then getContentType (Filename att)
  else MimeType att.

(** A character that does not end a line. *)
Definition lineChar (c : ascii) : Prop :=
  c <> "013"%char /\ c <> "010"%char.

(** A content line of an attachment part: not empty, at most 76 characters,
    none of them a carriage return or a line feed. *)
Definition contentLine (l : string) : Prop :=
  (0 < String.length l <= 76)%nat /\
  Forall lineChar (list_ascii_of_string l).

(** The header map of a message without attachments, and of one with. *)
Definition simpleHeaders (msg : Message) : gmap string string :=
  <["Content-Type" := bodyContentType msg]> (commonHeaders msg).

Definition multipartHeaders (boundary : string) (msg : Message)
  : gmap string string :=
  <["Content-Type" := "multipart/mixed; boundary=" +:+ boundary]>
    (commonHeaders msg).

(** The header map a message is sent with, in the world [w]. *)
Definition headersOf {Remote} (msg : Message) (w : World Remote)
  : gmap string string :=
  match Attachments msg with
  | [] => simpleHeaders msg
  | _ :: _ => multipartHeaders ("boundary-" +:+ Sprintf_d (clock w)) msg
  end.


(** The entries of a header block whose key is [k]. *)
Definition headersNamed (k : string) (hs : list (string * string))
  : list (string * string) :=
  filter (fun kv => kv.1 = k) hs.

(** The errors of [NewClient] that blame the configuration itself. *)
Definition ConfigurationError (config : Config) (e : Err) : Prop :=
  e = Errorf "outlook configuration is required" \/
  e = Errorf "gmail configuration is required" \/
  e = Errorf_s "unsupported provider: " (ProviderName config).

(** The specification's [send]: the deadline variant, called with a deadline
    30 seconds after the present. *)
Definition sendWithDefaultDeadline {Remote} (c : Client Remote)
  (msg : Message) : M Remote error :=
  fun w =>
    SendWithContext c {| Deadline := Some (clock w + 30000000000) |} msg w.

(** An alphabet is well formed when each of its 64 characters decodes to
    its own index and none of them is the padding character. *)
Definition alphabet_ok (enc : Encoding) : bool :=
  forallb
    (fun n =>
       bool_decide
         (decodeMap enc (encodeAt enc (Z.of_nat n)) = Some (Z.of_nat n))
       && negb (isPad enc (encodeAt enc (Z.of_nat n))))
    (seq 0 64).

(** The characters of a string, as a list. *)
Abbreviation chars := list_ascii_of_string.

(** ** Sample values *)

Definition asciiTables : UnicodeTables := {| MapToLower := fun s => s |}.

Definition sampleWorld (now : Z) (seed : list nat) : World unit :=
  {| clock := now; rangeSeeds := [seed]; calls := []; remote := tt |}.

Definition sampleService : gmail_Service unit :=
  {| Users_Messages_Send_Do := fun _ _ _ => mret None |}.

Definition sampleGmail : gmailProvider unit :=
  {| service := sampleService;
     config := {| CredentialsJSON := []; TokenJSON := [] |} |}.

Definition sampleProvider : Provider unit :=
  @gmailProvider_Provider unit asciiTables sampleGmail.

Definition sampleClient : Client unit := {| provider := sampleProvider |}.

Definition sampleConstructors : Constructors unit :=
  {| newOutlookProvider := fun _ => mret (inl sampleProvider);
     newGmailProvider := fun _ => mret (inl sampleProvider) |}.

Definition plainMessage : Message :=
  {| From := "a@x.com"; To := ["b@y.com"]; Cc := []; Bcc := [];
     Subject := "Hi"; Body := "Hello"; HTML := false; Attachments := [] |}.

Definition reportAttachment : Attachment :=
  {| Filename := "report.pdf";
     Content :=
       list_byte_of_string
         "%PDF-1.4 sample content, long enough to fill more than one line";
     MimeType := "" |}.

Definition noSubjectMessage : Message :=
  {| From := "a@x.com"; To := ["b@y.com"]; Cc := []; Bcc := [];
     Subject := ""; Body := "Hello"; HTML := false; Attachments := [] |}.

Definition reportMessage : Message :=
  {| From := "a@x.com"; To := ["b@y.com"]; Cc := ["c@z.com"]; Bcc := [];
     Subject := "Report"; Body := "See attachment"; HTML := true;
     Attachments := [reportAttachment] |}.

(** * The rest of the package *)

(** ** The one-shot sender (email.go) *)

(** The dynamic value of the parameter [creds interface{}] of [QuickSend]:
    a [*OutlookConfig] or a [*GmailConfig], each possibly a nil pointer, or
    a value of any other type (the nil interface included). *)
Inductive Credentials : Type :=
| OutlookCredentials (p : option OutlookConfig)
| GmailCredentials (p : option GmailConfig)
| OtherCredentials.

(** The [Message] literal of [QuickSend]; the fields it does not name have
    their zero value. *)
Definition QuickSend_message (from to subject body : string) : Message :=
  {| From := from; To := [to]; Cc := []; Bcc := [];
     Subject := subject; Body := body; HTML := false; Attachments := [] |}.

(** [QuickSend], from [NewClient] on. *)
Definition QuickSend_run {Remote} `{Constructors Remote} (config : Config)
  (from to subject body : string) : M Remote error :=
  r ← NewClient config;
  match r with
  | inr err => mret (Some err)
  | inl client => Client_Send client (QuickSend_message from to subject body)
  end.

Definition QuickSend {Remote} `{Constructors Remote} (provider : string)
  (creds : Credentials) (from to subject body : string) : M Remote error :=
  let config :=
    {| ProviderName := provider; Outlook := None; Gmail := None |} in
  if String.eqb provider "outlook365" then
    match creds with
    | OutlookCredentials outlook =>
        QuickSend_run
          {| ProviderName := provider; Outlook := outlook; Gmail := None |}
          from to subject body
    | _ => mret (Some (Errorf "invalid credentials for outlook365"))
    end
  else if String.eqb provider "gmail" then
    match creds with
    | GmailCredentials gmail =>
        QuickSend_run
          {| ProviderName := provider; Outlook := None; Gmail := gmail |}
          from to subject body
    | _ => mret (Some (Errorf "invalid credentials for gmail"))
    end
  else QuickSend_run config from to subject body.

(** ** Configuration from the environment (config.go) *)

(** What [os.Getenv] and [os.ReadFile] read: the variables of the process
    and the files it can open. *)
Record OS : Type := {
  environ : gmap string string;
  ReadFile : string -> list byte + Err
}.

(** [os.Getenv]: the empty string for a variable that is not set. *)
Definition Getenv (os : OS) (key : string) : string :=
  default "" (environ os !! key).

Definition outlookConfigFromEnv (os : OS) : OutlookConfig + Err :=
  let config :=
    {| TenantID := Getenv os "OUTLOOK_TENANT_ID";
       ClientID := Getenv os "OUTLOOK_CLIENT_ID";
       ClientSecret := Getenv os "OUTLOOK_CLIENT_SECRET" |} in
  if String.eqb (TenantID config) ""
  then inr (Errorf "OUTLOOK_TENANT_ID is required")
  else if String.eqb (ClientID config) ""
  then inr (Errorf "OUTLOOK_CLIENT_ID is required")
  else if String.eqb (ClientSecret config) ""
  then inr (Errorf "OUTLOOK_CLIENT_SECRET is required")
  else inl config.

Definition gmailConfigFromEnv (os : OS) : GmailConfig + Err :=
  let credsFile := Getenv os "GMAIL_CREDENTIALS_FILE" in
  if String.eqb credsFile ""
  then inr (Errorf "GMAIL_CREDENTIALS_FILE is required")
  else
    let tokenFile := Getenv os "GMAIL_TOKEN_FILE" in
    let tokenFile :=
      if String.eqb tokenFile "" then "token.json" else tokenFile in
    match ReadFile os credsFile with
    | inr err => inr (Errorf_w "failed to read credentials file: " err)
    | inl creds =>
        match ReadFile os tokenFile with
        | inr err => inr (Errorf_w "failed to read token file: " err)
        | inl token =>
            inl {| CredentialsJSON := creds; TokenJSON := token |}
        end
    end.

Definition ConfigFromEnv (os : OS) : Config + Err :=
  let provider := Getenv os "EMAIL_PROVIDER" in
  let provider :=
    if String.eqb provider "" then "outlook365" else provider in
  if String.eqb provider "outlook365" then
    match outlookConfigFromEnv os with
    | inr err => inr (Errorf_w "outlook config error: " err)
    | inl outlook =>
        inl {| ProviderName := provider; Outlook := Some outlook;
               Gmail := None |}
    end
  else if String.eqb provider "gmail" then
    match gmailConfigFromEnv os with
    | inr err => inr (Errorf_w "gmail config error: " err)
    | inl gmail =>
        inl {| ProviderName := provider; Outlook := None;
               Gmail := Some gmail |}
    end
  else inr (Errorf_s "unsupported email provider: " provider).

Definition QuickClientFromEnv {Remote} `{Constructors Remote} (os : OS)
  : M Remote (Client Remote + Err) :=
  match ConfigFromEnv os with
  | inr err => mret (inr err)
  | inl config => NewClient config
  end.

(** ** The constructor of the Gmail provider (gmail.go) *)

(** The calls into the Google libraries: [google.ConfigFromJSON] with the
    scope [gmail.GmailSendScope], [json.Unmarshal] into an [oauth2.Token],
    and [gmail.NewService] with the token source of both. *)
Class GoogleSDK (Remote : Type) : Type := {
  oauth2_Config : Type;
  oauth2_Token : Type;
  google_ConfigFromJSON : list byte -> oauth2_Config + Err;
  json_Unmarshal_Token : list byte -> oauth2_Token + Err;
  gmail_NewService :
    oauth2_Config -> oauth2_Token -> M Remote (gmail_Service Remote + Err)
}.

(** ** The Outlook provider (outlook.go) *)

(** Variables whose address is taken live in a heap of string cells; a
    [*string] is the index of a cell. *)
Abbreviation Heap := (list string).

Definition new (v : string) (h : Heap) : nat * Heap := (length h, h ++ [v]).

Definition assign (p : nat) (v : string) (h : Heap) : Heap := <[p := v]> h.

Definition deref (h : Heap) (p : nat) : string := default "" (h !! p).

(** The variable of a [range] clause: one for the whole loop in Go before
    1.22, a new one in each iteration from Go 1.22 on. *)
Inductive LoopVars : Type := PerLoop | PerIteration.

(** The objects of the Graph SDK the package builds. A setter of the SDK
    keeps the pointer it is given. *)
Record models_EmailAddress : Type := { address : option nat }.

Record models_Recipient : Type := {
  emailAddress : option models_EmailAddress
}.

Inductive models_BodyType : Type := TEXT_BODYTYPE | HTML_BODYTYPE.

Record models_ItemBody : Type := {
  body_contentType : option models_BodyType;
  body_content : option nat
}.

Record models_FileAttachment : Type := {
  att_name : option nat;
  att_contentBytes : list byte;
  att_contentType : option nat
}.

(** A nil entry of a slice of recipients is [None]. *)
Record models_Message : Type := {
  msg_subject : option nat;
  msg_body : option models_ItemBody;
  msg_toRecipients : option (list (option models_Recipient));
  msg_ccRecipients : option (list (option models_Recipient));
  msg_bccRecipients : option (list (option models_Recipient));
  msg_attachments : option (list models_FileAttachment)
}.

(** [models.NewMessage()] *)
Definition NewMessage : models_Message :=
  {| msg_subject := None; msg_body := None; msg_toRecipients := None;
     msg_ccRecipients := None; msg_bccRecipients := None;
     msg_attachments := None |}.

Definition SetSubject (v : nat) (m : models_Message) : models_Message :=
  {| msg_subject := Some v; msg_body := msg_body m;
     msg_toRecipients := msg_toRecipients m;
     msg_ccRecipients := msg_ccRecipients m;
     msg_bccRecipients := msg_bccRecipients m;
     msg_attachments := msg_attachments m |}.

Definition SetBody (v : models_ItemBody) (m : models_Message)
  : models_Message :=
  {| msg_subject := msg_subject m; msg_body := Some v;
     msg_toRecipients := msg_toRecipients m;
     msg_ccRecipients := msg_ccRecipients m;
     msg_bccRecipients := msg_bccRecipients m;
     msg_attachments := msg_attachments m |}.

Definition SetToRecipients (v : list (option models_Recipient))
  (m : models_Message) : models_Message :=
  {| msg_subject := msg_subject m; msg_body := msg_body m;
     msg_toRecipients := Some v;
     msg_ccRecipients := msg_ccRecipients m;
     msg_bccRecipients := msg_bccRecipients m;
     msg_attachments := msg_attachments m |}.

Definition SetCcRecipients (v : list (option models_Recipient))
  (m : models_Message) : models_Message :=
  {| msg_subject := msg_subject m; msg_body := msg_body m;
     msg_toRecipients := msg_toRecipients m;
     msg_ccRecipients := Some v;
     msg_bccRecipients := msg_bccRecipients m;
     msg_attachments := msg_attachments m |}.

Definition SetBccRecipients (v : list (option models_Recipient))
  (m : models_Message) : models_Message :=
  {| msg_subject := msg_subject m; msg_body := msg_body m;
     msg_toRecipients := msg_toRecipients m;
     msg_ccRecipients := msg_ccRecipients m;
     msg_bccRecipients := Some v;
     msg_attachments := msg_attachments m |}.

Definition SetAttachments (v : list models_FileAttachment)
  (m : models_Message) : models_Message :=
  {| msg_subject := msg_subject m; msg_body := msg_body m;
     msg_toRecipients := msg_toRecipients m;
     msg_ccRecipients := msg_ccRecipients m;
     msg_bccRecipients := msg_bccRecipients m;
     msg_attachments := Some v |}.

(** [users.ItemSendMailPostRequestBody] *)
Record users_SendMailPostRequestBody : Type := {
  req_message : option models_Message;
  req_saveToSentItems : option bool
}.

(** [*msgraphsdk.GraphServiceClient], of which the package uses one call
    chain: [Users().ByUserId(id).SendMail().Post(ctx, body, nil)]. The call
    reads the request through its pointers, so it is given the heap. *)
Record GraphServiceClient {Remote : Type} : Type := {
  Users_ByUserId_SendMail_Post :
    string -> Context -> users_SendMailPostRequestBody -> Heap ->
    M Remote error
}.
Arguments GraphServiceClient : clear implicits.

Record outlookProvider {Remote : Type} : Type := {
  outlook_client : GraphServiceClient Remote;
  outlook_config : OutlookConfig
}.
Arguments outlookProvider : clear implicits.

(** The calls into the Microsoft libraries:
    [azidentity.NewClientSecretCredential] and
    [msgraphsdk.NewGraphServiceClientWithCredentials]. *)
Class MicrosoftSDK (Remote : Type) : Type := {
  azidentity_Credential : Type;
  azidentity_NewClientSecretCredential :
    string -> string -> string -> azidentity_Credential + Err;
  msgraphsdk_NewGraphServiceClientWithCredentials :
    azidentity_Credential -> list string -> GraphServiceClient Remote + Err
}.

(** The loop of [createRecipients]: [i] is the index, [addr] the cell of the
    loop variable when there is one for the whole loop. *)
Fixpoint createRecipients_loop (lv : LoopVars) (addr : nat) (i : nat)
  (addresses : list string) (recipients : list (option models_Recipient))
  (h : Heap) : list (option models_Recipient) * Heap :=
  match addresses with
  | [] => (recipients, h)
  | a :: rest =>
      let '(p, h) :=
        match lv with
        | PerLoop => (addr, assign addr a h)
        | PerIteration => new a h
        end in
      let emailAddress := {| address := Some p |} in
      let recipient := {| emailAddress := Some emailAddress |} in
      createRecipients_loop lv addr (S i) rest
        (<[i := Some recipient]> recipients) h
  end.

(** [outlookProvider.createRecipients] *)
Definition createRecipients (lv : LoopVars) (addresses : list string)
  (h : Heap) : list (option models_Recipient) * Heap :=
  let recipients := replicate (length addresses) None in
  let '(addr, h) :=
    match lv with
    | PerLoop => new "" h
    | PerIteration => (O, h)
    end in
  createRecipients_loop lv addr 0 addresses recipients h.

(** [outlookProvider.constructMessage]; the cells of [msg.Subject] and
    [msg.Body] stand for the fields of the caller's message. *)
Definition constructMessage (lv : LoopVars) (msg : Message) (h : Heap)
  : models_Message * Heap :=
  let message := NewMessage in
  let '(pSubject, h) := new (Subject msg) h in
  let message := SetSubject pSubject message in
  let contentType := if HTML msg then HTML_BODYTYPE else TEXT_BODYTYPE in
  let '(pBody, h) := new (Body msg) h in
  let body :=
    {| body_contentType := Some contentType; body_content := Some pBody |} in
  let message := SetBody body message in
  let '(to, h) := createRecipients lv (To msg) h in
  let message := SetToRecipients to message in
  let '(message, h) :=
    if (0 <? length (Cc msg))%nat then
      let '(cc, h) := createRecipients lv (Cc msg) h in
      (SetCcRecipients cc message, h)
    else (message, h) in
  if (0 <? length (Bcc msg))%nat then
    let '(bcc, h) := createRecipients lv (Bcc msg) h in
    (SetBccRecipients bcc message, h)
  else (message, h).

(** The loop of [attachFiles]; [att] is the cell of the field [Filename] of
    the loop variable when there is one for the whole loop. The variable
    [contentType] is declared in the body, so each iteration has its own. *)
Fixpoint attachFiles_loop `{UnicodeTables} (lv : LoopVars) (att : nat)
  (attachments : list Attachment) (msgAttachments : list models_FileAttachment)
  (h : Heap) : list models_FileAttachment * Heap :=
  match attachments with
  | [] => (msgAttachments, h)
  | a :: rest =>
      let '(pName, h) :=
        match lv with
        | PerLoop => (att, assign att (Filename a) h)
        | PerIteration => new (Filename a) h
        end in
      let contentType := MimeType a in
      let contentType :=
        if String.eqb contentType "" then getContentType (Filename a)
        else contentType in
      let '(pType, h) := new contentType h in
      let attachment :=
        {| att_name := Some pName; att_contentBytes := Content a;
           att_contentType := Some pType |} in
      attachFiles_loop lv att rest (msgAttachments ++ [attachment]) h
  end.

(** [outlookProvider.attachFiles] *)
Definition attachFiles `{UnicodeTables} (lv : LoopVars)
  (message : models_Message) (attachments : list Attachment) (h : Heap)
  : models_Message * error * Heap :=
  if Nat.eqb (length attachments) 0 then (message, None, h)
  else
    let msgAttachments := [] in
    let '(att, h) :=
      match lv with
      | PerLoop => new "" h
      | PerIteration => (O, h)
      end in
    let '(msgAttachments, h) :=
      attachFiles_loop lv att attachments msgAttachments h in
    (SetAttachments msgAttachments message, None, h).

(** [outlookProvider.Send]; the heap of the call starts empty. *)
Definition outlookProvider_Send {Remote} `{UnicodeTables} (lv : LoopVars)
  (o : outlookProvider Remote) (ctx : Context) (msg : Message)
  : M Remote error :=
  let '(message, h) := constructMessage lv msg [] in
  let '(message, err, h) := attachFiles lv message (Attachments msg) h in
  match err with
  | Some e => mret (Some (Errorf_w "failed to attach files: " e))
  | None =>
      let requestBody :=
        {| req_message := Some message; req_saveToSentItems := Some true |} in
      err ← Users_ByUserId_SendMail_Post (outlook_client o) (From msg) ctx
              requestBody h;
      match err with
      | Some e => mret (Some (Errorf_w "failed to send email: " e))
      | None => mret None
      end
  end.

Definition outlookProvider_Provider {Remote} `{UnicodeTables}
  (lv : LoopVars) (o : outlookProvider Remote) : Provider Remote :=
  {| Send := outlookProvider_Send lv o |}.

(** The constructors of the two providers, over the vendor libraries. *)
Module Vendor.

(** [newGmailProvider] *)
Definition newGmailProvider {Remote} `{UnicodeTables} `{GoogleSDK Remote}
  (config : GmailConfig) : M Remote (Provider Remote + Err) :=
  match google_ConfigFromJSON (CredentialsJSON config) with
  | inr err => mret (inr (Errorf_w "unable to parse credentials: " err))
  | inl oauthConfig =>
      if (0 <? length (TokenJSON config))%nat then
        match json_Unmarshal_Token (TokenJSON config) with
        | inr err => mret (inr (Errorf_w "invalid token: " err))
        | inl token =>
            r ← gmail_NewService oauthConfig token;
            match r with
            | inr err =>
                mret (inr (Errorf_w "unable to create Gmail service: " err))
            | inl service =>
                mret (inl (gmailProvider_Provider
                             {| service := service; config := config |}))
            end
        end
      else
        mret (inr (Errorf
          ("gmail requires initial OAuth authentication" +:+
           " - please use the authentication helper")))
  end.

(** [newOutlookProvider] *)
Definition newOutlookProvider {Remote} `{UnicodeTables}
  `{MicrosoftSDK Remote} (lv : LoopVars) (config : OutlookConfig)
  : M Remote (Provider Remote + Err) :=
  match azidentity_NewClientSecretCredential (TenantID config)
          (ClientID config) (ClientSecret config) with
  | inr err => mret (inr (Errorf_w "authentication error: " err))
  | inl cred =>
      match msgraphsdk_NewGraphServiceClientWithCredentials cred
              ["https://graph.microsoft.com/.default"] with
      | inr err => mret (inr (Errorf_w "error creating Graph client: " err))
      | inl client =>
          mret (inl (outlookProvider_Provider lv
                       {| outlook_client := client;
                          outlook_config := config |}))
      end
  end.

End Vendor.

(** The package as built: [NewClient] over the two constructors above. *)
Definition packageConstructors {Remote} `{UnicodeTables}
  `{GoogleSDK Remote} `{MicrosoftSDK Remote} (lv : LoopVars)
  : Constructors Remote :=
  {| newOutlookProvider := Vendor.newOutlookProvider lv;
     newGmailProvider := Vendor.newGmailProvider |}.

(** ** Notions the properties are stated with *)

(** The configuration [QuickSend] hands to [NewClient], when the credentials
    pass its type check. *)
Definition QuickSend_config (provider : string) (creds : Credentials)
  : option Config :=
  if String.eqb provider "outlook365" then
    match creds with
    | OutlookCredentials p =>
        Some {| ProviderName := provider; Outlook := p; Gmail := None |}
    | _ => None
    end
  else if String.eqb provider "gmail" then
    match creds with
    | GmailCredentials p =>
        Some {| ProviderName := provider; Outlook := None; Gmail := p |}
    | _ => None
    end
  else Some {| ProviderName := provider; Outlook := None; Gmail := None |}.

(** A character of base64url text: of the URL alphabet, or the padding. *)
Definition urlSafeChar (c : ascii) : Prop :=
  c ∈ chars encodeURL \/ c = StdPadding.

(** The lines the loop writes: their number, and that only the last can be
    shorter than 76 characters. *)
Definition fullLines (lines : list string) : Prop :=
  forall (k : nat) (l : string),
    lines !! k = Some l -> (S k < length lines)%nat -> String.length l = 76%nat.

(** The string a pointer leads to. *)
Definition readString (h : Heap) (p : option nat) : option string :=
  match p with
  | Some l => h !! l
  | None => None
  end.

(** The address a recipient is sent as. *)
Definition readRecipient (h : Heap) (r : option models_Recipient)
  : option string :=
  match r with
  | Some {| emailAddress := Some e |} => readString h (address e)
  | _ => None
  end.

Definition readRecipients (h : Heap)
  (rs : option (list (option models_Recipient)))
  : option (list (option string)) :=
  (fun l : list (option models_Recipient) => readRecipient h <$> l) <$> rs.

(** What the recipients built from [addresses] read as: with one loop
    variable each of them reads the last address, with a variable per
    iteration each reads its own. *)
Definition recipientsRead (lv : LoopVars) (addresses : list string)
  : list (option string) :=
  match lv with
  | PerLoop => replicate (length addresses) (last addresses)
  | PerIteration => Some <$> addresses
  end.

(** A recipient whose address is the cell [p]. *)
Definition recipientAt (p : nat) : option models_Recipient :=
  Some {| emailAddress := Some {| address := Some p |} |}.

(** What a file attachment is sent as: its name, its bytes, its type. *)
Definition readAttachment (h : Heap) (a : models_FileAttachment)
  : option string * list byte * option string :=
  (readString h (att_name a), att_contentBytes a,
   readString h (att_contentType a)).

(** A file attachment whose name and type are the cells [pName], [pType]. *)
Definition attachmentAt (pName pType : nat) (a : Attachment)
  : models_FileAttachment :=
  {| att_name := Some pName; att_contentBytes := Content a;
     att_contentType := Some pType |}.

(** The cells one iteration of the loop of [attachFiles] allocates when each
    iteration has its own loop variable. *)
Definition attachmentCells `{UnicodeTables} (atts : list Attachment)
  : list string :=
  concat ((fun a => [Filename a; resolvedMimeType a]) <$> atts).

(** What the file attachments built from [atts] read as: with one loop
    variable every name reads as the last file name. *)
Definition attachmentsRead `{UnicodeTables} (lv : LoopVars)
  (atts : list Attachment)
  : list (option string * list byte * option string) :=
  (fun a =>
     (match lv with
      | PerLoop => Filename <$> last atts
      | PerIteration => Some (Filename a)
      end, Content a, Some (resolvedMimeType a))) <$> atts.

Definition readAttachments (h : Heap)
  (fas : option (list models_FileAttachment))
  : option (list (option string * list byte * option string)) :=
  (fun l : list models_FileAttachment => readAttachment h <$> l) <$> fas.

(** What a Graph message is sent as, read through its pointers. *)
Record GraphWire : Type := {
  wire_subject : option string;
  wire_bodyType : option models_BodyType;
  wire_body : option string;
  wire_to : option (list (option string));
  wire_cc : option (list (option string));
  wire_bcc : option (list (option string));
  wire_attachments :
    option (list (option string * list byte * option string))
}.

Definition readMessage (h : Heap) (m : models_Message) : GraphWire :=
  {| wire_subject := readString h (msg_subject m);
     wire_bodyType :=
       match msg_body m with
       | Some b => body_contentType b
       | None => None
       end;
     wire_body :=
       match msg_body m with
       | Some b => readString h (body_content b)
       | None => None
       end;
     wire_to := readRecipients h (msg_toRecipients m);
     wire_cc := readRecipients h (msg_ccRecipients m);
     wire_bcc := readRecipients h (msg_bccRecipients m);
     wire_attachments := readAttachments h (msg_attachments m) |}.

(** The list, or nothing when it is empty. *)
Definition whenNotEmpty {A B} (l : list A) (v : B) : option B :=
  match l with
  | [] => None
  | _ :: _ => Some v
  end.

(** What the package means to send to the Graph API for [msg], up to the
    sharing of loop variables: cc, bcc and attachments are left out when
    empty, the list of recipients never is. *)
Definition outlookWire `{UnicodeTables} (lv : LoopVars) (msg : Message)
  : GraphWire :=
  {| wire_subject := Some (Subject msg);
     wire_bodyType :=
       Some (if HTML msg then HTML_BODYTYPE else TEXT_BODYTYPE);
     wire_body := Some (Body msg);
     wire_to := Some (recipientsRead lv (To msg));
     wire_cc := whenNotEmpty (Cc msg) (recipientsRead lv (Cc msg));
     wire_bcc := whenNotEmpty (Bcc msg) (recipientsRead lv (Bcc msg));
     wire_attachments :=
       whenNotEmpty (Attachments msg)
         (attachmentsRead lv (Attachments msg)) |}.

(** [Post] as [Send] calls it, with the translation of its error. *)
Definition sendMail {Remote} (o : outlookProvider Remote) (ctx : Context)
  (userId : string) (message : models_Message) (h : Heap)
  : M Remote error :=
  fun w =>
    let r :=
      Users_ByUserId_SendMail_Post (outlook_client o) userId ctx
        {| req_message := Some message; req_saveToSentItems := Some true |}
        h w in
    (match r.1 with
     | Some e => Some (Errorf_w "failed to send email: " e)
     | None => None
     end, r.2).

(** A character of a number printed with [%d]. *)
Definition decimalChar (c : ascii) : bool :=
  existsb (Ascii.eqb c) (chars "-0123456789").

(** ** More sample values *)

(** An environment that selects Outlook by default; no file can be read. *)
Definition sampleOS : OS :=
  {| environ :=
       {[ "OUTLOOK_TENANT_ID" := "tenant"; "OUTLOOK_CLIENT_ID" := "client";
          "OUTLOOK_CLIENT_SECRET" := "secret" ]};
     ReadFile := fun _ => inr (errorString "no such file") |}.

Definition sampleGmailConfig : GmailConfig :=
  {| CredentialsJSON := []; TokenJSON := [] |}.

Definition sampleConfig : Config :=
  {| ProviderName := "gmail"; Outlook := None;
     Gmail := Some sampleGmailConfig |}.

Definition sampleOutlookConfig : OutlookConfig :=
  {| TenantID := "tenant"; ClientID := "client"; ClientSecret := "secret" |}.

Definition sampleEnvConfig : Config :=
  {| ProviderName := "outlook365"; Outlook := Some sampleOutlookConfig;
     Gmail := None |}.

(** ** The output as its reader sees it *)

(** What a reader of the encoded message does with the text alone: it cuts
    the text into lines at every carriage return followed by a line feed,
    takes the lines before the first empty line for the header fields and
    the rest for the body, and cuts a multipart body into parts at the
    lines made of two hyphens and the boundary named in the header. None
    of this looks at the message the text was made from. *)

Definition isCR (c : ascii) : bool := Ascii.eqb c "013".

Definition isLF (c : ascii) : bool := Ascii.eqb c "010".

(** One more character at the front of the first line. *)
Definition consFirst (c : ascii) (lines : list string) : list string :=
  match lines with
  | l :: more => String c l :: more
  | [] => [String c ""]
  end.

(** The lines of a text: what stands between its line breaks. *)
Fixpoint textLines (s : string) : list string :=
  match s with
  | EmptyString => [""]
  | String c s' =>
      match s' with
      | String d rest =>
          if isCR c && isLF d then "" :: textLines rest
          else consFirst c (textLines s')
      | EmptyString => [String c ""]
      end
  end.

(** Lines put together again, a line break between two of them. *)
Definition unlines (lines : list string) : string :=
  String.concat (String "013" (String "010" "")) lines.

(** The lines before the first empty line, and those after it. *)
Fixpoint upToBlank (lines : list string) : list string :=
  match lines with
  | [] => []
  | l :: more => if String.eqb l "" then [] else l :: upToBlank more
  end.

Fixpoint afterBlank (lines : list string) : list string :=
  match lines with
  | [] => []
  | l :: more => if String.eqb l "" then more else afterBlank more
  end.

(** The header lines of a text, and its body. *)
Definition headerLinesOf (text : string) : list string :=
  upToBlank (textLines text).

Definition bodyOf (text : string) : string :=
  unlines (afterBlank (textLines text)).

(** The header lines that start with [name]. *)
Definition linesStarting (name : string) (lines : list string)
  : list string :=
  List.filter (String.prefix name) lines.

(** The boundary a multipart text names in its header. *)
Definition multipartMark : string :=
  "Content-Type: multipart/mixed; boundary=".

Definition boundaryOf (text : string) : string :=
  match linesStarting multipartMark (headerLinesOf text) with
  | l :: _ =>
      String.substring (String.length multipartMark)
        (String.length l - String.length multipartMark) l
  | [] => ""
  end.

(** The lines before the line [stop]. *)
Fixpoint upToLine (stop : string) (lines : list string) : list string :=
  match lines with
  | [] => []
  | l :: more => if String.eqb l stop then [] else l :: upToLine stop more
  end.

(** The runs of lines between the lines equal to [delimiter]. *)
Fixpoint segments (delimiter : string) (lines : list string)
  : list (list string) :=
  match lines with
  | [] => [[]]
  | l :: more =>
      if String.eqb l delimiter then [] :: segments delimiter more
      else
        match segments delimiter more with
        | seg :: segs => (l :: seg) :: segs
        | [] => [[l]]
        end
  end.

(** The parts of a multipart text: the runs of lines of its body between
    the delimiter lines, up to the closing delimiter; what stands before
    the first delimiter is no part. *)
Definition mimeParts (text : string) : list (list string) :=
  let delimiter := "--" +:+ boundaryOf text in
  tail (segments delimiter
          (upToLine (delimiter +:+ "--") (afterBlank (textLines text)))).

(** The parts after the first, which is the body of the message. *)
Definition attachmentPartsOf (text : string) : list (list string) :=
  tail (mimeParts text).

(** The header lines of a part, and its content lines: the lines after its
    first empty line that are not empty. *)
Definition partHeadersOf (part : list string) : list string :=
  upToBlank part.

Definition contentLinesOf (part : list string) : list string :=
  List.filter (fun l => negb (String.eqb l "")) (afterBlank part).

(** A text without carriage return and without line feed. *)
Definition lineBreakFree (s : string) : bool :=
  forallb (fun c => negb (isCR c) && negb (isLF c)) (chars s).

(** The fields of a message that go into header lines hold no line break. *)
Definition cleanHeaders (msg : Message) : bool :=
  lineBreakFree (From msg) && forallb lineBreakFree (To msg) &&
  forallb lineBreakFree (Cc msg) && forallb lineBreakFree (Bcc msg) &&
  lineBreakFree (Subject msg).

Definition cleanAttachment (att : Attachment) : bool :=
  lineBreakFree (Filename att) && lineBreakFree (MimeType att).

(** No line of the body looks like a delimiter. *)
Definition bodyKeepsClear (msg : Message) : bool :=
  forallb (fun l => negb (String.prefix "--boundary-" l))
    (textLines (Body msg)).

(** Addresses with a comma and a space between two of them. *)
Fixpoint commaJoined (addresses : list string) : string :=
  match addresses with
  | [] => ""
  | a :: more =>
      match more with
      | [] => a
      | _ :: _ => a +:+ ", " +:+ commaJoined more
      end
  end.

(** The header lines of a message whose content type is [contentType]. *)
Definition expectedHeaderLines (msg : Message) (contentType : string)
  : list string :=
  ["From: " +:+ From msg; "To: " +:+ commaJoined (To msg)] ++
  match Cc msg with
  | [] => []
  | _ :: _ => ["Cc: " +:+ commaJoined (Cc msg)]
  end ++
  match Bcc msg with
  | [] => []
  | _ :: _ => ["Bcc: " +:+ commaJoined (Bcc msg)]
  end ++
  ["Subject: " +:+ Subject msg; "MIME-Version: 1.0";
   "Content-Type: " +:+ contentType].

(** The double quote. *)
Definition doubleQuote : string := String "034" "".

(** The header lines of the part of an attachment sent as [mimeType]. *)
Definition expectedPartHeaders (mimeType filename : string) : list string :=
  ["Content-Type: " +:+ mimeType +:+ "; name=" +:+ doubleQuote +:+
     filename +:+ doubleQuote;
   "Content-Transfer-Encoding: base64";
   "Content-Disposition: attachment; filename=" +:+ doubleQuote +:+
     filename +:+ doubleQuote].

(** The entries of the header map, in the order of their writing down in
    [createMessage], and the content type among them. *)
Definition headerFields (msg : Message) (contentType : string)
  : list (string * string) :=
  [("From", From msg); ("To", Join (To msg) ", ")] ++
  match Cc msg with
  | [] => []
  | _ :: _ => [("Cc", Join (Cc msg) ", ")]
  end ++
  match Bcc msg with
  | [] => []
  | _ :: _ => [("Bcc", Join (Bcc msg) ", ")]
  end ++
  [("Subject", Subject msg); ("MIME-Version", "1.0");
   ("Content-Type", contentType)].

Definition sentContentType {Remote} (msg : Message) (w : World Remote)
  : string :=
  match Attachments msg with
  | [] => bodyContentType msg
  | _ :: _ => "multipart/mixed; boundary=boundary-" +:+ Sprintf_d (clock w)
  end.

(** A header line without its line break. *)
Definition fieldLine (kv : string * string) : string :=
  kv.1 +:+ ": " +:+ kv.2.

(** A character of standard base64 text. *)
Definition stdChar (c : ascii) : bool :=
  existsb (Ascii.eqb c) (chars encodeStd ++ [StdPadding]).

(** A line that cannot be taken for a delimiter. *)
Definition plainLine (l : string) : bool :=
  negb (String.prefix "--boundary-" l).

(** The lines of a part between two delimiters: its header lines, an empty
    line, its content lines, an empty line. *)
Definition partRun (headers content : list string) : list string :=
  headers ++ "" :: content ++ [""].

(** The lines of the part of an attachment whose content lines are
    [content], and of the part of the body. *)
Definition attachmentRun `{UnicodeTables} (att : Attachment)
  (content : list string) : list string :=
  partRun (expectedPartHeaders (resolvedMimeType att) (Filename att)) content.

Definition bodyRun (msg : Message) : list string :=
  ["Content-Type: " +:+ bodyContentType msg; ""] ++
  textLines (Body msg) ++ [""].

(** ** Messages that are valid and still misread *)

(** A subject that carries a line break and, after it, a header field. *)
Definition injectedSubject (field : string) : string :=
  "Hi" +:+ String "013" (String "010" field).

Definition ccInjectingMessage : Message :=
  {| From := "a@x.com"; To := ["b@y.com"]; Cc := []; Bcc := [];
     Subject := injectedSubject "Cc: evil@z.com"; Body := "Hello";
     HTML := false; Attachments := [] |}.

Definition typeInjectingMessage : Message :=
  {| From := "a@x.com"; To := ["b@y.com"]; Cc := []; Bcc := [];
     Subject := injectedSubject "Content-Type: text/html; charset=utf-7";
     Body := "Hello"; HTML := false; Attachments := [] |}.

(** A file name that closes its quotes and ends the header of its part. *)
Definition crookedAttachment : Attachment :=
  {| Filename :=
       "a.txt" +:+ doubleQuote +:+
       String "013" (String "010" (String "013" (String "010" "****")));
     Content := list_byte_of_string "hello";
     MimeType := "" |}.

Definition crookedMessage : Message :=
  {| From := "a@x.com"; To := ["b@y.com"]; Cc := []; Bcc := [];
     Subject := "Report"; Body := "See attachment"; HTML := false;
     Attachments := [crookedAttachment] |}.

(** A message with two attachments that differ. *)
Definition notesAttachment : Attachment :=
  {| Filename := "notes.txt";
     Content := list_byte_of_string "second attachment";
     MimeType := "text/plain" |}.

Definition twoAttachmentsMessage : Message :=
  {| From := "a@x.com"; To := ["b@y.com"]; Cc := ["c@z.com"; "d@z.com"];
     Bcc := []; Subject := "Report"; Body := "See attachments";
     HTML := true; Attachments := [reportAttachment; notesAttachment] |}.

(** * Properties *)

(** ** Strings *)

Lemma string_app_cons (x : ascii) (a b : string) :
  String x a +:+ b = String x (a +:+ b).
Proof. reflexivity. Qed.

Lemma string_app_nil_l (a : string) : "" +:+ a = a.
Proof. reflexivity. Qed.

(** Induction on a string whose step is closed by the induction
    hypothesis once [+:+] has moved under the first character. *)
Ltac string_induction a :=
  let x := fresh "x" in
  let IH := fresh "IH" in
  induction a as [|x a IH];
  [done | rewrite ?string_app_cons; cbn; by rewrite IH].

Lemma string_app_assoc (a b c : string) : (a +:+ b) +:+ c = a +:+ (b +:+ c).
Proof. string_induction a. Qed.

Lemma string_app_nil_r (a : string) : a +:+ "" = a.
Proof. string_induction a. Qed.

Lemma string_app_length (a b : string) :
  String.length (a +:+ b) = (String.length a + String.length b)%nat.
Proof. string_induction a. Qed.

Lemma chars_app (a b : string) : chars (a +:+ b) = chars a ++ chars b.
Proof. string_induction a. Qed.

Lemma chars_length (a : string) : length (chars a) = String.length a.
Proof. string_induction a. Qed.

Lemma chars_inj (a b : string) : chars a = chars b -> a = b.
Proof.
  intros E. rewrite <- (string_of_list_ascii_of_string a),
    <- (string_of_list_ascii_of_string b). by rewrite E.
Qed.

Lemma chars_substring (i n : nat) (s : string) :
  chars (String.substring i n s) = take n (drop i (chars s)).
Proof.
  revert i n.
  induction s as [|x s IH]; intros [|i] [|n]; cbn; rewrite ?IH; done.
Qed.

Lemma writeEncoded_lines (encoded : string) (i : nat) (message : Builder) :
  exists lines : list string,
    writeEncoded encoded i message = message +:+ joinLines lines /\
    concat (chars <$> lines) = drop i (chars encoded) /\
    Forall (fun l => (0 < String.length l <= 76)%nat) lines.
Proof.
  funelim (writeEncoded encoded i message).
  - clear Heq Heqcall. destruct H as (lines & Hw & Hc & Hf).
    match type of Hw with context [String.substring i ?n encoded] =>
      assert (n = Nat.min 76 (String.length encoded - i)) as Hn
        by (destruct (decide (String.length encoded < i + 76)%nat); lia);
      rewrite Hn in *; clear Hn
    end.
    exists (String.substring i (Nat.min 76 (String.length encoded - i)) encoded
              :: lines).
    split; [|split].
    + rewrite Hw. unfold WriteString, joinLines, strcat.
      cbn [fmap list_fmap foldr].
      by rewrite !string_app_assoc.
    + cbn [fmap list_fmap concat]. rewrite Hc, chars_substring.
      rewrite <- (take_drop 76 (drop i (chars encoded))) at 2.
      rewrite drop_drop. f_equal.
      rewrite <- chars_length, <- length_drop.
      destruct (Nat.min_spec 76 (length (drop i (chars encoded))))
        as [[? ->] | [? ->]]; [done |].
      by rewrite !take_ge by lia.
    + constructor; [|done]. rewrite <- chars_length, chars_substring.
      rewrite length_take, length_drop, chars_length. lia.
  - exists []. split; [by rewrite string_app_nil_r|]. split; [|done].
    cbn. rewrite drop_ge; [done|]. rewrite chars_length. lia.
Qed.

(** ** Base64 *)

Lemma lor_add_disjoint (a b n : Z) :
  0 <= n -> a mod 2 ^ n = 0 -> 0 <= b < 2 ^ n -> Z.lor a b = a + b.
Proof.
  intros Hn Ha Hb. symmetry. apply Z.add_nocarry_lor.
  apply Z.bits_inj'. intros i Hi.
  rewrite Z.land_spec, Z.bits_0.
  destruct (Z.lt_ge_cases i n) as [Hlt | Hge].
  - assert (Z.testbit a i = false) as ->; [|done].
    rewrite <- (Z.mod_pow2_bits_low a n i) by lia. rewrite Ha. apply Z.bits_0.
  - assert (Z.testbit b i = false) as ->; [|by rewrite andb_false_r].
    destruct (Z.eq_dec b 0) as [-> | Hne]; [apply Z.bits_0 |].
    apply Z.bits_above_log2; [lia |].
    apply Z.log2_lt_pow2; [lia |].
    apply Z.lt_le_trans with (2 ^ n); [lia |].
    apply Z.pow_le_mono_r; lia.
Qed.

Lemma byteZ_range b : 0 <= byteZ b < 256.
Proof. unfold byteZ. pose proof (Byte.to_N_bounded b). lia. Qed.

Lemma toByte_byteZ b : toByte (byteZ b) = b.
Proof.
  unfold toByte. pose proof (byteZ_range b).
  change 255 with (Z.ones 8). rewrite Z.land_ones by lia.
  rewrite Z.mod_small by (change (2^8) with 256; lia).
  unfold byteZ. rewrite N2Z.id, Byte.of_to_N. done.
Qed.

Lemma toByte_mod v : toByte v = toByte (v mod 256).
Proof.
  unfold toByte. change 255 with (Z.ones 8). rewrite !Z.land_ones by lia.
  change (2^8) with 256. by rewrite Z.mod_mod by lia.
Qed.

Ltac bits_to_arith :=
  repeat first
    [ rewrite Z.shiftl_mul_pow2 by lia
    | rewrite Z.shiftr_div_pow2 by lia
    | progress change 63 with (Z.ones 6)
    | rewrite Z.land_ones by lia ];
  repeat match goal with |- context [2 ^ ?k] =>
    let v := eval compute in (2 ^ k) in change (2 ^ k) with v end.

Lemma lor_mul_pow2 (a b n : Z) :
  0 <= n -> 0 <= b < 2 ^ n -> Z.lor (a * 2 ^ n) b = a * 2 ^ n + b.
Proof.
  intros Hn Hb. apply (lor_add_disjoint _ _ n); [done | | done].
  apply Z.mod_mul. lia.
Qed.

Lemma group3_val (b0 b1 b2 : Z) :
  0 <= b0 < 256 -> 0 <= b1 < 256 -> 0 <= b2 < 256 ->
  Z.lor (Z.lor (Z.shiftl b0 16) (Z.shiftl b1 8)) b2
  = b0 * 65536 + b1 * 256 + b2.
Proof.
  intros. rewrite !Z.shiftl_mul_pow2 by lia.
  rewrite (lor_mul_pow2 b0 _ 16) by lia.
  replace (b0 * 2 ^ 16 + b1 * 2 ^ 8) with ((b0 * 2 ^ 8 + b1) * 2 ^ 8) by lia.
  rewrite lor_mul_pow2 by lia. lia.
Qed.

Lemma sextets_val (s0 s1 s2 s3 : Z) :
  0 <= s0 < 64 -> 0 <= s1 < 64 -> 0 <= s2 < 64 -> 0 <= s3 < 64 ->
  Z.lor (Z.lor (Z.lor (Z.shiftl s0 18) (Z.shiftl s1 12)) (Z.shiftl s2 6)) s3
  = s0 * 262144 + s1 * 4096 + s2 * 64 + s3.
Proof.
  intros. rewrite !Z.shiftl_mul_pow2 by lia.
  rewrite (lor_mul_pow2 s0 _ 18) by lia.
  replace (s0 * 2 ^ 18 + s1 * 2 ^ 12) with ((s0 * 2 ^ 6 + s1) * 2 ^ 12) by lia.
  rewrite (lor_mul_pow2 _ (s2 * 2 ^ 6) 12) by lia.
  replace ((s0 * 2 ^ 6 + s1) * 2 ^ 12 + s2 * 2 ^ 6)
    with ((s0 * 2 ^ 12 + s1 * 2 ^ 6 + s2) * 2 ^ 6) by lia.
  rewrite lor_mul_pow2 by lia. lia.
Qed.

Lemma sextet_range v k : 0 <= Z.land (Z.shiftr v k) 63 < 64.
Proof.
  change 63 with (Z.ones 6). rewrite Z.land_ones by lia.
  change (2 ^ 6) with 64. apply Z.mod_pos_bound. lia.
Qed.

Lemma sextet_range0 v : 0 <= Z.land v 63 < 64.
Proof.
  change 63 with (Z.ones 6). rewrite Z.land_ones by lia.
  change (2 ^ 6) with 64. apply Z.mod_pos_bound. lia.
Qed.

Lemma sextets_rebuild (v : Z) :
  0 <= v < 16777216 ->
  Z.lor (Z.lor (Z.lor (Z.shiftl (Z.land (Z.shiftr v 18) 63) 18)
                      (Z.shiftl (Z.land (Z.shiftr v 12) 63) 12))
               (Z.shiftl (Z.land (Z.shiftr v 6) 63) 6))
        (Z.land v 63) = v.
Proof.
  intros Hv.
  rewrite sextets_val by (apply sextet_range || apply sextet_range0).
  bits_to_arith. Z.div_mod_to_equations. lia.
Qed.

Lemma alphabet_ok_spec enc i :
  alphabet_ok enc = true -> 0 <= i < 64 ->
  decodeMap enc (encodeAt enc i) = Some i /\ isPad enc (encodeAt enc i) = false.
Proof.
  intros Hok Hi. unfold alphabet_ok in Hok. rewrite forallb_forall in Hok.
  specialize (Hok (Z.to_nat i)). rewrite Z2Nat.id in Hok by lia.
  assert (In (Z.to_nat i) (seq 0 64)) as Hin by (apply in_seq; lia).
  apply Hok in Hin. apply andb_prop in Hin as [H1 H2].
  apply bool_decide_eq_true in H1. apply negb_true_iff in H2. done.
Qed.

Lemma StdEncoding_ok : alphabet_ok StdEncoding = true.
Proof. vm_compute. reflexivity. Qed.

Lemma URLEncoding_ok : alphabet_ok URLEncoding = true.
Proof. vm_compute. reflexivity. Qed.

Lemma list_ind3 {A} (P : list A -> Prop) :
  P [] -> (forall a, P [a]) -> (forall a b, P [a; b]) ->
  (forall a b c l, P l -> P (a :: b :: c :: l)) ->
  forall l, P l.
Proof.
  intros H0 H1 H2 H3.
  fix IH 1.
  intros [|a [|b [|c l]]]; [exact H0 | apply H1 | apply H2 | apply H3, IH].
Qed.

Lemma decode_quantum enc c0 c1 c2 c3 rest :
  isPad enc c3 = false ->
  DecodeString enc (String c0 (String c1 (String c2 (String c3 rest)))) =
    (v0 ← decodeMap enc c0; v1 ← decodeMap enc c1;
     v2 ← decodeMap enc c2; v3 ← decodeMap enc c3;
     let val := Z.lor (Z.lor (Z.lor (Z.shiftl v0 18) (Z.shiftl v1 12))
                             (Z.shiftl v2 6)) v3 in
     tl ← DecodeString enc rest;
     Some (toByte (Z.shiftr val 16) :: toByte (Z.shiftr val 8)
             :: toByte val :: tl)).
Proof. intros Hp. cbn [DecodeString]. rewrite Hp, andb_false_r. done. Qed.

Lemma toByte_shiftr16 b0 (z1 z2 : Z) :
  0 <= z1 < 256 -> 0 <= z2 < 256 ->
  toByte (Z.shiftr (byteZ b0 * 65536 + z1 * 256 + z2) 16) = b0.
Proof.
  intros. pose proof (byteZ_range b0).
  rewrite toByte_mod.
  match goal with |- toByte ?x = _ => replace x with (byteZ b0) end;
    [apply toByte_byteZ |].
  bits_to_arith. Z.div_mod_to_equations. lia.
Qed.

Lemma toByte_shiftr8 (z0 : Z) b1 (z2 : Z) :
  0 <= z0 < 256 -> 0 <= z2 < 256 ->
  toByte (Z.shiftr (z0 * 65536 + byteZ b1 * 256 + z2) 8) = b1.
Proof.
  intros. pose proof (byteZ_range b1).
  rewrite toByte_mod.
  match goal with |- toByte ?x = _ => replace x with (byteZ b1) end;
    [apply toByte_byteZ |].
  bits_to_arith. Z.div_mod_to_equations. lia.
Qed.

Lemma toByte_low (z0 z1 : Z) b2 :
  toByte (z0 * 65536 + z1 * 256 + byteZ b2) = b2.
Proof.
  pose proof (byteZ_range b2).
  rewrite toByte_mod.
  match goal with |- toByte ?x = _ => replace x with (byteZ b2) end;
    [apply toByte_byteZ |].
  Z.div_mod_to_equations. lia.
Qed.

Lemma group2_val (b0 b1 : Z) :
  0 <= b0 < 256 -> 0 <= b1 < 256 ->
  Z.lor (Z.shiftl b0 16) (Z.shiftl b1 8) = b0 * 65536 + b1 * 256 + 0.
Proof.
  intros. rewrite <- (group3_val b0 b1 0) by lia. by rewrite Z.lor_0_r.
Qed.

Lemma group1_val (b0 : Z) :
  0 <= b0 < 256 -> Z.shiftl b0 16 = b0 * 65536 + 0 * 256 + 0.
Proof. intros. rewrite Z.shiftl_mul_pow2 by lia. lia. Qed.

Lemma sextets_rebuild3 (v : Z) :
  0 <= v < 16777216 -> v mod 64 = 0 ->
  Z.lor (Z.lor (Z.shiftl (Z.land (Z.shiftr v 18) 63) 18)
               (Z.shiftl (Z.land (Z.shiftr v 12) 63) 12))
        (Z.shiftl (Z.land (Z.shiftr v 6) 63) 6) = v.
Proof.
  intros Hv Hm. rewrite <- (sextets_rebuild v) at 4 by done.
  assert (Z.land v 63 = 0) as ->; [| by rewrite Z.lor_0_r].
  change 63 with (Z.ones 6). rewrite Z.land_ones by lia. exact Hm.
Qed.

Lemma sextets_rebuild2 (v : Z) :
  0 <= v < 16777216 -> v mod 4096 = 0 ->
  Z.lor (Z.shiftl (Z.land (Z.shiftr v 18) 63) 18)
        (Z.shiftl (Z.land (Z.shiftr v 12) 63) 12) = v.
Proof.
  intros Hv Hm. rewrite <- (sextets_rebuild3 v) at 3; [| done |].
  - assert (Z.land (Z.shiftr v 6) 63 = 0) as ->;
      [| by rewrite Z.shiftl_0_l, Z.lor_0_r].
    bits_to_arith. Z.div_mod_to_equations. lia.
  - Z.div_mod_to_equations. lia.
Qed.

Section Roundtrip.
Variable enc : Encoding.
Variable pad : ascii.
Hypothesis enc_ok : alphabet_ok enc = true.
Hypothesis enc_pad : padChar enc = Some pad.

Lemma isPad_pad : isPad enc pad = true.
Proof. unfold isPad. by rewrite enc_pad, bool_decide_eq_true. Qed.

Lemma decodeMap_sextet v k :
  decodeMap enc (encodeAt enc (Z.land (Z.shiftr v k) 63)) =
  Some (Z.land (Z.shiftr v k) 63).
Proof. apply alphabet_ok_spec; [done | apply sextet_range]. Qed.

Lemma decodeMap_sextet0 v :
  decodeMap enc (encodeAt enc (Z.land v 63)) = Some (Z.land v 63).
Proof. apply alphabet_ok_spec; [done | apply sextet_range0]. Qed.

Lemma isPad_sextet v k :
  isPad enc (encodeAt enc (Z.land (Z.shiftr v k) 63)) = false.
Proof. apply alphabet_ok_spec; [done | apply sextet_range]. Qed.

Lemma isPad_sextet0 v : isPad enc (encodeAt enc (Z.land v 63)) = false.
Proof. apply alphabet_ok_spec; [done | apply sextet_range0]. Qed.

Lemma DecodeString_EncodeToString (src : list byte) :
  DecodeString enc (EncodeToString enc src) = Some src.
Proof.
  induction src as [|b0|b0 b1|b0 b1 b2 rest IH] using list_ind3.
  - done.
  - pose proof (byteZ_range b0).
    cbn [EncodeToString]. unfold padding. rewrite enc_pad.
    cbn [repeat string_of_list_ascii].
    cbn [DecodeString]. rewrite bool_decide_eq_true_2 by done.
    rewrite isPad_pad. cbn [andb].
    rewrite !decodeMap_sextet. cbn [mbind option_bind].
    rewrite sextets_rebuild2.
    + rewrite group1_val by done. by rewrite toByte_shiftr16 by lia.
    + rewrite group1_val by done. lia.
    + rewrite group1_val by done. Z.div_mod_to_equations. lia.
  - pose proof (byteZ_range b0). pose proof (byteZ_range b1).
    cbn [EncodeToString]. unfold padding. rewrite enc_pad.
    cbn [repeat string_of_list_ascii].
    cbn [DecodeString]. rewrite bool_decide_eq_true_2 by done.
    rewrite isPad_pad, isPad_sextet. cbn [andb].
    rewrite !decodeMap_sextet. cbn [mbind option_bind].
    rewrite sextets_rebuild3.
    + rewrite group2_val by done.
      by rewrite toByte_shiftr16, toByte_shiftr8 by lia.
    + rewrite group2_val by done. lia.
    + rewrite group2_val by done. Z.div_mod_to_equations. lia.
  - pose proof (byteZ_range b0). pose proof (byteZ_range b1).
    pose proof (byteZ_range b2).
    cbn [EncodeToString]. rewrite decode_quantum by apply isPad_sextet0.
    rewrite !decodeMap_sextet, decodeMap_sextet0. cbn [mbind option_bind].
    rewrite IH. cbn [mbind option_bind].
    rewrite sextets_rebuild by (rewrite group3_val by done; lia).
    rewrite group3_val by done.
    by rewrite toByte_shiftr16, toByte_shiftr8, toByte_low by lia.
Qed.
End Roundtrip.

(** ** The characters of an encoded text *)

Lemma encodeAt_lineChar (i : Z) :
  0 <= i < 64 -> lineChar (encodeAt StdEncoding i).
Proof.
  intros Hi.
  assert (forallb
            (fun n =>
               let c := encodeAt StdEncoding (Z.of_nat n) in
               negb (Ascii.eqb c "013") && negb (Ascii.eqb c "010"))
            (seq 0 64) = true)
    as Hall by (vm_compute; reflexivity).
  rewrite forallb_forall in Hall. specialize (Hall (Z.to_nat i)).
  rewrite Z2Nat.id in Hall by lia.
  assert (In (Z.to_nat i) (seq 0 64)) as Hin by (apply in_seq; lia).
  apply Hall in Hin. cbv zeta in Hin. apply andb_prop in Hin as [H1 H2].
  apply negb_true_iff, Ascii.eqb_neq in H1, H2. done.
Qed.

Lemma EncodeToString_lineChars (src : list byte) :
  Forall lineChar (chars (EncodeToString StdEncoding src)).
Proof.
  assert (lineChar StdPadding) as Hp by (split; discriminate).
  induction src as [|b0|b0 b1|b0 b1 b2 rest IH] using list_ind3;
    cbn [EncodeToString]; unfold padding;
    cbn [padChar StdEncoding repeat string_of_list_ascii
         list_ascii_of_string];
    repeat first [ apply Forall_nil_2 | apply Forall_cons_2 ];
    try first [ apply encodeAt_lineChar, sextet_range
              | apply encodeAt_lineChar, sextet_range0 | exact Hp | exact IH ].
Qed.

Lemma concat_Forall {A} (P : A -> Prop) (ls : list (list A)) :
  Forall P (concat ls) -> Forall (Forall P) ls.
Proof.
  induction ls as [|l ls IH]; cbn; [constructor |].
  rewrite Forall_app. intros [H1 H2]. constructor; auto.
Qed.

Lemma chars_strcat (ls : list string) :
  chars (strcat ls) = concat (chars <$> ls).
Proof.
  induction ls as [|l ls IH]; [done |].
  unfold strcat in *. cbn [foldr fmap list_fmap concat].
  by rewrite chars_app, IH.
Qed.

(** The loop writes content lines whose concatenation is the encoded text. *)
Lemma writeEncoded_contentLines (src : list byte) (message : Builder) :
  exists lines : list string,
    writeEncoded (EncodeToString StdEncoding src) 0 message
      = message +:+ joinLines lines /\
    strcat lines = EncodeToString StdEncoding src /\
    Forall contentLine lines.
Proof.
  destruct (writeEncoded_lines (EncodeToString StdEncoding src) 0 message)
    as (lines & Hw & Hc & Hf).
  exists lines. split; [done |]. rewrite drop_0 in Hc. split.
  - apply chars_inj. by rewrite chars_strcat.
  - pose proof (EncodeToString_lineChars src) as Hch.
    rewrite <- Hc in Hch. apply concat_Forall in Hch.
    rewrite Forall_fmap in Hch.
    rewrite Forall_forall in Hf, Hch. apply Forall_forall. intros l Hl.
    split; [by apply Hf | by apply Hch].
Qed.

Section AttachmentPart.
Context {Remote : Type} `{UnicodeTables}.
Implicit Types (g : gmailProvider Remote) (w : World Remote).

Lemma addAttachment_part g (message : Builder) (att : Attachment)
    (boundary : string) :
  exists lines : list string,
    addAttachment g message att boundary =
      message +:+
      attachmentPart boundary (resolvedMimeType att) (Filename att) lines /\
    Forall contentLine lines /\
    DecodeString StdEncoding (strcat lines) = Some (Content att).
Proof.
  unfold addAttachment. fold (resolvedMimeType att).
  match goal with |- context [writeEncoded _ 0 ?b] =>
    destruct (writeEncoded_contentLines (Content att) b)
      as (lines & Hw & Hc & Hf)
  end.
  exists lines. split; [| split; [done |]].
  - rewrite Hw. unfold attachmentPart, WriteString.
    by rewrite !string_app_assoc.
  - rewrite Hc.
    apply (DecodeString_EncodeToString StdEncoding StdPadding);
      [apply StdEncoding_ok | done].
Qed.
End AttachmentPart.

(** ** Header maps and their iteration *)

Lemma shuffle_perm {A} (seed : list nat) (l : list A) : shuffle seed l ≡ₚ l.
Proof.
  revert seed. induction l as [|x l IH]; intros seed; [done |].
  cbn [shuffle]. rewrite <- Permutation_middle, take_drop. by rewrite IH.
Qed.

(** Conversely, the seeds reach every order of the entries. *)
Lemma shuffle_complete {A} (l l' : list A) :
  l ≡ₚ l' -> exists seed : list nat, shuffle seed l = l'.
Proof.
  revert l'. induction l as [|x l IH]; intros l' Hp.
  - apply Permutation_nil in Hp as ->. by exists [].
  - assert (x ∈ l') as Hx by (rewrite <- Hp; left).
    apply list_elem_of_split in Hx as (l1 & l2 & ->).
    apply Permutation_cons_app_inv in Hp.
    destruct (IH _ Hp) as [seed Hs].
    exists (length l1 :: seed). cbn [shuffle hd tail]. rewrite Hs.
    rewrite Nat.mod_small by (rewrite length_app; lia).
    by rewrite take_app_length, drop_app_length.
Qed.

Lemma writeHeaders_block (message : Builder) (visit : list (string * string)) :
  writeHeaders message visit = message +:+ headerBlock visit.
Proof.
  revert message. induction visit as [|kv visit IH]; intros message.
  - by rewrite string_app_nil_r.
  - unfold writeHeaders in *. cbn [foldl]. rewrite IH.
    unfold WriteString, headerBlock, strcat. cbn [fmap list_fmap foldr].
    by rewrite string_app_assoc.
Qed.

Lemma headersNamed_absent (k : string) (hs : list (string * string)) :
  k ∉ hs.*1 -> headersNamed k hs = [].
Proof.
  unfold headersNamed. induction hs as [|[k' v'] hs IH]; intros Hk; [done |].
  cbn [fmap list_fmap] in Hk. apply not_elem_of_cons in Hk as [Hne Hk].
  cbn in Hne. rewrite filter_cons_False by (intros E; cbn in E; congruence).
  by apply IH.
Qed.

Lemma headersNamed_unique (k v : string) (hs : list (string * string)) :
  NoDup hs.*1 -> (k, v) ∈ hs -> headersNamed k hs = [(k, v)].
Proof.
  induction hs as [|[k' v'] hs IH]; intros Hnd Hin.
  - by apply elem_of_nil in Hin.
  - cbn [fmap list_fmap] in Hnd. apply NoDup_cons in Hnd as [Hk Hnd].
    unfold headersNamed in *.
    apply elem_of_cons in Hin as [Heq | Hin].
    + injection Heq as <- <-. rewrite filter_cons_True by done. f_equal.
      by apply headersNamed_absent.
    + rewrite filter_cons_False; [by apply IH |].
      cbn. intros ->. apply Hk. apply list_elem_of_fmap. by exists (k, v).
Qed.

(** What a [range] over a header map visits. *)
Lemma rangeMap_visit {Remote} (m : gmap string string) (w : World Remote) :
  let visit := fst (rangeMap m w) in
  visit ≡ₚ map_to_list m /\
  forall k : string,
    headersNamed k visit =
      match m !! k with Some v => [(k, v)] | None => [] end.
Proof.
  cbn [rangeMap fst]. set (visit := shuffle _ _).
  assert (visit ≡ₚ map_to_list m) as Hp by apply shuffle_perm.
  split; [done |]. intros k.
  destruct (m !! k) as [v|] eqn:Hk.
  - apply headersNamed_unique.
    + rewrite Hp. apply NoDup_fst_map_to_list.
    + rewrite Hp. by apply elem_of_map_to_list.
  - apply headersNamed_absent. rewrite Hp.
    intros Hin. apply list_elem_of_fmap in Hin as ([k' v] & -> & Hin).
    apply elem_of_map_to_list in Hin. cbn in Hk. congruence.
Qed.

(** ** The text of a message *)

Section MessageText.
Context {Remote : Type} `{UnicodeTables}.
Implicit Types (g : gmailProvider Remote) (w : World Remote) (msg : Message).

Lemma messageString_simple g msg w :
  Attachments msg = [] ->
  messageString g msg w =
    (headerBlock (fst (rangeMap (simpleHeaders msg) w)) +:+ CRLF +:+ Body msg,
     snd (rangeMap (simpleHeaders msg) w)).
Proof.
  intros Hatt. unfold messageString. rewrite Hatt. cbn [length Nat.ltb Nat.leb].
  unfold simpleText, mbind, M_bind, mret, M_ret. fold (simpleHeaders msg).
  cbn [rangeMap fst snd]. rewrite writeHeaders_block. unfold WriteString.
  by rewrite string_app_nil_l, string_app_assoc.
Qed.

Lemma foldl_addAttachment g (boundary : string) (atts : list Attachment)
    (message : Builder) :
  exists parts : list string,
    foldl (fun b att => addAttachment g b att boundary) message atts
      = message +:+ strcat parts /\
    Forall2
      (fun att part =>
         exists lines : list string,
           part = attachmentPart boundary (resolvedMimeType att)
                    (Filename att) lines /\
           Forall contentLine lines /\
           DecodeString StdEncoding (strcat lines) = Some (Content att))
      atts parts.
Proof.
  revert message. induction atts as [|att atts IH]; intros message.
  - exists []. split; [by rewrite string_app_nil_r | constructor].
  - cbn [foldl].
    destruct (addAttachment_part g message att boundary)
      as (lines & Ha & Hl & Hd).
    destruct (IH (addAttachment g message att boundary)) as (parts & Hf & Hp).
    exists (attachmentPart boundary (resolvedMimeType att) (Filename att) lines
              :: parts).
    split.
    + rewrite Hf, Ha. unfold strcat. cbn [foldr]. by rewrite string_app_assoc.
    + constructor; [by exists lines | done].
Qed.

Lemma messageString_multipart g msg w :
  Attachments msg <> [] ->
  let boundary := "boundary-" +:+ Sprintf_d (clock w) in
  let visit := fst (rangeMap (multipartHeaders boundary msg) w) in
  messageString g msg w =
    (foldl (fun b att => addAttachment g b att boundary)
       (headerBlock visit +:+ CRLF +:+ bodyPart boundary msg)
       (Attachments msg) +:+ closingBoundary boundary,
     snd (rangeMap (multipartHeaders boundary msg) w)).
Proof.
  intros Hatt boundary visit. unfold messageString.
  destruct (Attachments msg) as [|att atts] eqn:E; [done |].
  cbn [length Nat.ltb Nat.leb].
  unfold multipartText, mbind, M_bind, mret, M_ret, UnixNano.
  fold boundary. fold (multipartHeaders boundary msg).
  cbn [rangeMap fst snd]. rewrite E. f_equal.
  unfold closingBoundary, WriteString. f_equal. f_equal.
  rewrite writeHeaders_block. unfold bodyPart.
  rewrite string_app_nil_l. by rewrite !string_app_assoc.
Qed.
End MessageText.

(** ** Validation *)

Lemma string_eqb_empty (s : string) : String.eqb s "" = bool_decide (s = "").
Proof. by destruct s. Qed.

(** C3. [Validate] checks from, to, subject and body in this order and
    returns the error of the first check that fails; it succeeds exactly
    when the four fields are non-empty, whatever cc, bcc and the attachments
    are. *)
Theorem Validate_first_failure (m : Message) :
  (From m = "" -> Validate m = Some (errorString "from address is required")) /\
  (From m <> "" -> To m = [] ->
     Validate m = Some (errorString "at least one recipient is required")) /\
  (From m <> "" -> To m <> [] -> Subject m = "" ->
     Validate m = Some (errorString "subject is required")) /\
  (From m <> "" -> To m <> [] -> Subject m <> "" -> Body m = "" ->
     Validate m = Some (errorString "body is required")) /\
  (Validate m = None <->
     From m <> "" /\ To m <> [] /\ Subject m <> "" /\ Body m <> "") /\
  (forall (cc bcc : list string) (atts : list Attachment),
     Validate
       {| From := From m; To := To m; Cc := cc; Bcc := bcc;
          Subject := Subject m; Body := Body m; HTML := HTML m;
          Attachments := atts |} = Validate m).
Proof.
  unfold Validate, Errorf.
  destruct m as [from to cc bcc subject body html atts]; cbn.
  destruct from as [|c0 from], to as [|t0 to], subject as [|c1 subject],
    body as [|c2 body]; cbn; repeat split; intros; try done;
    try (destruct_and?; done).
Qed.

(** ** Extensions and content types *)

Lemma get_chars (i : nat) (s : string) : String.get i s = chars s !! i.
Proof. revert i. induction s as [|c s IH]; intros [|i]; cbn; auto. Qed.

Lemma get_app_r (s t : string) (k : nat) :
  String.get (String.length s + k) (s +:+ t) = String.get k t.
Proof.
  rewrite !get_chars, chars_app, lookup_app_r by (rewrite chars_length; lia).
  f_equal. rewrite chars_length. lia.
Qed.

Lemma substring_suffix (s t : string) :
  String.substring (String.length s)
    (String.length (s +:+ t) - String.length s) (s +:+ t) = t.
Proof.
  apply chars_inj. rewrite chars_substring, chars_app.
  rewrite drop_app_length' by (by rewrite chars_length).
  rewrite string_app_length. apply take_ge. rewrite chars_length. lia.
Qed.





Section ContentTypes.
Context `{UnicodeTables}.


End ContentTypes.

(** ** The client *)

Section ClientFacade.
Context {Remote : Type}.
Implicit Types (c : Client Remote) (w : World Remote) (msg : Message).

(** The context [Client.Send] builds in the world [w]. *)
Lemma WithTimeout_Background (timeout : Z) w :
  WithTimeout Background timeout w =
    ({| Deadline := Some (clock w + timeout) |}, w).
Proof. reflexivity. Qed.

Lemma SendWithContext_invalid c (ctx : Context) msg w (err : Err) :
  Validate msg = Some err ->
  SendWithContext c ctx msg w = (Some (Errorf_w "invalid message: " err), w).
Proof. intros E. unfold SendWithContext. by rewrite E. Qed.

Lemma SendWithContext_valid c (ctx : Context) msg w :
  Validate msg = None ->
  SendWithContext c ctx msg w =
    Send (provider c) ctx msg (snd (record (CallProviderSend ctx msg) w)).
Proof. intros E. unfold SendWithContext. by rewrite E. Qed.

Lemma Client_Send_unfold c msg w :
  Client_Send c msg w =
    (let ctx := {| Deadline := Some (clock w + 30 * Second) |} in
     let (r, w') := SendWithContext c ctx msg w in
     (r, snd (cancel ctx w'))).
Proof.
  unfold Client_Send, mbind, M_bind. rewrite WithTimeout_Background.
  cbv zeta. by destruct (SendWithContext _ _ _ _).
Qed.


(** C9. [Client.Send] is the deadline variant called with a context that
    ends 30 seconds (30 000 000 000 ns) after the present; both give the
    same result, and the worlds they leave differ only by the cancellation
    of that context. *)
Theorem Send_default_deadline c msg w :
  30 * Second = 30000000000 /\
  fst (Client_Send c msg w) = fst (sendWithDefaultDeadline c msg w) /\
  snd (Client_Send c msg w) =
    snd (cancel {| Deadline := Some (clock w + 30000000000) |}
           (snd (sendWithDefaultDeadline c msg w))).
Proof.
  split; [reflexivity |]. rewrite Client_Send_unfold.
  unfold sendWithDefaultDeadline. change (30 * Second) with 30000000000.
  cbv zeta. by destruct (SendWithContext _ _ _ _).
Qed.
End ClientFacade.

(** ** Construction of a client *)

Section Construction.
Context {Remote : Type} {ctors : Constructors Remote}.
Implicit Types (w : World Remote) (config : Config).

Lemma NewClient_unknown config w :
  ProviderName config <> "outlook365" -> ProviderName config <> "gmail" ->
  NewClient config w =
    (inr (errorString ("unsupported provider: " +:+ ProviderName config)), w).
Proof.
  intros H1 H2. unfold NewClient.
  apply String.eqb_neq in H1, H2. by rewrite H1, H2.
Qed.

Lemma NewClient_missing_outlook config w :
  ProviderName config = "outlook365" -> Outlook config = None ->
  NewClient config w =
    (inr (errorString "outlook configuration is required"), w).
Proof. intros H1 H2. unfold NewClient. by rewrite H1, H2. Qed.

Lemma NewClient_missing_gmail config w :
  ProviderName config = "gmail" -> Gmail config = None ->
  NewClient config w =
    (inr (errorString "gmail configuration is required"), w).
Proof. intros H1 H2. unfold NewClient. by rewrite H1, H2. Qed.

Lemma NewClient_outlook config w (cfg : OutlookConfig) :
  ProviderName config = "outlook365" -> Outlook config = Some cfg ->
  NewClient config w =
    (let (r, w') :=
       newOutlookProvider cfg (snd (record (CallNewOutlookProvider cfg) w)) in
     (NewClient_finish r, w')).
Proof.
  intros H1 H2. unfold NewClient. rewrite H1, H2.
  change (String.eqb "outlook365" "outlook365") with true. cbv iota.
  unfold mbind, M_bind. cbn [record snd].
  by destruct (newOutlookProvider cfg _).
Qed.

Lemma NewClient_gmail config w (cfg : GmailConfig) :
  ProviderName config = "gmail" -> Gmail config = Some cfg ->
  NewClient config w =
    (let (r, w') :=
       newGmailProvider cfg (snd (record (CallNewGmailProvider cfg) w)) in
     (NewClient_finish r, w')).
Proof.
  intros H1 H2. unfold NewClient. rewrite H1, H2.
  change (String.eqb "gmail" "outlook365") with false.
  change (String.eqb "gmail" "gmail") with true. cbv iota.
  unfold mbind, M_bind. cbn [record snd].
  by destruct (newGmailProvider cfg _).
Qed.

(** What a constructor returns never becomes a configuration error. *)
Lemma NewClient_finish_not_configuration config
    (r : Provider Remote + Err) (e : Err) :
  NewClient_finish r = inr e -> ~ ConfigurationError config e.
Proof.
  destruct r as [p | err]; cbn; [done |]. intros [= <-].
  unfold ConfigurationError, Errorf_w, Errorf, Errorf_s.
  intros [? | [? | ?]]; discriminate.
Qed.

(** C8. [NewClient] reports a configuration error exactly when the selector
    is neither [outlook365] nor [gmail], or the configuration of the selected
    provider is missing; in these cases no constructor of a provider is
    called and the world is left as it was. *)
Theorem NewClient_configuration_errors config w :
  let unknown :=
    ProviderName config <> "outlook365" /\ ProviderName config <> "gmail" in
  let missingOutlook :=
    ProviderName config = "outlook365" /\ Outlook config = None in
  let missingGmail :=
    ProviderName config = "gmail" /\ Gmail config = None in
  ((exists e : Err,
      fst (NewClient config w) = inr e /\ ConfigurationError config e) <->
   unknown \/ missingOutlook \/ missingGmail) /\
  (unknown ->
     NewClient config w =
       (inr (errorString ("unsupported provider: " +:+ ProviderName config)),
        w)) /\
  (missingOutlook ->
     NewClient config w =
       (inr (errorString "outlook configuration is required"), w)) /\
  (missingGmail ->
     NewClient config w =
       (inr (errorString "gmail configuration is required"), w)).
Proof.
  intros unknown missingOutlook missingGmail.
  split; [| split; [| split]].
  - split.
    + intros (e & He & Hc).
      destruct (decide (ProviderName config = "outlook365")) as [E1 | E1].
      * destruct (Outlook config) as [cfg |] eqn:Ho; [| right; by left].
        rewrite (NewClient_outlook config w cfg E1 Ho) in He.
        destruct (newOutlookProvider cfg _) as [r w']. cbn [fst] in He.
        by apply (NewClient_finish_not_configuration config) in He.
      * destruct (decide (ProviderName config = "gmail")) as [E2 | E2];
          [| by left].
        destruct (Gmail config) as [cfg |] eqn:Hg; [| right; by right].
        rewrite (NewClient_gmail config w cfg E2 Hg) in He.
        destruct (newGmailProvider cfg _) as [r w']. cbn [fst] in He.
        by apply (NewClient_finish_not_configuration config) in He.
    + intros [[H1 H2] | [[H1 H2] | [H1 H2]]].
      * rewrite NewClient_unknown by done. eexists. split; [done |].
        right. by right.
      * rewrite NewClient_missing_outlook by done. eexists. split; [done |].
        by left.
      * rewrite NewClient_missing_gmail by done. eexists. split; [done |].
        right. by left.
  - intros [H1 H2]. by apply NewClient_unknown.
  - intros [H1 H2]. by apply NewClient_missing_outlook.
  - intros [H1 H2]. by apply NewClient_missing_gmail.
Qed.
End Construction.

(** ** The encoder *)

Section Encoder.
Context {Remote : Type} `{UnicodeTables}.
Implicit Types (g : gmailProvider Remote) (w : World Remote) (msg : Message).

Lemma createMessage_unfold g msg w :
  createMessage g msg w =
    ({| Raw := EncodeToString URLEncoding
                 (list_byte_of_string (fst (messageString g msg w))) |},
     None, snd (messageString g msg w)).
Proof.
  unfold createMessage, mbind, M_bind, mret, M_ret.
  by destruct (messageString g msg w).
Qed.

(** The framing for the Gmail API can be undone. *)
Lemma createMessage_Raw g msg w :
  DecodeString URLEncoding (Raw (fst (fst (createMessage g msg w)))) =
    Some (list_byte_of_string (fst (messageString g msg w))).
Proof.
  rewrite createMessage_unfold. cbn [fst Raw].
  apply (DecodeString_EncodeToString URLEncoding StdPadding);
    [apply URLEncoding_ok | done].
Qed.

Lemma messageString_headers g msg w :
  exists rest : string,
    fst (messageString g msg w) =
      headerBlock (fst (rangeMap (headersOf msg w) w)) +:+ CRLF +:+ rest.
Proof.
  unfold headersOf. destruct (Attachments msg) as [|att atts] eqn:E.
  - rewrite messageString_simple by done. by eexists.
  - rewrite messageString_multipart by (rewrite E; done). cbv zeta.
    cbn [fst]. rewrite E.
    match goal with |- context [foldl _ ?b ?l] =>
      destruct (foldl_addAttachment g ("boundary-" +:+ Sprintf_d (clock w))
                  l b) as (parts & -> & _)
    end.
    eexists. by rewrite !string_app_assoc.
Qed.

(** C10. The construction of the Gmail message never fails:
    [createMessage] returns a nil error for every message, so [Send] either
    succeeds or wraps the error of the remote call; it never returns the
    error of the branch for a failed construction. *)
Theorem createMessage_never_fails g (ctx : Context) msg w :
  snd (fst (createMessage g msg w)) = None /\
  gmailProvider_Send g ctx msg w =
    (let '(gmailMsg, _, w1) := createMessage g msg w in
     let (err, w2) :=
       Users_Messages_Send_Do (service g) "me" gmailMsg ctx w1 in
     (match err with
      | Some e => Some (wrapError ("unable to send message: " +:+ Error e) e)
      | None => None
      end, w2)) /\
  (forall e : Err,
     fst (gmailProvider_Send g ctx msg w) <>
       Some (Errorf_w "unable to create message: " e)).
Proof.
  assert (gmailProvider_Send g ctx msg w =
    (let '(gmailMsg, _, w1) := createMessage g msg w in
     let (err, w2) :=
       Users_Messages_Send_Do (service g) "me" gmailMsg ctx w1 in
     (match err with
      | Some e => Some (wrapError ("unable to send message: " +:+ Error e) e)
      | None => None
      end, w2))) as Hsend.
  { unfold gmailProvider_Send, mbind, M_bind.
    rewrite createMessage_unfold.
    destruct (Users_Messages_Send_Do _ _ _ _ _) as [[e|] w2]; reflexivity. }
  split; [by rewrite createMessage_unfold |]. split; [exact Hsend |].
  intros e. rewrite Hsend, createMessage_unfold.
  destruct (Users_Messages_Send_Do _ _ _ _ _) as [[e'|] w2]; cbn [fst];
    [| discriminate].
  unfold Errorf_w. intros [= Hmsg _].
Qed.

(** The attachment parts do not depend on the provider value. *)
Lemma foldl_addAttachment_provider (g1 g2 : gmailProvider Remote)
    (boundary : string) (atts : list Attachment) (message : Builder) :
  foldl (fun b att => addAttachment g1 b att boundary) message atts =
  foldl (fun b att => addAttachment g2 b att boundary) message atts.
Proof.
  revert message. induction atts as [|att atts IH]; intros message; [done |].
  cbn [foldl]. by rewrite IH.
Qed.

Lemma messageString_determined (g1 g2 : gmailProvider Remote) msg
    (w1 w2 : World Remote) :
  fst (rangeMap (headersOf msg w1) w1) = fst (rangeMap (headersOf msg w2) w2) ->
  (Attachments msg <> [] -> clock w1 = clock w2) ->
  fst (messageString g1 msg w1) = fst (messageString g2 msg w2).
Proof.
  intros Hvisit Hclock. unfold headersOf in Hvisit.
  destruct (Attachments msg) as [|att atts] eqn:E.
  - rewrite !messageString_simple by done. cbn [fst]. by rewrite Hvisit.
  - assert (clock w1 = clock w2) as Hc by (by apply Hclock).
    rewrite !messageString_multipart by (rewrite E; done).
    cbv zeta. cbn [fst]. rewrite <- Hc in *. rewrite Hvisit.
    by rewrite (foldl_addAttachment_provider g1 g2).
Qed.

(** C1, as the code has it. Two encodings of a message are the same text
    when the header map is visited in the same order and, for a message with
    attachments, the clock reads the same. *)
Theorem encoding_determined_by_clock_and_order
    (g1 g2 : gmailProvider Remote) msg (w1 w2 : World Remote) :
  fst (rangeMap (headersOf msg w1) w1) = fst (rangeMap (headersOf msg w2) w2) ->
  (Attachments msg <> [] -> clock w1 = clock w2) ->
  fst (createMessage g1 msg w1) = fst (createMessage g2 msg w2).
Proof.
  intros Hvisit Hclock. rewrite !createMessage_unfold. cbn [fst].
  by rewrite (messageString_determined g1 g2 msg w1 w2).
Qed.
End Encoder.

(** C1, as stated, fails: the same message with an attachment is encoded
    differently at two readings of the clock, and a message is encoded
    differently under two iteration orders of its header map. *)
Lemma encoding_not_deterministic :
  String.eqb
    (Raw (fst (fst (@createMessage unit asciiTables sampleGmail reportMessage
                      (sampleWorld 1700000000000000001 [])))))
    (Raw (fst (fst (@createMessage unit asciiTables sampleGmail reportMessage
                      (sampleWorld 1700000000000000002 [])))))
    = false /\
  String.eqb
    (Raw (fst (fst (@createMessage unit asciiTables sampleGmail plainMessage
                      (sampleWorld 0 [])))))
    (Raw (fst (fst (@createMessage unit asciiTables sampleGmail plainMessage
                      (sampleWorld 0 [1%nat])))))
    = false.
Proof. split; vm_compute; reflexivity. Qed.

(** ** The claims at sample values *)

(** The scenario of the specification: the message is valid, and with the
    header map visited in the order From, To, Subject, Content-Type,
    MIME-Version its text is the five header lines, a blank line and the
    body. *)
Example plainMessage_valid : Validate plainMessage = None.
Proof. reflexivity. Qed.

Example plainMessage_text :
  fst (@messageString unit asciiTables sampleGmail plainMessage
         (sampleWorld 0 [2; 2; 2; 0; 0]%nat)) =
    headerBlock
      [("From", "a@x.com"); ("To", "b@y.com"); ("Subject", "Hi");
       ("Content-Type", "text/plain; charset=utf-8");
       ("MIME-Version", "1.0")] +:+ CRLF +:+ "Hello".
Proof. vm_compute. reflexivity. Qed.

Example missing_subject_reported :
  Validate noSubjectMessage = Some (errorString "subject is required").
Proof. reflexivity. Qed.

(** An invalid message is turned down before the provider is reached. *)
Example invalid_message_not_sent :
  SendWithContext sampleClient Background noSubjectMessage (sampleWorld 0 [])
  = (Some (wrapError "invalid message: subject is required"
             (errorString "subject is required")),
     sampleWorld 0 []).
Proof. reflexivity. Qed.

(** A valid message goes to the provider once, under the default deadline,
    and the context is cancelled afterwards. *)
Example valid_message_sent :
  let ctx := {| Deadline := Some 30000000005 |} in
  Client_Send sampleClient plainMessage (sampleWorld 5 []) =
    (None,
     {| clock := 5; rangeSeeds := [];
        calls := [CallProviderSend ctx plainMessage; CallCancel ctx];
        remote := tt |}).
Proof. vm_compute. reflexivity. Qed.

(** The part written for the sample attachment: its type comes from the
    extension, and its 63 bytes fill one line of 76 characters and one of
    8. *)
Example reportAttachment_part :
  @addAttachment unit asciiTables sampleGmail "" reportAttachment "b" =
    attachmentPart "b" "application/pdf" "report.pdf" [
"JVBERi0xLjQgc2FtcGxlIGNvbnRlbnQsIGxvbmcgZW5vdWdoIHRvIGZpbGwgbW9yZSB0aGFuIG9u";
"ZSBsaW5l" ].
Proof. vm_compute. reflexivity. Qed.

Example content_types_of_names :
  @getContentType asciiTables "Report.PDF" = "application/pdf" /\
  @getContentType asciiTables "photo.jpeg" = "image/jpeg" /\
  @getContentType asciiTables "archive.tar.gz" = "application/octet-stream" /\
  @getContentType asciiTables "docs.v2/README" = "application/octet-stream".
Proof. repeat split; vm_compute; reflexivity. Qed.

Example unknown_provider_rejected :
  @NewClient unit sampleConstructors
    {| ProviderName := "unknown"; Outlook := None; Gmail := None |}
    (sampleWorld 0 [])
  = (inr (errorString "unsupported provider: unknown"), sampleWorld 0 []).
Proof. reflexivity. Qed.

Example outlook_needs_its_own_configuration :
  @NewClient unit sampleConstructors
    {| ProviderName := "outlook365"; Outlook := None;
       Gmail := Some {| CredentialsJSON := []; TokenJSON := [] |} |}
    (sampleWorld 0 [])
  = (inr (errorString "outlook configuration is required"), sampleWorld 0 []).
Proof. reflexivity. Qed.

(** C1, as the code has it, at two worlds that agree on the clock and on the
    coming iteration order and differ in everything else. *)
Lemma encoding_determined_witness :
  fst (@createMessage unit asciiTables sampleGmail reportMessage
         (sampleWorld 1700000000000000001 [3; 1]%nat)) =
  fst (@createMessage unit asciiTables sampleGmail reportMessage
         {| clock := 1700000000000000001;
            rangeSeeds := [[3; 1]; [5]]%nat;
            calls := [CallCancel Background];
            remote := tt |}).
Proof.
  apply (@encoding_determined_by_clock_and_order unit asciiTables
           sampleGmail sampleGmail reportMessage).
  - vm_compute. reflexivity.
  - intros _. reflexivity.
Defined.

(** * The rest of the package: properties *)

(** ** The one-shot sender *)

Section QuickSendFacts.
Context {Remote : Type} {ctors : Constructors Remote}.
Implicit Types (w : World Remote) (creds : Credentials).

Lemma QuickSend_with_config (provider : string) creds
    (from to subject body : string) (config : Config) :
  QuickSend_config provider creds = Some config ->
  QuickSend provider creds from to subject body =
    QuickSend_run config from to subject body.
Proof.
  unfold QuickSend_config, QuickSend.
  destruct (String.eqb provider "outlook365").
  - destruct creds; intros [= <-]; reflexivity.
  - destruct (String.eqb provider "gmail").
    + destruct creds; intros [= <-]; reflexivity.
    + intros [= <-]; reflexivity.
Qed.

(** X1. [QuickSend] returns before anything is constructed when the
    credentials have the wrong type, when they are a nil pointer of the right
    type, and when the provider is unknown (whatever the credentials). *)
Theorem QuickSend_rejects_before_construction creds
    (from to subject body : string) w :
  ((forall p, creds <> OutlookCredentials p) ->
   QuickSend "outlook365" creds from to subject body w =
     (Some (errorString "invalid credentials for outlook365"), w)) /\
  ((forall p, creds <> GmailCredentials p) ->
   QuickSend "gmail" creds from to subject body w =
     (Some (errorString "invalid credentials for gmail"), w)) /\
  QuickSend "outlook365" (OutlookCredentials None) from to subject body w =
    (Some (errorString "outlook configuration is required"), w) /\
  QuickSend "gmail" (GmailCredentials None) from to subject body w =
    (Some (errorString "gmail configuration is required"), w) /\
  (forall provider : string,
     provider <> "outlook365" -> provider <> "gmail" ->
     QuickSend provider creds from to subject body w =
       (Some (errorString ("unsupported provider: " +:+ provider)), w)).
Proof.
  split; [| split; [| split; [| split]]].
  - intros Hno. destruct creds as [p| |]; [by destruct (Hno p) | done..].
  - intros Hno. destruct creds as [|p|]; [| by destruct (Hno p) |]; done.
  - reflexivity.
  - reflexivity.
  - intros provider H1 H2. unfold QuickSend.
    apply String.eqb_neq in H1 as E1. apply String.eqb_neq in H2 as E2.
    rewrite E1, E2. unfold QuickSend_run, mbind, M_bind.
    by rewrite NewClient_unknown.
Qed.

(** X2. Once the client is constructed, [QuickSend] sends whenever from,
    subject and body are not empty: the recipient is not looked at, the
    message goes to the provider with the one-element list [to], as plain
    text, under the default deadline. *)
Theorem QuickSend_accepts_any_recipient (name : string) creds
    (from to subject body : string) (config : Config)
    (client : Client Remote) (w w2 : World Remote) :
  QuickSend_config name creds = Some config ->
  NewClient config w = (inl client, w2) ->
  from <> "" -> subject <> "" -> body <> "" ->
  QuickSend name creds from to subject body w =
    (let ctx := {| Deadline := Some (clock w2 + 30000000000) |} in
     let msg :=
       {| From := from; To := [to]; Cc := []; Bcc := []; Subject := subject;
          Body := body; HTML := false; Attachments := [] |} in
     let (r, w3) :=
       Send (provider client) ctx msg
         (snd (record (CallProviderSend ctx msg) w2)) in
     (r, snd (cancel ctx w3))).
Proof.
  intros Hc Hn Hf Hs Hb. rewrite (QuickSend_with_config _ _ _ _ _ _ _ Hc).
  unfold QuickSend_run, mbind at 1, M_bind at 1. rewrite Hn.
  rewrite Client_Send_unfold. cbv zeta. change (30 * Second) with 30000000000.
  rewrite SendWithContext_valid; [done |].
  unfold Validate, QuickSend_message. cbn [From To Subject Body length].
  apply String.eqb_neq in Hf, Hs, Hb. by rewrite Hf, Hs, Hb.
Qed.

(** X3. [QuickSend] validates after it has constructed the client: with an
    empty from, subject or body the provider is constructed all the same
    (the world is the one [NewClient] left), nothing is sent, and the error
    is never the one for a missing recipient. *)
Theorem QuickSend_validates_after_construction (name : string) creds
    (from to subject body : string) (config : Config)
    (client : Client Remote) (w w2 : World Remote) :
  QuickSend_config name creds = Some config ->
  NewClient config w = (inl client, w2) ->
  from = "" \/ subject = "" \/ body = "" ->
  exists err : Err,
    Validate (QuickSend_message from to subject body) = Some err /\
    err <> errorString "at least one recipient is required" /\
    QuickSend name creds from to subject body w =
      (Some (wrapError ("invalid message: " +:+ Error err) err),
       snd (cancel {| Deadline := Some (clock w2 + 30000000000) |} w2)).
Proof.
  intros Hc Hn Hempty.
  assert (exists err : Err,
            Validate (QuickSend_message from to subject body) = Some err /\
            err <> errorString "at least one recipient is required")
    as (err & Hv & Hne).
  { unfold Validate, QuickSend_message, Errorf.
    cbn [From To Subject Body length Nat.eqb].
    destruct from; [by eexists |]. destruct subject; [by eexists |].
    destruct body; [by eexists |]. by destruct Hempty as [? | [? | ?]]. }
  exists err. split; [done |]. split; [done |].
  rewrite (QuickSend_with_config _ _ _ _ _ _ _ Hc).
  unfold QuickSend_run, mbind at 1, M_bind at 1. rewrite Hn.
  rewrite Client_Send_unfold. cbv zeta. change (30 * Second) with 30000000000.
  by rewrite (SendWithContext_invalid _ _ _ _ err Hv).
Qed.

(** X4. [NewClient] looks only at the configuration of the selected
    provider: a configuration supplied for the other provider is ignored,
    it is no error and has no effect. *)
Theorem NewClient_ignores_other_configuration (config : Config)
    (outlook : option OutlookConfig) (gmail : option GmailConfig) w :
  (ProviderName config = "gmail" ->
   NewClient
     {| ProviderName := ProviderName config; Outlook := outlook;
        Gmail := Gmail config |} w = NewClient config w) /\
  (ProviderName config = "outlook365" ->
   NewClient
     {| ProviderName := ProviderName config; Outlook := Outlook config;
        Gmail := gmail |} w = NewClient config w).
Proof.
  split; intros E; unfold NewClient; cbn [ProviderName Outlook Gmail];
    by rewrite E.
Qed.
End QuickSendFacts.

(** ** Configuration from the environment *)

Lemma outlookConfigFromEnv_success (os : OS) (config : OutlookConfig) :
  outlookConfigFromEnv os = inl config <->
  Getenv os "OUTLOOK_TENANT_ID" <> "" /\
  Getenv os "OUTLOOK_CLIENT_ID" <> "" /\
  Getenv os "OUTLOOK_CLIENT_SECRET" <> "" /\
  config =
    {| TenantID := Getenv os "OUTLOOK_TENANT_ID";
       ClientID := Getenv os "OUTLOOK_CLIENT_ID";
       ClientSecret := Getenv os "OUTLOOK_CLIENT_SECRET" |}.
Proof.
  unfold outlookConfigFromEnv. cbn [TenantID ClientID ClientSecret].
  rewrite !string_eqb_empty.
  repeat case_bool_decide; split; try done; try (intuition congruence).
Qed.

(** X5. [outlookConfigFromEnv] reports the first variable that is unset or
    empty, in the order tenant, client id, client secret, and succeeds
    exactly when the three are set, with the configuration that holds
    them. *)
Theorem outlookConfigFromEnv_first_missing (os : OS) :
  let tenant := Getenv os "OUTLOOK_TENANT_ID" in
  let client := Getenv os "OUTLOOK_CLIENT_ID" in
  let secret := Getenv os "OUTLOOK_CLIENT_SECRET" in
  (tenant = "" ->
   outlookConfigFromEnv os = inr (errorString "OUTLOOK_TENANT_ID is required"))
  /\
  (tenant <> "" -> client = "" ->
   outlookConfigFromEnv os = inr (errorString "OUTLOOK_CLIENT_ID is required"))
  /\
  (tenant <> "" -> client <> "" -> secret = "" ->
   outlookConfigFromEnv os =
     inr (errorString "OUTLOOK_CLIENT_SECRET is required")) /\
  (forall config : OutlookConfig,
     outlookConfigFromEnv os = inl config <->
     tenant <> "" /\ client <> "" /\ secret <> "" /\
     config =
       {| TenantID := tenant; ClientID := client; ClientSecret := secret |}).
Proof.
  intros tenant client secret.
  split; [| split; [| split; [| apply outlookConfigFromEnv_success]]];
    unfold outlookConfigFromEnv; cbn [TenantID ClientID ClientSecret];
    fold tenant client secret; rewrite !string_eqb_empty; intros;
    repeat case_bool_decide; done.
Qed.

(** X6. [gmailConfigFromEnv] needs the name of the credentials file, takes
    [token.json] for the token file when none is named, reads the credentials
    before the token, and returns what the two files hold, unchecked. *)
Theorem gmailConfigFromEnv_files (os : OS) :
  let credsFile := Getenv os "GMAIL_CREDENTIALS_FILE" in
  let tokenFile :=
    if bool_decide (Getenv os "GMAIL_TOKEN_FILE" = "") then "token.json"
    else Getenv os "GMAIL_TOKEN_FILE" in
  (credsFile = "" ->
   gmailConfigFromEnv os =
     inr (errorString "GMAIL_CREDENTIALS_FILE is required")) /\
  (forall err : Err,
     credsFile <> "" -> ReadFile os credsFile = inr err ->
     gmailConfigFromEnv os =
       inr (wrapError ("failed to read credentials file: " +:+ Error err)
              err)) /\
  (forall (creds : list byte) (err : Err),
     credsFile <> "" -> ReadFile os credsFile = inl creds ->
     ReadFile os tokenFile = inr err ->
     gmailConfigFromEnv os =
       inr (wrapError ("failed to read token file: " +:+ Error err) err)) /\
  (forall creds token : list byte,
     credsFile <> "" -> ReadFile os credsFile = inl creds ->
     ReadFile os tokenFile = inl token ->
     gmailConfigFromEnv os =
       inl {| CredentialsJSON := creds; TokenJSON := token |}).
Proof.
  intros credsFile tokenFile. unfold gmailConfigFromEnv.
  fold credsFile. rewrite !string_eqb_empty. fold tokenFile.
  split; [| split; [| split]].
  - intros E. by rewrite bool_decide_eq_true_2.
  - intros err Hne Hr. rewrite bool_decide_eq_false_2 by done. by rewrite Hr.
  - intros creds err Hne Hc Ht. rewrite bool_decide_eq_false_2 by done.
    by rewrite Hc, Ht.
  - intros creds token Hne Hc Ht. rewrite bool_decide_eq_false_2 by done.
    by rewrite Hc, Ht.
Qed.

(** What [ConfigFromEnv] does for each provider. *)
Lemma ConfigFromEnv_outlook (os : OS) :
  Getenv os "EMAIL_PROVIDER" = "" \/
  Getenv os "EMAIL_PROVIDER" = "outlook365" ->
  ConfigFromEnv os =
    match outlookConfigFromEnv os with
    | inr err => inr (Errorf_w "outlook config error: " err)
    | inl outlook =>
        inl {| ProviderName := "outlook365"; Outlook := Some outlook;
               Gmail := None |}
    end.
Proof. intros [E | E]; unfold ConfigFromEnv; by rewrite E. Qed.

Lemma ConfigFromEnv_gmail (os : OS) :
  Getenv os "EMAIL_PROVIDER" = "gmail" ->
  ConfigFromEnv os =
    match gmailConfigFromEnv os with
    | inr err => inr (Errorf_w "gmail config error: " err)
    | inl gmail =>
        inl {| ProviderName := "gmail"; Outlook := None;
               Gmail := Some gmail |}
    end.
Proof. intros E. unfold ConfigFromEnv. by rewrite E. Qed.

Lemma ConfigFromEnv_unsupported (os : OS) :
  Getenv os "EMAIL_PROVIDER" <> "" ->
  Getenv os "EMAIL_PROVIDER" <> "outlook365" ->
  Getenv os "EMAIL_PROVIDER" <> "gmail" ->
  ConfigFromEnv os =
    inr (errorString
           ("unsupported email provider: " +:+ Getenv os "EMAIL_PROVIDER")).
Proof.
  intros H0 H1 H2. unfold ConfigFromEnv.
  apply String.eqb_neq in H0, H1, H2. by rewrite H0, H1, H2.
Qed.

Lemma ConfigFromEnv_selects (os : OS) (config : Config) :
  ConfigFromEnv os = inl config ->
  (ProviderName config = "outlook365" /\
   exists outlook : OutlookConfig, Outlook config = Some outlook) \/
  (ProviderName config = "gmail" /\
   exists gmail : GmailConfig, Gmail config = Some gmail).
Proof.
  intros Hc.
  destruct (decide (Getenv os "EMAIL_PROVIDER" = "" \/
                    Getenv os "EMAIL_PROVIDER" = "outlook365")) as [E | E].
  - left. rewrite (ConfigFromEnv_outlook os E) in Hc.
    destruct (outlookConfigFromEnv os) as [outlook | err]; [| done].
    injection Hc as <-. split; [done | by exists outlook].
  - destruct (decide (Getenv os "EMAIL_PROVIDER" = "gmail")) as [Eg | Eg].
    + right. rewrite (ConfigFromEnv_gmail os Eg) in Hc.
      destruct (gmailConfigFromEnv os) as [gmail | err]; [| done].
      injection Hc as <-. split; [done | by exists gmail].
    + rewrite ConfigFromEnv_unsupported in Hc; [done | tauto | tauto | done].
Qed.

(** X7. A configuration [ConfigFromEnv] returns names one of the two
    providers and carries the configuration of that provider and of no
    other; for Outlook the three identifiers are not empty. The provider is
    Outlook when [EMAIL_PROVIDER] is unset or empty. *)
Theorem ConfigFromEnv_well_formed (os : OS) (config : Config) :
  ConfigFromEnv os = inl config ->
  (ProviderName config = "outlook365" /\
   (Getenv os "EMAIL_PROVIDER" = "" \/
    Getenv os "EMAIL_PROVIDER" = "outlook365") /\
   Gmail config = None /\
   exists outlook : OutlookConfig,
     Outlook config = Some outlook /\
     TenantID outlook <> "" /\ ClientID outlook <> "" /\
     ClientSecret outlook <> "") \/
  (ProviderName config = "gmail" /\
   Getenv os "EMAIL_PROVIDER" = "gmail" /\
   Outlook config = None /\
   exists gmail : GmailConfig, Gmail config = Some gmail).
Proof.
  intros Hc.
  destruct (decide (Getenv os "EMAIL_PROVIDER" = "" \/
                    Getenv os "EMAIL_PROVIDER" = "outlook365")) as [E | E].
  - left. rewrite (ConfigFromEnv_outlook os E) in Hc.
    destruct (outlookConfigFromEnv os) as [outlook | err] eqn:Ho; [| done].
    injection Hc as <-. split; [done |]. split; [done |]. split; [done |].
    exists outlook. split; [done |].
    apply outlookConfigFromEnv_success in Ho as (H1 & H2 & H3 & ->).
    done.
  - destruct (decide (Getenv os "EMAIL_PROVIDER" = "gmail")) as [Eg | Eg].
    + right. rewrite (ConfigFromEnv_gmail os Eg) in Hc.
      destruct (gmailConfigFromEnv os) as [gmail | err]; [| done].
      injection Hc as <-. split; [done |]. split; [done |]. split; [done |].
      by exists gmail.
    + rewrite ConfigFromEnv_unsupported in Hc; [done | tauto | tauto | done].
Qed.

Section FromEnv.
Context {Remote : Type} {ctors : Constructors Remote}.
Implicit Types (w : World Remote).

(** X8. [QuickClientFromEnv] fails either with the error of [ConfigFromEnv],
    and then no provider is constructed, or with the wrapped error of a
    provider constructor: the configuration errors of [NewClient] cannot
    occur for a configuration read from the environment. *)
Theorem QuickClientFromEnv_errors (os : OS) w :
  (forall err : Err,
     ConfigFromEnv os = inr err -> QuickClientFromEnv os w = (inr err, w)) /\
  (forall e : Err,
     fst (QuickClientFromEnv os w) = inr e ->
     ConfigFromEnv os = inr e \/
     exists cause : Err,
       e = wrapError ("failed to create provider: " +:+ Error cause) cause).
Proof.
  split.
  - intros err E. unfold QuickClientFromEnv. by rewrite E.
  - intros e He. unfold QuickClientFromEnv in He.
    destruct (ConfigFromEnv os) as [config | err] eqn:Hc.
    + right.
      assert (exists r : Provider Remote + Err,
                fst (NewClient config w) = NewClient_finish r) as [r Hr].
      { destruct (ConfigFromEnv_selects os config Hc)
          as [(Hn & outlook & Ho) | (Hn & gmail & Hg)].
        - rewrite (NewClient_outlook config w outlook Hn Ho).
          destruct (newOutlookProvider outlook _) as [r w']. by exists r.
        - rewrite (NewClient_gmail config w gmail Hn Hg).
          destruct (newGmailProvider gmail _) as [r w']. by exists r. }
      rewrite Hr in He. destruct r as [p | cause]; [done |].
      injection He as <-. by exists cause.
    + left. cbn in He. by injection He as <-.
Qed.
End FromEnv.

(** ** More on the encoder *)

Lemma encodeAt_urlSafe (i : Z) :
  0 <= i < 64 -> urlSafeChar (encodeAt URLEncoding i).
Proof.
  intros Hi.
  assert (forallb
            (fun n =>
               existsb (Ascii.eqb (encodeAt URLEncoding (Z.of_nat n)))
                 (chars encodeURL))
            (seq 0 64) = true)
    as Hall by (vm_compute; reflexivity).
  rewrite forallb_forall in Hall. specialize (Hall (Z.to_nat i)).
  rewrite Z2Nat.id in Hall by lia.
  assert (In (Z.to_nat i) (seq 0 64)) as Hin by (apply in_seq; lia).
  apply Hall in Hin. apply existsb_exists in Hin as (c & Hc & Heq).
  apply Ascii.eqb_eq in Heq as ->. left. by apply list_elem_of_In.
Qed.

Lemma EncodeToString_urlSafe (src : list byte) :
  Forall urlSafeChar (chars (EncodeToString URLEncoding src)).
Proof.
  assert (urlSafeChar StdPadding) as Hp by (by right).
  induction src as [|b0|b0 b1|b0 b1 b2 rest IH] using list_ind3;
    cbn [EncodeToString]; unfold padding;
    cbn [padChar URLEncoding repeat string_of_list_ascii
         list_ascii_of_string];
    repeat first [ apply Forall_nil_2 | apply Forall_cons_2 ];
    try first [ apply encodeAt_urlSafe, sextet_range
              | apply encodeAt_urlSafe, sextet_range0 | exact Hp | exact IH ].
Qed.

(** The length of a padded encoding: four characters for every three bytes
    or part of them. *)
Lemma EncodeToString_length (enc : Encoding) (pad : ascii)
    (src : list byte) :
  padChar enc = Some pad ->
  String.length (EncodeToString enc src) =
    (4 * ((length src + 2) / 3))%nat.
Proof.
  intros Hpad.
  induction src as [|b0|b0 b1|b0 b1 b2 rest IH] using list_ind3.
  - reflexivity.
  - cbn [EncodeToString]. unfold padding. rewrite Hpad. reflexivity.
  - cbn [EncodeToString]. unfold padding. rewrite Hpad. reflexivity.
  - cbn [EncodeToString String.length length]. rewrite IH.
    replace (S (S (S (length rest))) + 2)%nat
      with (1 * 3 + (length rest + 2))%nat by lia.
    rewrite Nat.div_add_l by lia. lia.
Qed.

Section EncoderMore.
Context {Remote : Type} `{UnicodeTables}.
Implicit Types (g : gmailProvider Remote) (w : World Remote) (msg : Message).

(** X9. The [Raw] field of every message [createMessage] builds is padded
    base64url text: its characters are of the URL alphabet or [=], its
    length is a multiple of four, and it decodes to the RFC 2822 text. *)
Theorem createMessage_Raw_base64url g msg w :
  let raw := Raw (fst (fst (createMessage g msg w))) in
  Forall urlSafeChar (chars raw) /\
  (String.length raw mod 4 = 0)%nat /\
  DecodeString URLEncoding raw =
    Some (list_byte_of_string (fst (messageString g msg w))).
Proof.
  cbv zeta. split; [| split; [| apply createMessage_Raw]];
    rewrite createMessage_unfold; cbn [fst Raw].
  - apply EncodeToString_urlSafe.
  - rewrite (EncodeToString_length URLEncoding StdPadding) by done.
    rewrite Nat.mul_comm. apply Nat.Div0.mod_mul.
Qed.
End EncoderMore.

Lemma writeEncoded_full_lines (encoded : string) (i : nat)
    (message : Builder) :
  exists lines : list string,
    writeEncoded encoded i message = message +:+ joinLines lines /\
    concat (chars <$> lines) = drop i (chars encoded) /\
    length lines = ((String.length encoded - i + 75) / 76)%nat /\
    fullLines lines.
Proof.
  funelim (writeEncoded encoded i message).
  - clear Heq Heqcall. destruct H as (lines & Hw & Hc & Hn & Hf).
    match type of Hw with context [String.substring i ?n encoded] =>
      assert (n = Nat.min 76 (String.length encoded - i)) as Hmin
        by (destruct (decide (String.length encoded < i + 76)%nat); lia);
      rewrite Hmin in *; clear Hmin
    end.
    set (first :=
           String.substring i (Nat.min 76 (String.length encoded - i))
             encoded) in *.
    assert (String.length first = Nat.min 76 (String.length encoded - i))
      as Hlen.
    { unfold first. rewrite <- chars_length, chars_substring.
      rewrite length_take, length_drop, chars_length. lia. }
    exists (first :: lines). split; [| split; [| split]].
    + rewrite Hw. unfold WriteString, joinLines, strcat.
      cbn [fmap list_fmap foldr]. by rewrite !string_app_assoc.
    + cbn [fmap list_fmap concat]. rewrite Hc. unfold first.
      rewrite chars_substring.
      rewrite <- (take_drop 76 (drop i (chars encoded))) at 2.
      rewrite drop_drop. f_equal.
      rewrite <- chars_length, <- length_drop.
      destruct (Nat.min_spec 76 (length (drop i (chars encoded))))
        as [[? ->] | [? ->]]; [done |].
      by rewrite !take_ge by lia.
    + cbn [length]. rewrite Hn.
      destruct (decide (String.length encoded - i < 76)%nat) as [Hs | Hs].
      * replace (String.length encoded - (i + 76))%nat with 0%nat by lia.
        replace (String.length encoded - i + 75)%nat
          with (1 * 76 + (String.length encoded - i - 1))%nat by lia.
        rewrite Nat.div_add_l by lia.
        rewrite (Nat.div_small (String.length encoded - i - 1)) by lia.
        reflexivity.
      * replace (String.length encoded - i + 75)%nat
          with (1 * 76 + (String.length encoded - (i + 76) + 75))%nat
          by lia.
        rewrite Nat.div_add_l by lia. lia.
    + intros [|k] l' Hl Hk.
      * injection Hl as <-. rewrite Hlen. cbn [length] in Hk.
        assert (0 < length lines)%nat as Hpos by lia. rewrite Hn in Hpos.
        destruct (decide (String.length encoded - (i + 76) = 0)%nat)
          as [E | E]; [| lia].
        rewrite E in Hpos. cbn in Hpos. lia.
      * cbn [length] in Hk. apply (Hf k l' Hl). lia.
  - exists []. split; [by rewrite string_app_nil_r |]. split; [| split].
    + cbn. rewrite drop_ge; [done |]. rewrite chars_length. lia.
    + cbn [length]. symmetry. apply Nat.div_small. lia.
    + intros k l' Hl. by rewrite lookup_nil in Hl.
Qed.

Section AttachmentLines.
Context {Remote : Type} `{UnicodeTables}.
Implicit Types (g : gmailProvider Remote).

(** X10. The content of an attachment of [n] bytes is written as
    [4 * ceil (n / 3)] base64 characters cut into lines of exactly 76
    characters, the last line alone being possibly shorter; an empty content
    gives no content line at all. *)
Theorem addAttachment_lines g (message : Builder) (att : Attachment)
    (boundary : string) :
  exists lines : list string,
    addAttachment g message att boundary =
      message +:+
      attachmentPart boundary (resolvedMimeType att) (Filename att) lines /\
    strcat lines = EncodeToString StdEncoding (Content att) /\
    String.length (strcat lines) =
      (4 * ((length (Content att) + 2) / 3))%nat /\
    length lines =
      ((4 * ((length (Content att) + 2) / 3) + 75) / 76)%nat /\
    fullLines lines /\
    (Content att = [] -> lines = []).
Proof.
  unfold addAttachment. fold (resolvedMimeType att).
  match goal with |- context [writeEncoded ?e 0 ?b] =>
    destruct (writeEncoded_full_lines e 0 b) as (lines & Hw & Hc & Hn & Hf)
  end.
  rewrite drop_0 in Hc. rewrite Nat.sub_0_r in Hn.
  assert (strcat lines = EncodeToString StdEncoding (Content att)) as Hs
    by (apply chars_inj; by rewrite chars_strcat).
  pose proof (EncodeToString_length StdEncoding StdPadding (Content att)
                eq_refl) as Hlen.
  exists lines. repeat split.
  - rewrite Hw. unfold attachmentPart, WriteString.
    by rewrite !string_app_assoc.
  - done.
  - by rewrite Hs.
  - by rewrite Hn, Hlen.
  - done.
  - intros E. rewrite E in Hn. cbn in Hn. by destruct lines.
Qed.
End AttachmentLines.






Section HeaderLines.
Context {Remote : Type} `{UnicodeTables}.
Implicit Types (g : gmailProvider Remote) (w : World Remote) (msg : Message).


End HeaderLines.

(** ** More on content types *)

Lemma lowerByte_dot (c : ascii) :
  bool_decide (lowerByte c = "."%char) = bool_decide (c = "."%char).
Proof.
  destruct c as [[] [] [] [] [] [] [] []]; vm_compute; reflexivity.
Qed.

Lemma lowerByte_separator (c : ascii) :
  IsPathSeparator (lowerByte c) = IsPathSeparator c.
Proof.
  destruct c as [[] [] [] [] [] [] [] []]; vm_compute; reflexivity.
Qed.

Lemma lowerByte_idempotent (c : ascii) : lowerByte (lowerByte c) = lowerByte c.
Proof.
  destruct c as [[] [] [] [] [] [] [] []]; vm_compute; reflexivity.
Qed.

Lemma lowerByte_ascii (c : ascii) :
  isASCIIByte (lowerByte c) = isASCIIByte c.
Proof.
  destruct c as [[] [] [] [] [] [] [] []]; vm_compute; reflexivity.
Qed.

Lemma lowerASCII_length (s : string) :
  String.length (lowerASCII s) = String.length s.
Proof. induction s as [|c s IH]; cbn; [done | by rewrite IH]. Qed.

Lemma lowerASCII_get (i : nat) (s : string) :
  String.get i (lowerASCII s) = lowerByte <$> String.get i s.
Proof. revert i. induction s as [|c s IH]; intros [|i]; cbn; auto. Qed.

Lemma lowerASCII_substring (i n : nat) (s : string) :
  String.substring i n (lowerASCII s) = lowerASCII (String.substring i n s).
Proof.
  revert i n.
  induction s as [|c s IH]; intros [|i] [|n]; cbn; rewrite ?IH; done.
Qed.

Lemma lowerASCII_idempotent (s : string) :
  lowerASCII (lowerASCII s) = lowerASCII s.
Proof.
  induction s as [|c s IH]; cbn [lowerASCII]; [done |].
  by rewrite lowerByte_idempotent, IH.
Qed.

Lemma lowerASCII_isASCII (s : string) : isASCII (lowerASCII s) = isASCII s.
Proof.
  induction s as [|c s IH]; cbn [isASCII lowerASCII]; [done |].
  by rewrite lowerByte_ascii, IH.
Qed.

Lemma isASCII_substring (i n : nat) (s : string) :
  isASCII s = true -> isASCII (String.substring i n s) = true.
Proof.
  revert i n. induction s as [|c s IH]; intros [|i] [|n]; cbn; try done.
  - intros [Hc Hs]%andb_prop. rewrite Hc. by apply IH.
  - intros [Hc Hs]%andb_prop. by apply IH.
  - intros [Hc Hs]%andb_prop. by apply IH.
Qed.

Lemma ExtFrom_lowerASCII (path : string) (n : nat) :
  ExtFrom (lowerASCII path) n = lowerASCII (ExtFrom path n).
Proof.
  induction n as [|i IH]; [done |]. cbn [ExtFrom].
  rewrite lowerASCII_get. destruct (String.get i path) as [c|]; [| done].
  cbn [fmap option_fmap option_map]. rewrite lowerByte_separator, lowerByte_dot.
  destruct (IsPathSeparator c); [done |].
  case_bool_decide; [| exact IH].
  by rewrite lowerASCII_substring, lowerASCII_length.
Qed.

Lemma ExtFrom_isASCII (path : string) (n : nat) :
  isASCII path = true -> isASCII (ExtFrom path n) = true.
Proof.
  intros Hp. induction n as [|i IH]; [done |]. cbn [ExtFrom].
  destruct (String.get i path) as [c|]; [| done].
  destruct (IsPathSeparator c); [done |].
  case_bool_decide; [by apply isASCII_substring | exact IH].
Qed.

Lemma substring_app_r (s t : string) (i n : nat) :
  String.substring (String.length s + i) n (s +:+ t) = String.substring i n t.
Proof.
  apply chars_inj. rewrite !chars_substring, chars_app.
  rewrite <- drop_drop, drop_app_length'; [done |]. by rewrite chars_length.
Qed.

(** The extension is that of the last element of the path. *)
Lemma Ext_last_element (dir name : string) :
  Ext (dir +:+ "/" +:+ name) = Ext name.
Proof.
  unfold Ext. rewrite <- string_app_assoc.
  set (pre := dir +:+ "/"). rewrite string_app_length.
  generalize (String.length name) as n.
  induction n as [|i IH].
  - rewrite Nat.add_0_r. unfold pre. rewrite string_app_length.
    cbn [String.length]. rewrite Nat.add_1_r. cbn [ExtFrom].
    rewrite string_app_assoc.
    rewrite <- (Nat.add_0_r (String.length dir)), get_app_r. reflexivity.
  - rewrite Nat.add_succ_r. cbn [ExtFrom]. rewrite get_app_r.
    destruct (String.get i name) as [c|]; [| done].
    destruct (IsPathSeparator c); [done |].
    case_bool_decide; [| exact IH].
    rewrite substring_app_r, string_app_length. f_equal. lia.
Qed.

Section ContentTypesMore.
Context `{UnicodeTables}.

(** X12. The content type does not depend on the case of the letters of an
    ASCII file name. *)
Theorem getContentType_case_insensitive (filename : string) :
  isASCII filename = true ->
  getContentType (lowerASCII filename) = getContentType filename.
Proof.
  intros Ha. unfold getContentType, Ext, ToLower.
  rewrite lowerASCII_length, ExtFrom_lowerASCII.
  rewrite lowerASCII_isASCII, lowerASCII_idempotent.
  by rewrite (ExtFrom_isASCII filename _ Ha).
Qed.

(** X13. The content type depends on the last element of the path only: a
    dot in a directory name is no extension. *)
Theorem getContentType_last_element (dir name : string) :
  getContentType (dir +:+ "/" +:+ name) = getContentType name.
Proof. unfold getContentType. by rewrite Ext_last_element. Qed.
End ContentTypesMore.

(** ** The Outlook provider *)

Lemma take_S_insert {A} (l : list A) (i : nat) (x : A) :
  (i < length l)%nat -> take (S i) (<[i := x]> l) = take i l ++ [x].
Proof.
  intros Hi. rewrite (take_S_r _ _ x) by (by apply list_lookup_insert_eq).
  by rewrite take_insert_ge by lia.
Qed.

Lemma createRecipients_loop_PerLoop (addr i : nat) (addresses : list string)
    (recipients : list (option models_Recipient)) (h : Heap) :
  (i + length addresses = length recipients)%nat ->
  createRecipients_loop PerLoop addr i addresses recipients h =
    (take i recipients ++ replicate (length addresses) (recipientAt addr),
     match last addresses with
     | Some a => <[addr := a]> h
     | None => h
     end).
Proof.
  revert i recipients h.
  induction addresses as [|a rest IH]; intros i recipients h Hlen.
  - cbn [createRecipients_loop length replicate last].
    cbn [length] in Hlen. rewrite Nat.add_0_r in Hlen.
    by rewrite Hlen, firstn_all, app_nil_r.
  - cbn [createRecipients_loop length] in *. unfold assign.
    rewrite IH by (rewrite length_insert; lia).
    rewrite take_S_insert by lia. rewrite <- app_assoc. cbn [app replicate].
    f_equal. rewrite last_cons.
    destruct (last rest) as [b|]; [| done].
    by rewrite list_insert_insert_eq.
Qed.

Lemma createRecipients_loop_PerIteration (addr i : nat)
    (addresses : list string)
    (recipients : list (option models_Recipient)) (h : Heap) :
  (i + length addresses = length recipients)%nat ->
  createRecipients_loop PerIteration addr i addresses recipients h =
    (take i recipients ++
       ((fun k => recipientAt (length h + k)) <$> seq 0 (length addresses)),
     h ++ addresses).
Proof.
  revert i recipients h.
  induction addresses as [|a rest IH]; intros i recipients h Hlen.
  - cbn [createRecipients_loop length seq fmap list_fmap].
    cbn [length] in Hlen. rewrite Nat.add_0_r in Hlen.
    by rewrite Hlen, firstn_all, !app_nil_r.
  - cbn [createRecipients_loop length] in *. unfold new.
    rewrite IH by (rewrite length_insert; lia).
    rewrite take_S_insert by lia. rewrite <- !app_assoc. cbn [app].
    f_equal. f_equal. cbn [seq fmap list_fmap]. rewrite Nat.add_0_r.
    f_equal. rewrite <- seq_shift, <- list_fmap_compose.
    apply list_fmap_ext. intros _ k _. cbn. rewrite length_app. cbn.
    f_equal. lia.
Qed.

(** The result of [createRecipients], and the heap it leaves. *)
Lemma createRecipients_PerLoop (addresses : list string) (h : Heap) :
  createRecipients PerLoop addresses h =
    (replicate (length addresses) (recipientAt (length h)),
     h ++ [default "" (last addresses)]).
Proof.
  unfold createRecipients, new.
  rewrite createRecipients_loop_PerLoop by (by rewrite length_replicate).
  cbn [take app]. f_equal.
  destruct (last addresses) as [a|]; [| done]. cbn [default].
  rewrite insert_app_r_alt by lia. by rewrite Nat.sub_diag.
Qed.

Lemma createRecipients_PerIteration (addresses : list string) (h : Heap) :
  createRecipients PerIteration addresses h =
    ((fun k => recipientAt (length h + k)) <$> seq 0 (length addresses),
     h ++ addresses).
Proof.
  unfold createRecipients.
  by rewrite createRecipients_loop_PerIteration
    by (by rewrite length_replicate).
Qed.

Lemma readRecipient_at (h : Heap) (p : nat) :
  readRecipient h (recipientAt p) = h !! p.
Proof. reflexivity. Qed.

(** What [createRecipients] built reads the same in every later heap. *)
Lemma createRecipients_read (lv : LoopVars) (addresses : list string)
    (h : Heap) :
  h `prefix_of` snd (createRecipients lv addresses h) /\
  (forall h'' : Heap,
     snd (createRecipients lv addresses h) `prefix_of` h'' ->
     readRecipient h'' <$> fst (createRecipients lv addresses h) =
       recipientsRead lv addresses).
Proof.
  destruct lv; cbn [recipientsRead].
  - rewrite createRecipients_PerLoop. cbn [fst snd].
    split; [by apply prefix_app_r |].
    intros h'' [ext ->]. rewrite fmap_replicate, readRecipient_at.
    destruct addresses as [|a rest]; [done |].
    rewrite <- app_assoc. rewrite lookup_app_r by lia.
    rewrite Nat.sub_diag. cbn [app lookup list_lookup].
    destruct (last (a :: rest)) as [b|] eqn:E; [done |].
    by apply last_None in E.
  - rewrite createRecipients_PerIteration. cbn [fst snd].
    split; [by apply prefix_app_r |].
    intros h'' [ext ->]. rewrite <- list_fmap_compose.
    apply list_eq. intros k. rewrite !list_lookup_fmap.
    destruct (decide (k < length addresses)%nat) as [Hk | Hk].
    + rewrite lookup_seq_lt by done. cbn [fmap option_fmap option_map].
      unfold compose. rewrite readRecipient_at.
      rewrite <- app_assoc, lookup_app_r by lia.
      replace (length h + (0 + k) - length h)%nat with k by lia.
      rewrite lookup_app_l by done.
      by destruct (addresses !! k) eqn:E;
        [| apply lookup_ge_None in E; lia].
    + rewrite lookup_seq_ge by lia.
      by rewrite lookup_ge_None_2 by lia.
Qed.

Lemma createRecipients_length (lv : LoopVars) (addresses : list string)
    (h : Heap) :
  length (fst (createRecipients lv addresses h)) = length addresses.
Proof.
  destruct lv.
  - rewrite createRecipients_PerLoop. cbn [fst]. by rewrite length_replicate.
  - rewrite createRecipients_PerIteration. cbn [fst].
    by rewrite length_fmap, length_seq.
Qed.

(** X14. [createRecipients] returns one recipient per address. When the
    loop has a single variable (Go before 1.22), every recipient points to
    that variable and so reads as the last address of the list; when each
    iteration has its own variable, each recipient reads as its own address.
    Cells that existed before are not touched. *)
Theorem createRecipients_addresses (lv : LoopVars)
    (addresses : list string) (h : Heap) :
  let rs := fst (createRecipients lv addresses h) in
  let h' := snd (createRecipients lv addresses h) in
  length rs = length addresses /\
  h `prefix_of` h' /\
  (forall h'' : Heap,
     h' `prefix_of` h'' ->
     readRecipient h'' <$> rs =
       match lv with
       | PerLoop => replicate (length addresses) (last addresses)
       | PerIteration => Some <$> addresses
       end).
Proof.
  cbv zeta. split; [apply createRecipients_length |].
  destruct (createRecipients_read lv addresses h) as [Hp Hr].
  split; [exact Hp |]. intros h'' Hh. rewrite (Hr h'' Hh). by destruct lv.
Qed.

Section AttachFiles.
Context `{UnicodeTables}.

Lemma attachFiles_loop_PerLoop (att : nat) (atts : list Attachment)
    (acc : list models_FileAttachment) (h : Heap) :
  (att < length h)%nat ->
  attachFiles_loop PerLoop att atts acc h =
    (acc ++ imap (fun k a => attachmentAt att (length h + k) a) atts,
     match last atts with
     | Some a => <[att := Filename a]> h
     | None => h
     end ++ (resolvedMimeType <$> atts)).
Proof.
  revert acc h. induction atts as [|a rest IH]; intros acc h Hatt.
  - cbn. by rewrite !app_nil_r.
  - cbn [attachFiles_loop]. fold (resolvedMimeType a). unfold assign, new.
    rewrite length_insert.
    rewrite IH by (rewrite length_app, length_insert; lia).
    rewrite <- app_assoc. cbn [app imap]. rewrite Nat.add_0_r.
    f_equal.
    + f_equal. f_equal. apply imap_ext. intros k x _. cbn.
      rewrite length_app, length_insert. cbn. f_equal. lia.
    + rewrite last_cons. cbn [fmap list_fmap].
      destruct (last rest) as [b|].
      * rewrite insert_app_l by (rewrite length_insert; lia).
        rewrite list_insert_insert_eq. by rewrite <- app_assoc.
      * by rewrite <- app_assoc.
Qed.

Lemma attachFiles_loop_PerIteration (att : nat) (atts : list Attachment)
    (acc : list models_FileAttachment) (h : Heap) :
  attachFiles_loop PerIteration att atts acc h =
    (acc ++
       imap (fun k a =>
               attachmentAt (length h + 2 * k) (length h + 2 * k + 1) a)
         atts,
     h ++ attachmentCells atts).
Proof.
  revert acc h. induction atts as [|a rest IH]; intros acc h.
  - cbn. by rewrite !app_nil_r.
  - cbn [attachFiles_loop]. fold (resolvedMimeType a). unfold new.
    rewrite IH. rewrite <- !app_assoc. cbn [app imap].
    rewrite Nat.mul_0_r, Nat.add_0_r. rewrite length_app. cbn [length].
    f_equal. f_equal. f_equal. apply imap_ext. intros k x _. cbn.
    rewrite !length_app. cbn [length]. f_equal; lia.
Qed.

Lemma readAttachment_PerLoop (att : nat) (name : string)
    (atts : list Attachment) (h ext : Heap) :
  (att < length h)%nat -> h !! att = Some name ->
  readAttachment (h ++ (resolvedMimeType <$> atts) ++ ext) <$>
    imap (fun k a => attachmentAt att (length h + k) a) atts =
  (fun a => (Some name, Content a, Some (resolvedMimeType a))) <$> atts.
Proof.
  revert h. induction atts as [|a rest IH]; intros h Hatt Hname; [done |].
  cbn [imap fmap list_fmap app]. f_equal.
  - unfold readAttachment, attachmentAt. cbn.
    rewrite lookup_app_l by done. rewrite Hname.
    rewrite Nat.add_0_r. by rewrite list_lookup_middle.
  - specialize (IH (h ++ [resolvedMimeType a])).
    rewrite <- app_assoc in IH. cbn [app] in IH.
    rewrite <- IH.
    + f_equal. apply imap_ext. intros k x _. cbn.
      rewrite length_app. cbn. f_equal. lia.
    + rewrite length_app. lia.
    + by rewrite lookup_app_l.
Qed.

Lemma readAttachment_PerIteration (atts : list Attachment) (h ext : Heap) :
  readAttachment (h ++ attachmentCells atts ++ ext) <$>
    imap (fun k a =>
            attachmentAt (length h + 2 * k) (length h + 2 * k + 1) a) atts =
  (fun a => (Some (Filename a), Content a, Some (resolvedMimeType a))) <$>
    atts.
Proof.
  revert h. induction atts as [|a rest IH]; intros h; [done |].
  cbn [imap fmap list_fmap]. f_equal.
  - unfold readAttachment, attachmentAt, attachmentCells. cbn.
    rewrite Nat.add_0_r. rewrite list_lookup_middle by done.
    rewrite lookup_app_r by lia.
    replace (length h + 1 - length h)%nat with 1%nat by lia. done.
  - specialize (IH (h ++ [Filename a; resolvedMimeType a])).
    unfold attachmentCells in *. cbn [fmap list_fmap concat].
    rewrite <- !app_assoc in *. cbn [app] in *. rewrite <- IH.
    f_equal. apply imap_ext. intros k x _. cbn.
    rewrite length_app. cbn [length]. f_equal; lia.
Qed.
End AttachFiles.

Section OutlookMessage.
Context `{UnicodeTables}.

Lemma attachFiles_read (lv : LoopVars) (message : models_Message)
    (atts : list Attachment) (h : Heap) :
  atts <> [] ->
  exists (fas : list models_FileAttachment) (h' : Heap),
    attachFiles lv message atts h = (SetAttachments fas message, None, h') /\
    h `prefix_of` h' /\
    (forall h'' : Heap,
       h' `prefix_of` h'' ->
       readAttachment h'' <$> fas = attachmentsRead lv atts).
Proof.
  intros Hne. unfold attachFiles.
  destruct atts as [|a0 rest0] eqn:Ea; [done |]. rewrite <- Ea in *.
  assert (Nat.eqb (length atts) 0 = false) as -> by (by rewrite Ea).
  clear Hne. destruct lv; unfold new.
  - rewrite attachFiles_loop_PerLoop by (rewrite length_app; cbn; lia).
    cbn [app]. eexists _, _. split; [reflexivity |].
    destruct (last atts) as [b|] eqn:El;
      [| apply last_None in El; congruence].
    rewrite insert_app_r_alt by lia. rewrite Nat.sub_diag.
    cbn [insert list_insert]. split.
    + rewrite <- app_assoc. by apply prefix_app_r.
    + intros h'' [ext ->]. unfold attachmentsRead.
      rewrite <- (app_assoc (h ++ [Filename b])).
      rewrite length_app. cbn [length].
      pose proof (readAttachment_PerLoop (length h) (Filename b) atts
                    (h ++ [Filename b]) ext) as Hr.
      rewrite length_app in Hr. cbn [length] in Hr. rewrite El.
      cbn [fmap option_fmap option_map]. rewrite Hr; [done | lia |].
      by rewrite list_lookup_middle.
  - rewrite attachFiles_loop_PerIteration. cbn [app].
    eexists _, _. split; [reflexivity |]. split; [by apply prefix_app_r |].
    intros h'' [ext ->]. rewrite <- app_assoc.
    by rewrite readAttachment_PerIteration.
Qed.

(** X15. [attachFiles] never fails. Without attachments it leaves the
    message as it is. Otherwise it sets one file attachment per attachment,
    in order, each with its own bytes and content type; with a single loop
    variable (Go before 1.22) every one of them is named as the last
    attachment, with a variable per iteration each keeps its own name. *)
Theorem attachFiles_attachments (lv : LoopVars) (message : models_Message)
    (atts : list Attachment) (h : Heap) :
  let message' := fst (fst (attachFiles lv message atts h)) in
  let h' := snd (attachFiles lv message atts h) in
  snd (fst (attachFiles lv message atts h)) = None /\
  h `prefix_of` h' /\
  (atts = [] -> message' = message /\ h' = h) /\
  (atts <> [] ->
   exists fas : list models_FileAttachment,
     message' = SetAttachments fas message /\
     length fas = length atts /\
     forall h'' : Heap,
       h' `prefix_of` h'' ->
       readAttachment h'' <$> fas =
         (fun a =>
            (match lv with
             | PerLoop => Filename <$> last atts
             | PerIteration => Some (Filename a)
             end, Content a, Some (resolvedMimeType a))) <$> atts).
Proof.
  cbv zeta. destruct atts as [|a rest] eqn:Ea.
  - cbn. repeat split; done.
  - rewrite <- Ea.
    destruct (attachFiles_read lv message atts h) as (fas & h' & E & Hp & Hr);
      [by rewrite Ea |].
    rewrite E. cbn [fst snd]. split; [done |]. split; [done |].
    split; [by rewrite Ea |]. intros _. exists fas. split; [done |].
    split; [| exact Hr].
    specialize (Hr h' (reflexivity _)).
    apply (f_equal length) in Hr. unfold attachmentsRead in Hr.
    by rewrite !length_fmap in Hr.
Qed.
End OutlookMessage.

Section OutlookSend.
Context `{UnicodeTables}.

Lemma readRecipients_Some (h : Heap)
    (rs : list (option models_Recipient)) :
  readRecipients h (Some rs) = Some (readRecipient h <$> rs).
Proof. reflexivity. Qed.

Lemma constructMessage_read (lv : LoopVars) (msg : Message) (h : Heap) :
  exists (m : models_Message) (h' : Heap),
    constructMessage lv msg h = (m, h') /\
    h `prefix_of` h' /\
    msg_attachments m = None /\
    (forall h'' : Heap,
       h' `prefix_of` h'' ->
       readMessage h'' m =
         {| wire_subject := Some (Subject msg);
            wire_bodyType :=
              Some (if HTML msg then HTML_BODYTYPE else TEXT_BODYTYPE);
            wire_body := Some (Body msg);
            wire_to := Some (recipientsRead lv (To msg));
            wire_cc := whenNotEmpty (Cc msg) (recipientsRead lv (Cc msg));
            wire_bcc := whenNotEmpty (Bcc msg) (recipientsRead lv (Bcc msg));
            wire_attachments := None |}).
Proof.
  unfold constructMessage, new. rewrite length_app. cbn [length].
  set (h2 := (h ++ [Subject msg]) ++ [Body msg]).
  assert (h `prefix_of` h2) as Hp2
    by (unfold h2; rewrite <- app_assoc; by apply prefix_app_r).
  assert (forall h'', h2 `prefix_of` h'' ->
            h'' !! length h = Some (Subject msg) /\
            h'' !! (length h + 1)%nat = Some (Body msg)) as Hcells.
  { intros h'' [ext ->]. unfold h2. rewrite <- !app_assoc. cbn [app].
    split; [by rewrite list_lookup_middle |].
    rewrite lookup_app_r by lia.
    by replace (length h + 1 - length h)%nat with 1%nat by lia. }
  destruct (createRecipients_read lv (To msg) h2) as [Hpto Hrto].
  destruct (createRecipients lv (To msg) h2) as [to h3]. cbn [fst snd] in *.
  assert (exists (cc : option (list (option models_Recipient))) (h4 : Heap),
            h3 `prefix_of` h4 /\
            (if (0 <? length (Cc msg))%nat
             then let '(cc, h) := createRecipients lv (Cc msg) h3 in
                  (Some cc, h)
             else (None, h3)) = (cc, h4) /\
            forall h'', h4 `prefix_of` h'' ->
              readRecipients h'' cc =
                whenNotEmpty (Cc msg) (recipientsRead lv (Cc msg)))
    as (cc & h4 & Hp4 & Ecc & Hrcc).
  { destruct (Cc msg) as [|c0 cs] eqn:Ec.
    - exists None, h3. by repeat split.
    - rewrite <- Ec.
      destruct (createRecipients_read lv (Cc msg) h3) as [Hp Hr].
      destruct (createRecipients lv (Cc msg) h3) as [cc h4].
      cbn [fst snd] in *. exists (Some cc), h4.
      split; [done |]. split; [by rewrite Ec |].
      intros h'' Hh. rewrite readRecipients_Some, (Hr h'' Hh).
      by rewrite Ec. }
  assert (exists (bcc : option (list (option models_Recipient))) (h5 : Heap),
            h4 `prefix_of` h5 /\
            (if (0 <? length (Bcc msg))%nat
             then let '(bcc, h) := createRecipients lv (Bcc msg) h4 in
                  (Some bcc, h)
             else (None, h4)) = (bcc, h5) /\
            forall h'', h5 `prefix_of` h'' ->
              readRecipients h'' bcc =
                whenNotEmpty (Bcc msg) (recipientsRead lv (Bcc msg)))
    as (bcc & h5 & Hp5 & Ebcc & Hrbcc).
  { destruct (Bcc msg) as [|c0 cs] eqn:Ec.
    - exists None, h4. by repeat split.
    - rewrite <- Ec.
      destruct (createRecipients_read lv (Bcc msg) h4) as [Hp Hr].
      destruct (createRecipients lv (Bcc msg) h4) as [bcc h5].
      cbn [fst snd] in *. exists (Some bcc), h5.
      split; [done |]. split; [by rewrite Ec |].
      intros h'' Hh. rewrite readRecipients_Some, (Hr h'' Hh).
      by rewrite Ec. }
  exists {| msg_subject := Some (length h);
            msg_body :=
              Some {| body_contentType :=
                        Some (if HTML msg then HTML_BODYTYPE
                              else TEXT_BODYTYPE);
                      body_content := Some (length h + 1)%nat |};
            msg_toRecipients := Some to;
            msg_ccRecipients := cc;
            msg_bccRecipients := bcc;
            msg_attachments := None |}, h5.
  split; [| split; [| split; [done |]]].
  - destruct (0 <? length (Cc msg))%nat.
    + destruct (createRecipients lv (Cc msg) h3) as [cc' h4'].
      injection Ecc as <- <-.
      destruct (0 <? length (Bcc msg))%nat.
      * destruct (createRecipients lv (Bcc msg) h4') as [bcc' h5'].
        by injection Ebcc as <- <-.
      * by injection Ebcc as <- <-.
    + injection Ecc as <- <-.
      destruct (0 <? length (Bcc msg))%nat.
      * destruct (createRecipients lv (Bcc msg) h3) as [bcc' h5'].
        by injection Ebcc as <- <-.
      * by injection Ebcc as <- <-.
  - do 3 (etrans; [eassumption |]). done.
  - intros h'' Hh.
    assert (h4 `prefix_of` h'') as Hh4 by (by etrans).
    assert (h3 `prefix_of` h'') as Hh3 by (by etrans).
    assert (h2 `prefix_of` h'') as Hh2 by (by etrans).
    destruct (Hcells h'' Hh2) as [Hs Hb].
    unfold readMessage. cbn [msg_subject msg_body msg_toRecipients
      msg_ccRecipients msg_bccRecipients msg_attachments body_contentType
      body_content readString readAttachments fmap option_fmap option_map].
    rewrite Hs, Hb, readRecipients_Some, (Hrto h'' Hh3), (Hrcc h'' Hh4),
      (Hrbcc h'' Hh).
    done.
Qed.

Lemma outlookProvider_Send_read {Remote} (lv : LoopVars)
    (o : outlookProvider Remote) (ctx : Context) (msg : Message) :
  exists (message : models_Message) (h : Heap),
    readMessage h message = outlookWire lv msg /\
    forall w : World Remote,
      outlookProvider_Send lv o ctx msg w =
        sendMail o ctx (From msg) message h w.
Proof.
  unfold outlookProvider_Send.
  destruct (constructMessage_read lv msg [])
    as (m & h1 & -> & _ & Hatt & Hread).
  destruct (Attachments msg) as [|a0 rest] eqn:Ea.
  - exists m, h1. split.
    + rewrite (Hread h1 (reflexivity _)). unfold outlookWire.
      by rewrite Ea.
    + intros w. unfold attachFiles. cbn [length Nat.eqb].
      unfold sendMail, mbind, M_bind, mret, M_ret. cbn.
      by destruct (Users_ByUserId_SendMail_Post _ _ _ _ _ _) as [[e|] w'].
  - rewrite <- Ea.
    destruct (attachFiles_read lv m (Attachments msg) h1)
      as (fas & h2 & -> & Hp & Hr); [by rewrite Ea |].
    exists (SetAttachments fas m), h2. split.
    + specialize (Hread h2 Hp). specialize (Hr h2 (reflexivity _)).
      unfold readMessage in *. destruct m; cbn in *.
      injection Hread as -> -> -> -> -> ->. unfold outlookWire.
      rewrite Hr. by rewrite Ea.
    + intros w. unfold sendMail, mbind, M_bind, mret, M_ret. cbn.
      by destruct (Users_ByUserId_SendMail_Post _ _ _ _ _ _) as [[e|] w'].
Qed.

(** X16. [outlookProvider.Send] never fails before the request: it posts
    once, to the mailbox of the sender, with save-to-sent-items set, a
    message that reads as subject, body with its type, recipients, and the
    attachments when there are any (cc and bcc are set only when not empty),
    and returns nil or the error of the request wrapped with the prefix
    failed to send email, never the one for attachments. With one loop
    variable (Go before 1.22) the addresses and the file names read as the
    last of their list. *)
Theorem outlookProvider_Send_request {Remote} (lv : LoopVars)
    (o : outlookProvider Remote) (ctx : Context) (msg : Message) :
  exists (message : models_Message) (h : Heap),
    readMessage h message = outlookWire lv msg /\
    forall w : World Remote,
      outlookProvider_Send lv o ctx msg w =
        sendMail o ctx (From msg) message h w /\
      (forall e : Err,
         (outlookProvider_Send lv o ctx msg w).1 <>
           Some (Errorf_w "failed to attach files: " e)).
Proof.
  destruct (outlookProvider_Send_read lv o ctx msg) as (m & h & Hr & Hs).
  exists m, h. split; [done |]. intros w. split; [done |].
  intros e. rewrite Hs. unfold sendMail. cbn [fst].
  by destruct (Users_ByUserId_SendMail_Post _ _ _ _ _ _).1.
Qed.
End OutlookSend.

Section GmailConstructor.
Context {Remote : Type} `{UnicodeTables} `{GoogleSDK Remote}
  `{MicrosoftSDK Remote}.

(** X17. Without a token [newGmailProvider] fails before it reaches the
    Gmail service: with the error of the credentials when they do not parse,
    otherwise with the request to authenticate first. The world is left as
    it was, and [NewClient] returns the error wrapped as failed to create
    provider, having noted the call of the constructor and nothing else. *)
Theorem newGmailProvider_requires_token (creds : list byte)
    (outlook : option OutlookConfig) (lv : LoopVars) (w : World Remote) :
  let cfg := {| CredentialsJSON := creds; TokenJSON := [] |} in
  let config :=
    {| ProviderName := "gmail"; Outlook := outlook; Gmail := Some cfg |} in
  let err :=
    match google_ConfigFromJSON creds with
    | inr e => Errorf_w "unable to parse credentials: " e
    | inl _ =>
        errorString
          ("gmail requires initial OAuth authentication" +:+
           " - please use the authentication helper")
    end in
  Vendor.newGmailProvider cfg w = (inr err, w) /\
  @NewClient Remote (packageConstructors lv) config w =
    (inr (wrapError ("failed to create provider: " +:+ Error err) err),
     snd (record (CallNewGmailProvider cfg) w)).
Proof.
  intros cfg config err.
  assert (forall w', Vendor.newGmailProvider cfg w' = (inr err, w')) as E.
  { intros w'. unfold Vendor.newGmailProvider, err.
    cbn [CredentialsJSON TokenJSON cfg length Nat.ltb Nat.leb].
    by destruct (google_ConfigFromJSON creds). }
  split; [apply E |].
  unfold NewClient, config. cbn [ProviderName Gmail].
  change (String.eqb "gmail" "outlook365") with false.
  change (String.eqb "gmail" "gmail") with true. cbv iota.
  unfold mbind, M_bind. cbn [record snd newGmailProvider packageConstructors].
  by rewrite E.
Qed.
End GmailConstructor.

(** ** The boundary token *)

Lemma string_of_uint_decimal (d : Decimal.uint) :
  Forall (fun c => decimalChar c = true) (chars (NilEmpty.string_of_uint d)).
Proof.
  induction d; cbn [NilEmpty.string_of_uint list_ascii_of_string];
    [constructor | by constructor ..].
Qed.

Lemma Sprintf_d_decimal (n : Z) :
  Forall (fun c => decimalChar c = true) (chars (Sprintf_d n)).
Proof.
  unfold Sprintf_d. destruct (Z.to_int n) as [d | d];
    cbn [NilZero.string_of_int list_ascii_of_string].
  - destruct d; try apply string_of_uint_decimal. by repeat constructor.
  - constructor; [done |].
    destruct d; try apply string_of_uint_decimal. by repeat constructor.
Qed.

Lemma to_int_not_nil (n : Z) :
  Z.to_int n <> Decimal.Pos Decimal.Nil /\
  Z.to_int n <> Decimal.Neg Decimal.Nil.
Proof.
  split; intros E; pose proof (DecimalZ.of_to n) as Hn; rewrite E in Hn;
    cbn in Hn; subst n; discriminate E.
Qed.

Lemma Sprintf_d_inj (a b : Z) : Sprintf_d a = Sprintf_d b -> a = b.
Proof.
  unfold Sprintf_d. intros E. apply DecimalZ.to_int_inj.
  destruct (to_int_not_nil a) as [Ha1 Ha2].
  destruct (to_int_not_nil b) as [Hb1 Hb2].
  pose proof (NilZero.isi _ Ha1 Ha2) as Ia.
  pose proof (NilZero.isi _ Hb1 Hb2) as Ib.
  rewrite E in Ia. rewrite Ia in Ib. by injection Ib.
Qed.

(** What follows the last occurrence of a separator is determined by the
    whole. *)
Lemma app_separator_inj {A} (c : A) (p1 p2 l1 l2 : list A) :
  c ∉ l1 -> c ∉ l2 -> p1 ++ c :: l1 = p2 ++ c :: l2 -> l1 = l2.
Proof.
  intros H1 H2. rewrite <- (reverse_involutive p1), <- (reverse_involutive p2).
  intros E. apply (f_equal reverse) in E.
  rewrite !reverse_app, !reverse_cons, !reverse_involutive in E.
  rewrite <- !app_assoc in E. cbn [app] in E.
  apply (inj reverse).
  revert E. generalize (reverse p1) (reverse p2).
  assert (c ∉ reverse l1) as R1 by (by rewrite elem_of_reverse).
  assert (c ∉ reverse l2) as R2 by (by rewrite elem_of_reverse).
  revert R1 R2. generalize (reverse l1) (reverse l2). clear.
  intros r1. induction r1 as [|x r1 IH]; intros [|y r2] R1 R2 q1 q2 E.
  - done.
  - injection E as -> _. destruct R2. by left.
  - injection E as <- _. destruct R1. by left.
  - injection E as -> E. f_equal. apply not_elem_of_cons in R1 as [_ R1].
    apply not_elem_of_cons in R2 as [_ R2]. by apply (IH r2 R1 R2 q1 q2).
Qed.

Section Boundary.
Context {Remote : Type} `{UnicodeTables}.
Implicit Types (g : gmailProvider Remote) (w : World Remote) (msg : Message).

Lemma closingBoundary_split (front : string) (n : Z) :
  chars (front +:+ closingBoundary ("boundary-" +:+ Sprintf_d n)) =
    chars (front +:+ "--boundar") ++
    "y"%char :: chars ("-" +:+ Sprintf_d n +:+ "--" +:+ CRLF).
Proof.
  unfold closingBoundary. rewrite !chars_app. cbn [app].
  rewrite <- !app_assoc. f_equal.
Qed.

Lemma boundary_tail_no_y (n : Z) :
  "y"%char ∉ chars ("-" +:+ Sprintf_d n +:+ "--" +:+ CRLF).
Proof.
  rewrite !chars_app. intros Hin.
  rewrite !elem_of_app in Hin.
  destruct Hin as [Hin | [Hin | [Hin | Hin]]].
  - by apply list_elem_of_singleton in Hin.
  - pose proof (Sprintf_d_decimal n) as Hd.
    rewrite Forall_forall in Hd. by specialize (Hd _ Hin).
  - cbn in Hin. by repeat (apply elem_of_cons in Hin as [Hin | Hin]; [done |]);
      apply elem_of_nil in Hin.
  - cbn in Hin. by repeat (apply elem_of_cons in Hin as [Hin | Hin]; [done |]);
      apply elem_of_nil in Hin.
Qed.

Lemma list_byte_of_string_inj (a b : string) :
  list_byte_of_string a = list_byte_of_string b -> a = b.
Proof.
  intros E. rewrite <- (string_of_list_byte_of_string a),
    <- (string_of_list_byte_of_string b). by rewrite E.
Qed.

(** X18. The boundary tells clock readings apart: a message with
    attachments encoded at two different clock readings gives two different
    texts and two different [Raw] fields, whatever the order of the
    headers. *)
Theorem boundary_distinguishes_clock_readings g msg w1 w2 :
  Attachments msg <> [] ->
  clock w1 <> clock w2 ->
  fst (messageString g msg w1) <> fst (messageString g msg w2) /\
  Raw (fst (fst (createMessage g msg w1))) <>
    Raw (fst (fst (createMessage g msg w2))).
Proof.
  intros Hatt Hclock.
  assert (fst (messageString g msg w1) <> fst (messageString g msg w2))
    as Htext.
  { intros E. apply Hclock.
    rewrite !messageString_multipart in E by done. cbn [fst] in E.
    apply (f_equal chars) in E. rewrite !closingBoundary_split in E.
    apply app_separator_inj in E; [| apply boundary_tail_no_y ..].
    rewrite !(chars_app "-"), !(chars_app (Sprintf_d _)) in E.
    apply app_inv_head, app_inv_tail, chars_inj in E.
    by apply Sprintf_d_inj. }
  split; [done |]. intros E. apply Htext.
  pose proof (createMessage_Raw g msg w1) as D1.
  pose proof (createMessage_Raw g msg w2) as D2.
  rewrite E, D2 in D1. injection D1 as D1.
  symmetry. by apply list_byte_of_string_inj.
Qed.
End Boundary.

(** ** The properties at sample values *)

Lemma QuickSend_accepts_any_recipient_witness :
  @QuickSend unit sampleConstructors "gmail"
    (GmailCredentials (Some sampleGmailConfig)) "a@x.com" "" "Hi" "Hello"
    (sampleWorld 0 []) =
    (let w2 := snd (@NewClient unit sampleConstructors sampleConfig
                      (sampleWorld 0 [])) in
     let ctx := {| Deadline := Some (clock w2 + 30000000000) |} in
     let msg :=
       {| From := "a@x.com"; To := [""]; Cc := []; Bcc := [];
          Subject := "Hi"; Body := "Hello"; HTML := false;
          Attachments := [] |} in
     let (r, w3) :=
       Send (provider sampleClient) ctx msg
         (snd (record (CallProviderSend ctx msg) w2)) in
     (r, snd (cancel ctx w3))).
Proof.
  apply (@QuickSend_accepts_any_recipient unit sampleConstructors "gmail"
           (GmailCredentials (Some sampleGmailConfig)) "a@x.com" "" "Hi"
           "Hello" sampleConfig sampleClient);
    [reflexivity | reflexivity | done | done | done].
Defined.

Lemma QuickSend_validates_after_construction_witness :
  exists err : Err,
    Validate (QuickSend_message "a@x.com" "b@y.com" "" "Hello") = Some err /\
    err <> errorString "at least one recipient is required" /\
    @QuickSend unit sampleConstructors "gmail"
      (GmailCredentials (Some sampleGmailConfig)) "a@x.com" "b@y.com" ""
      "Hello" (sampleWorld 0 []) =
      (let w2 := snd (@NewClient unit sampleConstructors sampleConfig
                        (sampleWorld 0 [])) in
       (Some (wrapError ("invalid message: " +:+ Error err) err),
        snd (cancel {| Deadline := Some (clock w2 + 30000000000) |} w2))).
Proof.
  apply (@QuickSend_validates_after_construction unit sampleConstructors
           "gmail" (GmailCredentials (Some sampleGmailConfig)) "a@x.com"
           "b@y.com" "" "Hello" sampleConfig sampleClient);
    [reflexivity | reflexivity | right; left; reflexivity].
Defined.

Lemma ConfigFromEnv_well_formed_witness :
  (ProviderName sampleEnvConfig = "outlook365" /\
   (Getenv sampleOS "EMAIL_PROVIDER" = "" \/
    Getenv sampleOS "EMAIL_PROVIDER" = "outlook365") /\
   Gmail sampleEnvConfig = None /\
   exists outlook : OutlookConfig,
     Outlook sampleEnvConfig = Some outlook /\
     TenantID outlook <> "" /\ ClientID outlook <> "" /\
     ClientSecret outlook <> "") \/
  (ProviderName sampleEnvConfig = "gmail" /\
   Getenv sampleOS "EMAIL_PROVIDER" = "gmail" /\
   Outlook sampleEnvConfig = None /\
   exists gmail : GmailConfig, Gmail sampleEnvConfig = Some gmail).
Proof.
  apply (ConfigFromEnv_well_formed sampleOS sampleEnvConfig).
  vm_compute. reflexivity.
Defined.

Lemma getContentType_case_insensitive_witness :
  @getContentType asciiTables (lowerASCII "Report.PDF") =
    @getContentType asciiTables "Report.PDF".
Proof.
  apply (@getContentType_case_insensitive asciiTables "Report.PDF").
  reflexivity.
Defined.

Lemma boundary_distinguishes_clock_readings_witness :
  fst (@messageString unit asciiTables sampleGmail reportMessage
         (sampleWorld 1 [])) <>
    fst (@messageString unit asciiTables sampleGmail reportMessage
           (sampleWorld 2 [])) /\
  Raw (fst (fst (@createMessage unit asciiTables sampleGmail reportMessage
                   (sampleWorld 1 [])))) <>
    Raw (fst (fst (@createMessage unit asciiTables sampleGmail reportMessage
                     (sampleWorld 2 [])))).
Proof.
  apply (@boundary_distinguishes_clock_readings unit asciiTables sampleGmail
           reportMessage (sampleWorld 1 []) (sampleWorld 2 []));
    [discriminate | discriminate].
Defined.

(** * The output as its reader sees it: properties *)

(** ** The lines of a text *)

Lemma textLines_cons2 (c d : ascii) (rest : string) :
  textLines (String c (String d rest)) =
    if isCR c && isLF d then "" :: textLines rest
    else consFirst c (textLines (String d rest)).
Proof. reflexivity. Qed.

Lemma textLines_not_nil (s : string) : textLines s <> [].
Proof.
  destruct s as [|c [|d rest]]; [done | done |].
  rewrite textLines_cons2. destruct (isCR c && isLF d); [done |].
  by destruct (textLines (String d rest)).
Qed.

Lemma consFirst_app (c : ascii) (l1 l2 : list string) :
  l1 <> [] -> consFirst c (l1 ++ l2) = consFirst c l1 ++ l2.
Proof. by destruct l1. Qed.

(** A line break between two texts separates their lines. *)
Lemma textLines_app_break (a b : string) :
  textLines (a +:+ String "013" (String "010" b)) =
    textLines a ++ textLines b.
Proof.
  enough ((textLines (a +:+ String "013" (String "010" b)) =
             textLines a ++ textLines b) /\
          forall c : ascii,
            textLines (String c a +:+ String "013" (String "010" b)) =
              textLines (String c a) ++ textLines b) as [E _] by exact E.
  induction a as [|d a [IH1 IH2]].
  - split; [reflexivity |]. intros c. rewrite string_app_cons.
    rewrite string_app_nil_l, textLines_cons2.
    replace (isLF "013") with false by reflexivity.
    rewrite andb_false_r. by rewrite textLines_cons2.
  - split; [apply IH2 |]. intros c.
    rewrite !string_app_cons, !textLines_cons2.
    destruct (isCR c && isLF d).
    + by rewrite IH1.
    + rewrite <- string_app_cons, IH2.
      apply consFirst_app, textLines_not_nil.
Qed.

Lemma lineBreakFree_cons (c : ascii) (s : string) :
  lineBreakFree (String c s) =
    negb (isCR c) && negb (isLF c) && lineBreakFree s.
Proof. reflexivity. Qed.

Lemma lineBreakFree_app (a b : string) :
  lineBreakFree (a +:+ b) = lineBreakFree a && lineBreakFree b.
Proof.
  unfold lineBreakFree. rewrite chars_app. apply forallb_app.
Qed.

(** A text without line break is one line. *)
Lemma textLines_line (l : string) :
  lineBreakFree l = true -> textLines l = [l].
Proof.
  induction l as [|c l IH]; [done |]. rewrite lineBreakFree_cons.
  intros Hc. apply andb_prop in Hc as [Hc Hl].
  apply andb_prop in Hc as [Hc _]. apply negb_true_iff in Hc.
  destruct l as [|d rest]; [done |].
  rewrite textLines_cons2, Hc, andb_false_l. by rewrite (IH Hl).
Qed.

Lemma textLines_line_break (l rest : string) :
  lineBreakFree l = true ->
  textLines (l +:+ String "013" (String "010" rest)) = l :: textLines rest.
Proof.
  intros Hl. by rewrite textLines_app_break, (textLines_line l Hl).
Qed.

Lemma joinLines_cons (l : string) (ls : list string) :
  joinLines (l :: ls) = l +:+ String "013" (String "010" (joinLines ls)).
Proof.
  unfold joinLines, strcat. cbn [fmap list_fmap foldr].
  by rewrite string_app_assoc.
Qed.

Lemma textLines_joinLines (ls : list string) (rest : string) :
  forallb lineBreakFree ls = true ->
  textLines (joinLines ls +:+ rest) = ls ++ textLines rest.
Proof.
  induction ls as [|l ls IH]; [done |]. cbn [forallb]. intros Hc.
  apply andb_prop in Hc as [Hl Hls].
  rewrite joinLines_cons, string_app_assoc.
  change (String "013" (String "010" (joinLines ls)) +:+ rest)
    with (String "013" (String "010" (joinLines ls +:+ rest))).
  rewrite (textLines_line_break _ _ Hl), (IH Hls). done.
Qed.

(** Putting the lines together gives the text back. *)
Lemma unlines_cons (l : string) (ls : list string) :
  ls <> [] ->
  unlines (l :: ls) = l +:+ String "013" (String "010" (unlines ls)).
Proof. by destruct ls. Qed.

Lemma unlines_consFirst (c : ascii) (ls : list string) :
  ls <> [] -> unlines (consFirst c ls) = String c (unlines ls).
Proof.
  destruct ls as [|l [|l' ls]]; [done | done |]. intros _.
  cbn [consFirst]. rewrite !unlines_cons by done.
  by rewrite string_app_cons.
Qed.

Lemma unlines_textLines (s : string) : unlines (textLines s) = s.
Proof.
  enough (unlines (textLines s) = s /\
          forall c : ascii, unlines (textLines (String c s)) = String c s)
    as [E _] by exact E.
  induction s as [|d s [IH1 IH2]]; [done |].
  split; [apply IH2 |]. intros c. rewrite textLines_cons2.
  destruct (isCR c && isLF d) eqn:E.
  - apply andb_prop in E as [Ec Ed].
    apply Ascii.eqb_eq in Ec as ->. apply Ascii.eqb_eq in Ed as ->.
    rewrite unlines_cons by apply textLines_not_nil.
    by rewrite IH1, string_app_nil_l.
  - rewrite unlines_consFirst by apply textLines_not_nil. by rewrite IH2.
Qed.

(** The header lines and the body of a text whose first lines are known. *)
Lemma upToBlank_app (ls more : list string) :
  forallb (fun l => negb (String.eqb l "")) ls = true ->
  upToBlank (ls ++ "" :: more) = ls.
Proof.
  induction ls as [|l ls IH]; [done |]. cbn [forallb app upToBlank].
  intros Hc. apply andb_prop in Hc as [Hl Hls].
  apply negb_true_iff in Hl. by rewrite Hl, (IH Hls).
Qed.

Lemma afterBlank_app (ls more : list string) :
  forallb (fun l => negb (String.eqb l "")) ls = true ->
  afterBlank (ls ++ "" :: more) = more.
Proof.
  induction ls as [|l ls IH]; [done |]. cbn [forallb app afterBlank].
  intros Hc. apply andb_prop in Hc as [Hl Hls].
  apply negb_true_iff in Hl. by rewrite Hl, (IH Hls).
Qed.

(** Filters and permutations. *)
Lemma filter_Permutation_bool {A} (f : A -> bool) (l1 l2 : list A) :
  l1 ≡ₚ l2 -> List.filter f l1 ≡ₚ List.filter f l2.
Proof.
  induction 1 as [|x l1 l2 _ IH|x y l|l1 l2 l3 _ IH1 _ IH2]; cbn.
  - done.
  - destruct (f x); by rewrite IH.
  - destruct (f x), (f y); try done. apply perm_swap.
  - by etrans.
Qed.

Lemma forallb_Permutation {A} (f : A -> bool) (l1 l2 : list A) :
  l1 ≡ₚ l2 -> forallb f l1 = forallb f l2.
Proof.
  induction 1 as [|x l1 l2 _ IH|x y l|l1 l2 l3 _ IH1 _ IH2]; cbn.
  - done.
  - by rewrite IH.
  - destruct (f x), (f y); done.
  - by etrans.
Qed.

Lemma commaJoined_cons2 (a b : string) (more : list string) :
  commaJoined (a :: b :: more) = a +:+ ", " +:+ commaJoined (b :: more).
Proof. reflexivity. Qed.

Lemma commaJoined_Join (addresses : list string) :
  commaJoined addresses = Join addresses ", ".
Proof.
  unfold Join. induction addresses as [|a [|b more] IH]; [done | done |].
  rewrite commaJoined_cons2, IH. reflexivity.
Qed.

Lemma lineBreakFree_commaJoined (addresses : list string) :
  forallb lineBreakFree addresses = true ->
  lineBreakFree (commaJoined addresses) = true.
Proof.
  induction addresses as [|a [|b more] IH]; [done | |].
  - cbn. by rewrite andb_true_r.
  - cbn [forallb] in *. intros Hc. apply andb_prop in Hc as [Ha Hm].
    rewrite commaJoined_cons2, !lineBreakFree_app, Ha, (IH Hm). done.
Qed.

(** ** The header lines of the output *)

Lemma headersOf_insert {Remote} (msg : Message) (w : World Remote) :
  headersOf msg w =
    <["Content-Type" := sentContentType msg w]> (commonHeaders msg).
Proof.
  unfold headersOf, sentContentType, simpleHeaders, multipartHeaders.
  destruct (Attachments msg); [done |]. do 2 f_equal.
Qed.

Lemma map_to_list_headers (msg : Message) (contentType : string) :
  map_to_list (<["Content-Type" := contentType]> (commonHeaders msg)) ≡ₚ
    headerFields msg contentType.
Proof.
  unfold commonHeaders, headerFields.
  destruct (Cc msg) as [|c cs], (Bcc msg) as [|b bs];
    cbn [length Nat.ltb Nat.leb app];
    repeat (rewrite map_to_list_insert;
            [| rewrite ?lookup_insert_ne by done; apply lookup_empty]);
    rewrite map_to_list_empty; symmetry; apply Permutation_rev.
Qed.

Lemma fieldLines_expected (msg : Message) (contentType : string) :
  fieldLine <$> headerFields msg contentType =
    expectedHeaderLines msg contentType.
Proof.
  unfold headerFields, expectedHeaderLines. rewrite <- !commaJoined_Join.
  by destruct (Cc msg), (Bcc msg).
Qed.

Lemma headerBlock_joinLines (hs : list (string * string)) :
  headerBlock hs = joinLines (fieldLine <$> hs).
Proof.
  unfold headerBlock, joinLines. rewrite <- list_fmap_compose. f_equal.
  apply list_fmap_ext. intros _ [k v] _. unfold headerLine, fieldLine.
  cbn [fst snd compose]. by rewrite !string_app_assoc.
Qed.

Lemma expectedHeaderLines_clean (msg : Message) (contentType : string) :
  cleanHeaders msg = true -> lineBreakFree contentType = true ->
  forallb lineBreakFree (expectedHeaderLines msg contentType) = true.
Proof.
  unfold cleanHeaders. intros Hc Ht.
  apply andb_prop in Hc as [Hc Hs]. apply andb_prop in Hc as [Hc Hb].
  apply andb_prop in Hc as [Hc Hcc]. apply andb_prop in Hc as [Hf Hto].
  apply lineBreakFree_commaJoined in Hto, Hcc, Hb.
  unfold expectedHeaderLines.
  destruct (Cc msg) as [|c cs], (Bcc msg) as [|b bs];
    cbn [app forallb]; rewrite !lineBreakFree_app, ?Hf, ?Hto, ?Hcc, ?Hb,
      ?Hs, ?Ht; reflexivity.
Qed.

Lemma expectedHeaderLines_not_empty (msg : Message) (contentType : string) :
  forallb (fun l => negb (String.eqb l ""))
    (expectedHeaderLines msg contentType) = true.
Proof.
  unfold expectedHeaderLines. by destruct (Cc msg), (Bcc msg).
Qed.

Lemma decimalChar_lineBreakFree (c : ascii) :
  decimalChar c = true -> negb (isCR c) && negb (isLF c) = true.
Proof.
  unfold decimalChar. cbn [list_ascii_of_string existsb].
  intros Hc. repeat (apply orb_prop in Hc as [Hc | Hc];
    [apply Ascii.eqb_eq in Hc as ->; reflexivity |]). done.
Qed.

Lemma Sprintf_d_lineBreakFree (n : Z) : lineBreakFree (Sprintf_d n) = true.
Proof.
  unfold lineBreakFree. apply forallb_forall. intros c Hc.
  apply decimalChar_lineBreakFree.
  pose proof (Sprintf_d_decimal n) as Hd. rewrite Forall_forall in Hd.
  apply Hd. by apply list_elem_of_In.
Qed.

Lemma sentContentType_clean {Remote} (msg : Message) (w : World Remote) :
  lineBreakFree (sentContentType msg w) = true.
Proof.
  unfold sentContentType, bodyContentType.
  destruct (Attachments msg); [by destruct (HTML msg) |].
  by rewrite lineBreakFree_app, Sprintf_d_lineBreakFree.
Qed.

Section OutputHeader.
Context {Remote : Type} `{UnicodeTables}.
Implicit Types (g : gmailProvider Remote) (w : World Remote) (msg : Message).

(** With header fields free of line breaks, the header lines of the output
    are the fields of the header map and nothing else, and the lines after
    the first empty line are the lines of what the encoder wrote after the
    header block. *)
Lemma output_header_lines g msg w (rest : string) :
  cleanHeaders msg = true ->
  fst (messageString g msg w) =
    headerBlock (fst (rangeMap (headersOf msg w) w)) +:+ CRLF +:+ rest ->
  headerLinesOf (fst (messageString g msg w)) ≡ₚ
    expectedHeaderLines msg (sentContentType msg w) /\
  textLines (fst (messageString g msg w)) =
    headerLinesOf (fst (messageString g msg w)) ++ "" :: textLines rest /\
  afterBlank (textLines (fst (messageString g msg w))) = textLines rest.
Proof.
  intros Hclean ->.
  destruct (rangeMap_visit (headersOf msg w) w) as [Hp _].
  set (visit := fst (rangeMap (headersOf msg w) w)) in *.
  assert (fieldLine <$> visit ≡ₚ
            expectedHeaderLines msg (sentContentType msg w)) as Hlines.
  { rewrite Hp, headersOf_insert, map_to_list_headers.
    by rewrite fieldLines_expected. }
  assert (forallb lineBreakFree (fieldLine <$> visit) = true) as Hfree.
  { rewrite (forallb_Permutation _ _ _ Hlines).
    apply expectedHeaderLines_clean; [done | apply sentContentType_clean]. }
  assert (forallb (fun l => negb (String.eqb l "")) (fieldLine <$> visit)
            = true) as Hfull.
  { rewrite (forallb_Permutation _ _ _ Hlines).
    apply expectedHeaderLines_not_empty. }
  assert (textLines (headerBlock visit +:+ CRLF +:+ rest) =
            (fieldLine <$> visit) ++ "" :: textLines rest) as Htext.
  { rewrite headerBlock_joinLines, (textLines_joinLines _ _ Hfree).
    f_equal. }
  unfold headerLinesOf. rewrite Htext, (upToBlank_app _ _ Hfull).
  split; [done |]. split; [done |]. by apply afterBlank_app.
Qed.
End OutputHeader.

Lemma linesStarting_Cc (msg : Message) (contentType : string) :
  linesStarting "Cc:" (expectedHeaderLines msg contentType) =
    match Cc msg with
    | [] => []
    | _ :: _ => ["Cc: " +:+ commaJoined (Cc msg)]
    end.
Proof. unfold expectedHeaderLines. by destruct (Cc msg), (Bcc msg). Qed.

Lemma linesStarting_Bcc (msg : Message) (contentType : string) :
  linesStarting "Bcc:" (expectedHeaderLines msg contentType) =
    match Bcc msg with
    | [] => []
    | _ :: _ => ["Bcc: " +:+ commaJoined (Bcc msg)]
    end.
Proof. unfold expectedHeaderLines. by destruct (Cc msg), (Bcc msg). Qed.

Lemma linesStarting_ContentType (msg : Message) (contentType : string) :
  linesStarting "Content-Type:" (expectedHeaderLines msg contentType) =
    ["Content-Type: " +:+ contentType].
Proof. unfold expectedHeaderLines. by destruct (Cc msg), (Bcc msg). Qed.

Lemma linesStarting_Permutation (name : string) (lines expected : list string)
    (found : list string) :
  lines ≡ₚ expected -> linesStarting name expected = found ->
  (found = [] \/ exists l, found = [l]) ->
  linesStarting name lines = found.
Proof.
  intros Hp <- Hshape.
  pose proof (filter_Permutation_bool (String.prefix name) _ _ Hp) as Hf.
  fold (linesStarting name lines) in Hf.
  fold (linesStarting name expected) in Hf.
  destruct Hshape as [E | [l E]]; rewrite E in *.
  - by apply Permutation_nil_r.
  - by apply Permutation_singleton_r.
Qed.

Section OutputClaims.
Context {Remote : Type} `{UnicodeTables}.
Implicit Types (g : gmailProvider Remote) (w : World Remote) (msg : Message).

(** C6. When the header fields hold no line break, the header lines of the
    encoded message, read off the text, are those of from, to, cc and bcc
    when not empty, subject, MIME version and content type, in some order:
    no line starts with [Cc:] when cc is empty, and exactly one does,
    [Cc: ] and the addresses with a comma and a space between them, when
    it is not; the same holds for [Bcc:]. *)
Theorem cc_bcc_header_lines g msg w :
  cleanHeaders msg = true ->
  let lines := headerLinesOf (fst (messageString g msg w)) in
  (exists contentType : string,
     lines ≡ₚ expectedHeaderLines msg contentType) /\
  linesStarting "Cc:" lines =
    match Cc msg with
    | [] => []
    | _ :: _ => ["Cc: " +:+ commaJoined (Cc msg)]
    end /\
  linesStarting "Bcc:" lines =
    match Bcc msg with
    | [] => []
    | _ :: _ => ["Bcc: " +:+ commaJoined (Bcc msg)]
    end.
Proof.
  intros Hclean lines.
  destruct (messageString_headers g msg w) as [rest Hrest].
  destruct (output_header_lines g msg w rest Hclean Hrest) as (Hp & _ & _).
  fold lines in Hp. split; [by eexists |]. split.
  - apply (linesStarting_Permutation _ _ _ _ Hp (linesStarting_Cc _ _)).
    destruct (Cc msg); [by left | right; by eexists].
  - apply (linesStarting_Permutation _ _ _ _ Hp (linesStarting_Bcc _ _)).
    destruct (Bcc msg); [by left | right; by eexists].
Qed.

(** C4. A message without attachments whose header fields hold no line
    break is encoded in the single-part form. Read off the text, the
    header lines are those of from, to, cc and bcc when not empty, subject,
    MIME version and content type, in some order; exactly one of them
    starts with [Content-Type:], and it names [text/html; charset=utf-8] or
    [text/plain; charset=utf-8] as [HTML] says; an empty line follows, and
    after it the body as it is. *)
Theorem simple_message_of_output g msg w :
  Attachments msg = [] ->
  cleanHeaders msg = true ->
  let text := fst (messageString g msg w) in
  let contentType :=
    if HTML msg then "text/html; charset=utf-8"
    else "text/plain; charset=utf-8" in
  headerLinesOf text ≡ₚ expectedHeaderLines msg contentType /\
  linesStarting "Content-Type:" (headerLinesOf text) =
    ["Content-Type: " +:+ contentType] /\
  textLines text = headerLinesOf text ++ "" :: textLines (Body msg) /\
  bodyOf text = Body msg /\
  DecodeString URLEncoding (Raw (fst (fst (createMessage g msg w)))) =
    Some (list_byte_of_string text).
Proof.
  intros Hatt Hclean text contentType.
  assert (sentContentType msg w = contentType) as Hct
    by (unfold sentContentType, bodyContentType; by rewrite Hatt).
  assert (fst (messageString g msg w) =
            headerBlock (fst (rangeMap (headersOf msg w) w)) +:+ CRLF +:+
            Body msg) as Htext.
  { rewrite messageString_simple by done. unfold headersOf.
    by rewrite Hatt. }
  destruct (output_header_lines g msg w (Body msg) Hclean Htext)
    as (Hp & Hl & Ha).
  rewrite Hct in Hp. fold text in Hp, Hl, Ha.
  split; [done |]. split; [| split; [done | split]].
  - apply (linesStarting_Permutation _ _ _ _ Hp
             (linesStarting_ContentType _ _)).
    right. by eexists.
  - unfold bodyOf. rewrite Ha. apply unlines_textLines.
  - apply createMessage_Raw.
Qed.
End OutputClaims.

(** C6 at a message with two addresses in cc and none in bcc. *)
Lemma cc_bcc_header_lines_witness :
  (exists contentType : string,
     headerLinesOf
       (fst (@messageString unit asciiTables sampleGmail
               twoAttachmentsMessage (sampleWorld 5 []))) ≡ₚ
       expectedHeaderLines twoAttachmentsMessage contentType) /\
  linesStarting "Cc:"
    (headerLinesOf
       (fst (@messageString unit asciiTables sampleGmail
               twoAttachmentsMessage (sampleWorld 5 [])))) =
    ["Cc: c@z.com, d@z.com"] /\
  linesStarting "Bcc:"
    (headerLinesOf
       (fst (@messageString unit asciiTables sampleGmail
               twoAttachmentsMessage (sampleWorld 5 [])))) = [].
Proof.
  apply (@cc_bcc_header_lines unit asciiTables sampleGmail
           twoAttachmentsMessage (sampleWorld 5 [])).
  reflexivity.
Defined.

(** A valid message without cc whose encoding holds a [Cc:] header line:
    the subject is written as it is, line break included. *)
Lemma cc_header_injected :
  Validate ccInjectingMessage = None /\
  Cc ccInjectingMessage = [] /\
  linesStarting "Cc:"
    (headerLinesOf
       (fst (@messageString unit asciiTables sampleGmail ccInjectingMessage
               (sampleWorld 0 [])))) = ["Cc: evil@z.com"].
Proof. split; [reflexivity |]. split; [reflexivity |]. by vm_compute. Qed.

(** C4 at the plain sample message. *)
Lemma simple_message_of_output_witness :
  let text :=
    fst (@messageString unit asciiTables sampleGmail plainMessage
           (sampleWorld 0 [])) in
  headerLinesOf text ≡ₚ
    expectedHeaderLines plainMessage "text/plain; charset=utf-8" /\
  linesStarting "Content-Type:" (headerLinesOf text) =
    ["Content-Type: text/plain; charset=utf-8"] /\
  textLines text = headerLinesOf text ++ "" :: textLines "Hello" /\
  bodyOf text = "Hello" /\
  DecodeString URLEncoding
    (Raw (fst (fst (@createMessage unit asciiTables sampleGmail
                      plainMessage (sampleWorld 0 []))))) =
    Some (list_byte_of_string text).
Proof.
  apply (@simple_message_of_output unit asciiTables sampleGmail plainMessage
           (sampleWorld 0 []));
    reflexivity.
Defined.

(** A valid message without attachments whose encoding holds two
    [Content-Type:] header lines. *)
Lemma second_content_type_header :
  Validate typeInjectingMessage = None /\
  Attachments typeInjectingMessage = [] /\
  linesStarting "Content-Type:"
    (headerLinesOf
       (fst (@messageString unit asciiTables sampleGmail
               typeInjectingMessage (sampleWorld 0 [])))) =
    ["Content-Type: text/html; charset=utf-7";
     "Content-Type: text/plain; charset=utf-8"].
Proof. split; [reflexivity |]. split; [reflexivity |]. by vm_compute. Qed.

(** ** The parts of a multipart output *)

Lemma encodeAt_stdChar (i : Z) :
  0 <= i < 64 -> stdChar (encodeAt StdEncoding i) = true.
Proof.
  intros Hi.
  assert (forallb (fun n => stdChar (encodeAt StdEncoding (Z.of_nat n)))
            (seq 0 64) = true)
    as Hall by (vm_compute; reflexivity).
  rewrite forallb_forall in Hall. specialize (Hall (Z.to_nat i)).
  rewrite Z2Nat.id in Hall by lia. apply Hall, in_seq. lia.
Qed.

Lemma EncodeToString_stdChars (src : list byte) :
  forallb stdChar (chars (EncodeToString StdEncoding src)) = true.
Proof.
  induction src as [|b0|b0 b1|b0 b1 b2 rest IH] using list_ind3;
    cbn [EncodeToString]; unfold padding;
    cbn [padChar StdEncoding repeat string_of_list_ascii
         list_ascii_of_string forallb];
    rewrite ?encodeAt_stdChar by first [apply sextet_range
                                       | apply sextet_range0];
    rewrite ?IH; reflexivity.
Qed.

Lemma stdChar_plain (c : ascii) :
  stdChar c = true ->
  negb (isCR c) && negb (isLF c) && negb (Ascii.eqb c "-") = true.
Proof.
  assert (forallb
            (fun c => negb (isCR c) && negb (isLF c) &&
                      negb (Ascii.eqb c "-"))
            (chars encodeStd ++ [StdPadding]) = true)
    as Hall by (vm_compute; reflexivity).
  rewrite forallb_forall in Hall. unfold stdChar. intros Hc.
  apply existsb_exists in Hc as (d & Hd & E).
  apply Ascii.eqb_eq in E as ->. by apply Hall.
Qed.

(** What the content lines of an attachment are as lines of a text. *)
Lemma contentLines_plain (lines : list string) (src : list byte) :
  strcat lines = EncodeToString StdEncoding src ->
  Forall contentLine lines ->
  forallb lineBreakFree lines = true /\
  forallb plainLine lines = true /\
  forallb (fun l => negb (String.eqb l "")) lines = true.
Proof.
  intros Hcat Hlines.
  pose proof (EncodeToString_stdChars src) as Hstd.
  rewrite <- Hcat, chars_strcat in Hstd.
  assert (forall l, l ∈ lines -> forallb stdChar (chars l) = true) as Hl.
  { intros l Hin. apply forallb_forall. intros c Hc.
    rewrite forallb_forall in Hstd. apply Hstd.
    apply in_concat. exists (chars l). split; [| done].
    by apply list_elem_of_In, list_elem_of_fmap_2. }
  rewrite Forall_forall in Hlines.
  repeat split; apply forallb_forall; intros l Hin;
    apply list_elem_of_In in Hin;
    specialize (Hl l Hin); destruct (Hlines l Hin) as [[Hlen _] _].
  - unfold lineBreakFree. apply forallb_forall. intros c Hc.
    rewrite forallb_forall in Hl. specialize (Hl c Hc).
    apply stdChar_plain, andb_prop in Hl as [Hl _]. done.
  - destruct l as [|c l]; [cbn in Hlen; lia |].
    cbn [list_ascii_of_string forallb] in Hl.
    apply andb_prop in Hl as [Hc _].
    apply stdChar_plain, andb_prop in Hc as [_ Hc].
    apply negb_true_iff in Hc. unfold plainLine. cbn [String.prefix].
    destruct (ascii_dec "-" c) as [<- | _]; [done | done].
  - destruct l; [cbn in Hlen; lia | done].
Qed.

Lemma joinLines_app (a b : list string) :
  joinLines (a ++ b) = joinLines a +:+ joinLines b.
Proof.
  induction a as [|l a IH]; [by rewrite string_app_nil_l |].
  cbn [app]. rewrite !joinLines_cons, IH, string_app_assoc. done.
Qed.

Lemma attachmentPart_joinLines (boundary mimeType filename : string)
    (lines : list string) :
  attachmentPart boundary mimeType filename lines =
    joinLines (("--" +:+ boundary) ::
               partRun (expectedPartHeaders mimeType filename) lines).
Proof.
  unfold attachmentPart, partRun, expectedPartHeaders. cbn [app].
  rewrite !joinLines_cons, joinLines_app, !joinLines_cons.
  unfold joinLines at 2. cbn [fmap list_fmap strcat foldr].
  rewrite !string_app_assoc. reflexivity.
Qed.

Lemma bodyPart_joinLines (boundary : string) (msg : Message) :
  bodyPart boundary msg =
    joinLines ["--" +:+ boundary; "Content-Type: " +:+ bodyContentType msg;
               ""] +:+
    Body msg +:+ String "013" (String "010" (String "013" (String "010" ""))).
Proof.
  unfold bodyPart, joinLines, strcat. cbn [fmap list_fmap foldr].
  rewrite !string_app_assoc, !string_app_nil_l. reflexivity.
Qed.

Lemma closingBoundary_joinLines (boundary : string) :
  closingBoundary boundary = joinLines ["--" +:+ boundary +:+ "--"].
Proof.
  unfold closingBoundary, joinLines, strcat. cbn [fmap list_fmap foldr].
  rewrite !string_app_assoc, string_app_nil_r. reflexivity.
Qed.

(** Delimiters and the lines that are none. *)
Lemma prefix_app (a x : string) : String.prefix a (a +:+ x) = true.
Proof.
  induction a as [|c a IH]; [by destruct x |].
  rewrite string_app_cons. cbn [String.prefix].
  by destruct (ascii_dec c c).
Qed.

Lemma plainLine_not_delimiter (l x : string) :
  plainLine l = true -> String.eqb l ("--boundary-" +:+ x) = false.
Proof.
  unfold plainLine. intros Hl. apply String.eqb_neq. intros ->.
  by rewrite prefix_app in Hl.
Qed.

Lemma delimiter_not_closing (d : string) : String.eqb d (d +:+ "--") = false.
Proof.
  apply String.eqb_neq. intros E. apply (f_equal String.length) in E.
  rewrite string_app_length in E. cbn in E. lia.
Qed.

Lemma upToLine_app (stop : string) (ls more : list string) :
  forallb (fun l => negb (String.eqb l stop)) ls = true ->
  upToLine stop (ls ++ stop :: more) = ls.
Proof.
  induction ls as [|l ls IH]; cbn [forallb app upToLine].
  - intros _. by rewrite String.eqb_refl.
  - intros Hc. apply andb_prop in Hc as [Hl Hls].
    apply negb_true_iff in Hl. by rewrite Hl, (IH Hls).
Qed.

Lemma segments_not_nil (d : string) (ls : list string) :
  segments d ls <> [].
Proof.
  destruct ls as [|l ls]; [done |]. cbn [segments].
  destruct (String.eqb l d); [done |]. by destruct (segments d ls).
Qed.

Lemma segments_run (d : string) (run more : list string) :
  forallb (fun l => negb (String.eqb l d)) run = true ->
  segments d (run ++ more) =
    match segments d more with
    | seg :: segs => (run ++ seg) :: segs
    | [] => [run]
    end.
Proof.
  induction run as [|l run IH]; cbn [forallb app segments].
  - intros _. pose proof (segments_not_nil d more).
    by destruct (segments d more).
  - intros Hc. apply andb_prop in Hc as [Hl Hls].
    apply negb_true_iff in Hl. rewrite Hl, (IH Hls).
    by destruct (segments d more).
Qed.

Lemma segments_runs (d : string) (runs : list (list string)) :
  forallb (forallb (fun l => negb (String.eqb l d))) runs = true ->
  segments d (concat (cons d <$> runs)) = [] :: runs.
Proof.
  induction runs as [|run runs IH]; [done |].
  cbn [forallb fmap list_fmap concat app segments]. intros Hc.
  apply andb_prop in Hc as [Hrun Hruns].
  rewrite String.eqb_refl, (segments_run _ _ _ Hrun), (IH Hruns).
  by rewrite app_nil_r.
Qed.

(** The header and the content lines of a run. *)
Lemma partRun_read (headers content : list string) :
  forallb (fun l => negb (String.eqb l "")) headers = true ->
  forallb (fun l => negb (String.eqb l "")) content = true ->
  partHeadersOf (partRun headers content) = headers /\
  contentLinesOf (partRun headers content) = content.
Proof.
  intros Hh Hc. unfold partHeadersOf, contentLinesOf, partRun.
  rewrite (upToBlank_app _ _ Hh), (afterBlank_app _ _ Hh). split; [done |].
  rewrite List.filter_app. cbn [List.filter String.eqb negb].
  rewrite app_nil_r. clear Hh.
  induction content as [|l ls IH]; [done |]. cbn [forallb List.filter] in *.
  apply andb_prop in Hc as [Hl Hls]. by rewrite Hl, (IH Hls).
Qed.

(** The content type of an attachment holds no line break when the
    attachment does not. *)
Lemma getContentType_lineBreakFree `{UnicodeTables} (filename : string) :
  lineBreakFree (getContentType filename) = true.
Proof.
  unfold getContentType, contentTypeCases. cbn [switch].
  repeat match goal with
         | |- context [if ?b then _ else _] => destruct b; [reflexivity |]
         end.
  reflexivity.
Qed.

Lemma resolvedMimeType_lineBreakFree `{UnicodeTables} (att : Attachment) :
  cleanAttachment att = true -> lineBreakFree (resolvedMimeType att) = true.
Proof.
  unfold cleanAttachment, resolvedMimeType. intros Hc.
  apply andb_prop in Hc as [_ Hm].
  destruct (String.eqb (MimeType att) "");
    [apply getContentType_lineBreakFree | done].
Qed.

Lemma expectedPartHeaders_plain (mimeType filename : string) :
  lineBreakFree mimeType = true -> lineBreakFree filename = true ->
  forallb lineBreakFree (expectedPartHeaders mimeType filename) = true /\
  forallb plainLine (expectedPartHeaders mimeType filename) = true /\
  forallb (fun l => negb (String.eqb l ""))
    (expectedPartHeaders mimeType filename) = true.
Proof.
  intros Hm Hf. unfold expectedPartHeaders. split; [| by split].
  cbn [forallb]. rewrite !lineBreakFree_app, Hm, Hf. reflexivity.
Qed.

Lemma forallb_impl {A} (f g : A -> bool) (l : list A) :
  (forall x, f x = true -> g x = true) ->
  forallb f l = true -> forallb g l = true.
Proof.
  intros Hfg. rewrite !forallb_forall. intros Hf x Hx. by apply Hfg, Hf.
Qed.

Lemma forallb_concat {A} (f : A -> bool) (ls : list (list A)) :
  forallb (forallb f) ls = true -> forallb f (concat ls) = true.
Proof.
  induction ls as [|l ls IH]; [done |]. cbn [forallb concat].
  intros Hc. apply andb_prop in Hc as [Hl Hls].
  by rewrite forallb_app, Hl, (IH Hls).
Qed.

Lemma textLines_break (s : string) :
  textLines (String "013" (String "010" s)) = "" :: textLines s.
Proof. reflexivity. Qed.

Lemma linesStarting_multipart (msg : Message) (boundary : string) :
  linesStarting multipartMark
    (expectedHeaderLines msg ("multipart/mixed; boundary=" +:+ boundary)) =
    [multipartMark +:+ boundary].
Proof.
  pose proof (prefix_app multipartMark boundary) as Hm.
  unfold expectedHeaderLines, linesStarting.
  destruct (Cc msg), (Bcc msg); cbn [app List.filter];
    change ("Content-Type: " +:+ "multipart/mixed; boundary=" +:+ boundary)
      with (multipartMark +:+ boundary);
    rewrite Hm; reflexivity.
Qed.

Section OutputParts.
Context {Remote : Type} `{UnicodeTables}.
Implicit Types (g : gmailProvider Remote) (w : World Remote) (msg : Message).

Lemma addAttachment_run g (message : Builder) (att : Attachment)
    (boundary : string) :
  exists content : list string,
    addAttachment g message att boundary =
      message +:+
      joinLines (("--" +:+ boundary) :: attachmentRun att content) /\
    Forall contentLine content /\
    strcat content = EncodeToString StdEncoding (Content att).
Proof.
  unfold addAttachment. fold (resolvedMimeType att).
  match goal with |- context [writeEncoded _ 0 ?b] =>
    destruct (writeEncoded_contentLines (Content att) b)
      as (lines & Hw & Hc & Hf)
  end.
  exists lines. split; [| by split].
  rewrite Hw. unfold attachmentRun.
  rewrite <- attachmentPart_joinLines. unfold attachmentPart, WriteString.
  by rewrite !string_app_assoc.
Qed.

Lemma foldl_addAttachment_runs g (boundary : string)
    (atts : list Attachment) (message : Builder) :
  exists contents : list (list string),
    Forall2
      (fun att content =>
         Forall contentLine content /\
         strcat content = EncodeToString StdEncoding (Content att))
      atts contents /\
    foldl (fun b att => addAttachment g b att boundary) message atts =
      message +:+
      joinLines
        (concat (cons ("--" +:+ boundary) <$>
                 zip_with attachmentRun atts contents)).
Proof.
  revert message. induction atts as [|att atts IH]; intros message.
  - exists []. split; [constructor |]. by rewrite string_app_nil_r.
  - cbn [foldl].
    destruct (addAttachment_run g message att boundary)
      as (content & Ha & Hl & Hc).
    destruct (IH (addAttachment g message att boundary))
      as (contents & Hall & Hf).
    exists (content :: contents). split; [by constructor |].
    rewrite Hf, Ha. cbn [zip_with fmap list_fmap concat].
    by rewrite joinLines_app, string_app_assoc.
Qed.

(** The lines of a multipart output after its header. *)
Lemma multipart_lines (boundary : string) (msg : Message)
    (runs : list (list string)) :
  lineBreakFree boundary = true ->
  forallb (forallb lineBreakFree) runs = true ->
  textLines
    (bodyPart boundary msg +:+
     joinLines (concat (cons ("--" +:+ boundary) <$> runs)) +:+
     closingBoundary boundary) =
    concat (cons ("--" +:+ boundary) <$> (bodyRun msg :: runs)) ++
    [("--" +:+ boundary) +:+ "--"; ""].
Proof.
  intros Hb Hruns.
  assert (lineBreakFree ("--" +:+ boundary) = true) as Hd
    by (by rewrite lineBreakFree_app, Hb).
  rewrite bodyPart_joinLines, closingBoundary_joinLines.
  rewrite !string_app_assoc.
  rewrite textLines_joinLines.
  2:{ cbn [forallb]. rewrite Hd, lineBreakFree_app.
      unfold bodyContentType. by destruct (HTML msg). }
  change (String "013" (String "010" (String "013" (String "010" ""))) +:+
          ?x)
    with (String "013" (String "010" (String "013" (String "010" x)))).
  rewrite textLines_app_break, textLines_break.
  rewrite textLines_joinLines.
  2:{ apply forallb_concat. clear -Hd Hruns.
      induction runs as [|run runs IH]; [done |].
      cbn [forallb fmap list_fmap] in *.
      apply andb_prop in Hruns as [Hrun Hruns].
      by rewrite Hd, Hrun, (IH Hruns). }
  rewrite <- (string_app_nil_r (joinLines [_])).
  rewrite textLines_joinLines.
  2:{ cbn [forallb]. by rewrite <- string_app_assoc, lineBreakFree_app, Hd. }
  cbn [fmap list_fmap concat textLines]. unfold bodyRun. cbn [app].
  rewrite <- !app_assoc. cbn [app]. reflexivity.
Qed.
End OutputParts.

Section OutputAttachments.
Context {Remote : Type} `{UnicodeTables}.
Implicit Types (g : gmailProvider Remote) (w : World Remote) (msg : Message).

Lemma attachmentRun_plain (att : Attachment) (content : list string) :
  cleanAttachment att = true ->
  Forall contentLine content ->
  strcat content = EncodeToString StdEncoding (Content att) ->
  forallb lineBreakFree (attachmentRun att content) = true /\
  forallb plainLine (attachmentRun att content) = true.
Proof.
  intros Hclean Hlines Hcat.
  destruct (contentLines_plain content (Content att) Hcat Hlines)
    as (Hc1 & Hc2 & _).
  pose proof (resolvedMimeType_lineBreakFree att Hclean) as Hm.
  apply andb_prop in Hclean as [Hf _].
  destruct (expectedPartHeaders_plain _ _ Hm Hf) as (Hh1 & Hh2 & _).
  unfold attachmentRun, partRun.
  rewrite !forallb_app. cbn [forallb]. rewrite !forallb_app.
  by rewrite Hh1, Hh2, Hc1, Hc2.
Qed.

Lemma attachmentRuns_plain (atts : list Attachment)
    (contents : list (list string)) :
  forallb cleanAttachment atts = true ->
  Forall2
    (fun att content =>
       Forall contentLine content /\
       strcat content = EncodeToString StdEncoding (Content att))
    atts contents ->
  forallb (forallb lineBreakFree) (zip_with attachmentRun atts contents)
    = true /\
  forallb (forallb plainLine) (zip_with attachmentRun atts contents) = true.
Proof.
  intros Hclean Hall. induction Hall as [|att content atts contents
    [Hl Hc] _ IH]; [done |].
  cbn [forallb zip_with] in *. apply andb_prop in Hclean as [Ha Hatts].
  destruct (attachmentRun_plain att content Ha Hl Hc) as [H1 H2].
  destruct (IH Hatts) as [H3 H4]. by rewrite H1, H2, H3, H4.
Qed.

Lemma attachmentRuns_read (atts : list Attachment)
    (contents : list (list string)) :
  Forall2
    (fun att content =>
       Forall contentLine content /\
       strcat content = EncodeToString StdEncoding (Content att))
    atts contents ->
  Forall2
    (fun att part =>
       partHeadersOf part =
         expectedPartHeaders (resolvedMimeType att) (Filename att) /\
       Forall (fun l => (0 < String.length l <= 76)%nat)
         (contentLinesOf part) /\
       DecodeString StdEncoding (strcat (contentLinesOf part)) =
         Some (Content att))
    atts (zip_with attachmentRun atts contents).
Proof.
  induction 1 as [|att content atts contents [Hl Hc] _ IH];
    [constructor |].
  cbn [zip_with]. constructor; [| exact IH].
  destruct (contentLines_plain content (Content att) Hc Hl)
    as (_ & _ & Hfull).
  destruct (partRun_read
              (expectedPartHeaders (resolvedMimeType att) (Filename att))
              content) as [Hh Hcl]; [done | done |].
  unfold attachmentRun. rewrite Hh, Hcl. split; [done |]. split.
  - eapply Forall_impl; [exact Hl |]. by intros l [Hlen _].
  - rewrite Hc.
    apply (DecodeString_EncodeToString StdEncoding StdPadding);
      [apply StdEncoding_ok | done].
Qed.

Lemma plain_not_delimiter (d : string) (run : list string) :
  forallb plainLine run = true ->
  forallb (fun l => negb (String.eqb l ("--boundary-" +:+ d))) run = true.
Proof.
  apply forallb_impl. intros l Hl.
  by rewrite (plainLine_not_delimiter l d Hl).
Qed.

(** The parts of the output of a message with attachments, read off the
    text: the part of the body, then one run of lines per attachment. *)
Lemma mimeParts_of_output g msg w :
  Attachments msg <> [] ->
  cleanHeaders msg = true ->
  forallb cleanAttachment (Attachments msg) = true ->
  bodyKeepsClear msg = true ->
  exists contents : list (list string),
    Forall2
      (fun att content =>
         Forall contentLine content /\
         strcat content = EncodeToString StdEncoding (Content att))
      (Attachments msg) contents /\
    boundaryOf (fst (messageString g msg w)) =
      "boundary-" +:+ Sprintf_d (clock w) /\
    mimeParts (fst (messageString g msg w)) =
      bodyRun msg :: zip_with attachmentRun (Attachments msg) contents.
Proof.
  intros Hatt Hclean Hcatts Hbody.
  set (D := Sprintf_d (clock w)).
  set (B := "boundary-" +:+ D).
  destruct (foldl_addAttachment_runs g B (Attachments msg)
              (headerBlock (fst (rangeMap (multipartHeaders B msg) w)) +:+
               CRLF +:+ bodyPart B msg))
    as (contents & Hall & Hf).
  exists contents. split; [done |].
  set (runs := zip_with attachmentRun (Attachments msg) contents) in *.
  set (rest := bodyPart B msg +:+
               joinLines (concat (cons ("--" +:+ B) <$> runs)) +:+
               closingBoundary B).
  assert (headersOf msg w = multipartHeaders B msg) as Hheaders
    by (unfold headersOf; by destruct (Attachments msg)).
  assert (fst (messageString g msg w) =
            headerBlock (fst (rangeMap (headersOf msg w) w)) +:+ CRLF +:+
            rest) as Htext.
  { rewrite messageString_multipart by done. cbv zeta. cbn [fst].
    fold D. fold B. rewrite Hf, Hheaders. unfold rest.
    by rewrite !string_app_assoc. }
  destruct (output_header_lines g msg w rest Hclean Htext) as (Hp & _ & Ha).
  assert (sentContentType msg w = "multipart/mixed; boundary=" +:+ B) as Hct
    by (unfold sentContentType; by destruct (Attachments msg)).
  rewrite Hct in Hp.
  assert (boundaryOf (fst (messageString g msg w)) = B) as Hboundary.
  { unfold boundaryOf.
    rewrite (linesStarting_Permutation _ _ _ _ Hp
               (linesStarting_multipart msg B))
      by (right; by eexists).
    apply substring_suffix. }
  split; [done |].
  destruct (attachmentRuns_plain _ _ Hcatts Hall) as [Hfree Hplain].
  fold runs in Hfree, Hplain.
  assert (lineBreakFree B = true) as HB
    by (unfold B, D; by rewrite lineBreakFree_app, Sprintf_d_lineBreakFree).
  assert (forallb plainLine (bodyRun msg) = true) as Hbodyrun.
  { unfold bodyRun. rewrite !forallb_app. cbn [forallb].
    unfold bodyKeepsClear in Hbody. fold plainLine in Hbody.
    by rewrite Hbody. }
  assert (forall run : list string,
            forallb plainLine run = true ->
            forallb (fun l => negb (String.eqb l ("--" +:+ B))) run = true)
    as Hopen by exact (plain_not_delimiter D).
  assert (forall run : list string,
            forallb plainLine run = true ->
            forallb (fun l => negb (String.eqb l (("--" +:+ B) +:+ "--")))
              run = true)
    as Hclose by exact (plain_not_delimiter (D +:+ "--")).
  unfold mimeParts. rewrite Hboundary, Ha. unfold rest.
  rewrite (multipart_lines B msg runs HB Hfree).
  cbn [app]. rewrite upToLine_app.
  - rewrite segments_runs; [done |]. cbn [forallb].
    rewrite (Hopen _ Hbodyrun). cbn [andb].
    eapply forallb_impl; [| exact Hplain]. exact Hopen.
  - apply forallb_concat. cbn [forallb fmap list_fmap].
    rewrite (delimiter_not_closing ("--" +:+ B)). cbn [negb andb].
    rewrite (Hclose _ Hbodyrun). cbn [andb].
    clear -Hplain Hclose. induction runs as [|run runs IH]; [done |].
    cbn [forallb fmap list_fmap] in *.
    apply andb_prop in Hplain as [Hrun Hruns].
    rewrite (delimiter_not_closing ("--" +:+ B)). cbn [negb andb].
    by rewrite (Hclose _ Hrun), (IH Hruns).
Qed.

(** C2. A message with attachments whose header fields, file names and
    MIME types hold no line break, and whose body has no line that starts
    like a delimiter, is encoded as a multipart text whose parts, read off
    the text, are the part of the body and then one part per attachment,
    in the order of the input. The part of an attachment has the three
    header lines of its type, transfer encoding and disposition; its
    content lines are at most 76 characters long, and put together they
    decode, as standard base64, to the content of the attachment. *)
Theorem attachment_parts_of_output g msg w :
  Attachments msg <> [] ->
  cleanHeaders msg = true ->
  forallb cleanAttachment (Attachments msg) = true ->
  bodyKeepsClear msg = true ->
  let parts := attachmentPartsOf (fst (messageString g msg w)) in
  length parts = length (Attachments msg) /\
  Forall2
    (fun att part =>
       partHeadersOf part =
         expectedPartHeaders (resolvedMimeType att) (Filename att) /\
       Forall (fun l => (0 < String.length l <= 76)%nat)
         (contentLinesOf part) /\
       DecodeString StdEncoding (strcat (contentLinesOf part)) =
         Some (Content att))
    (Attachments msg) parts.
Proof.
  intros Hatt Hclean Hcatts Hbody parts.
  destruct (mimeParts_of_output g msg w Hatt Hclean Hcatts Hbody)
    as (contents & Hall & _ & Hparts).
  unfold parts, attachmentPartsOf. rewrite Hparts. cbn [tail].
  pose proof (attachmentRuns_read _ _ Hall) as Hread.
  split; [| exact Hread]. symmetry. by apply Forall2_length in Hread.
Qed.
End OutputAttachments.

(** C2 at a message with two attachments. *)
Lemma attachment_parts_of_output_witness :
  let parts :=
    attachmentPartsOf
      (fst (@messageString unit asciiTables sampleGmail
              twoAttachmentsMessage (sampleWorld 5 []))) in
  length parts = 2%nat /\
  Forall2
    (fun att part =>
       partHeadersOf part =
         expectedPartHeaders (@resolvedMimeType asciiTables att)
           (Filename att) /\
       Forall (fun l => (0 < String.length l <= 76)%nat)
         (contentLinesOf part) /\
       DecodeString StdEncoding (strcat (contentLinesOf part)) =
         Some (Content att))
    [reportAttachment; notesAttachment] parts.
Proof.
  apply (@attachment_parts_of_output unit asciiTables sampleGmail
           twoAttachmentsMessage (sampleWorld 5 []));
    [discriminate | reflexivity | reflexivity | reflexivity].
Defined.

(** A valid message with one attachment whose part, read off the text,
    does not decode: the file name is written as it is, and its line
    breaks end the header of the part before the transfer encoding. *)
Lemma attachment_part_not_decodable :
  Validate crookedMessage = None /\
  length (Attachments crookedMessage) = 1%nat /\
  partHeadersOf <$>
    attachmentPartsOf
      (fst (@messageString unit asciiTables sampleGmail crookedMessage
              (sampleWorld 5 []))) =
    [["Content-Type: application/octet-stream; name=" +:+ doubleQuote +:+
        "a.txt" +:+ doubleQuote]] /\
  (fun part => DecodeString StdEncoding (strcat (contentLinesOf part))) <$>
    attachmentPartsOf
      (fst (@messageString unit asciiTables sampleGmail crookedMessage
              (sampleWorld 5 []))) = [None].
Proof.
  split; [reflexivity |]. split; [reflexivity |].
  split; by vm_compute.
Qed.
